(** * FreeCAD TopoHasher: a shallow embedding of the change tracker

    The macro [FreeCAD_TopoHasher_PuLs4r_V1.py] fingerprints the objects of a
    FreeCAD document (an MD5 digest over a reduced snapshot of their
    properties), keeps a capped history of fingerprints on every object, orders
    objects by their dependencies and drives all of it from document
    notifications through two timers and two busy flags.

    Part I embeds the macro function by function.  Module-level variables of
    the macro are the fields of [World]; a function that reads or writes them
    takes and returns a [World].  Part II states and proves the properties.

    Conventions.
    - Points in time ([time.time()], an object's [TimeStamp], timer deadlines)
      are integers counting milliseconds, so the macro's
      [time.time() - last < config["throttle_interval"] / 1000.0] reads
      [now - last < throttle_interval].
    - A character of a string is a code point below 256.
    - Floating point numbers never take part in a computation of the macro;
      they only get serialised, and are carried as their JSON text. *)

From Stdlib Require Import ZArith Lia.
From stdpp Require Import gmap strings list sorting pretty.

(** ** Python built-ins used by the macro *)

Module py.

(** [l[i:]], for a negative or non-negative start [i]. *)
Definition slice_from {A} (i : Z) (l : list A) : list A :=
  if (i <? 0)%Z
  then drop (Z.to_nat (Z.max 0 (Z.of_nat (length l) + i))) l
  else drop (Z.to_nat i) l.

(** [l[-1]] *)
Definition last_item {A} (l : list A) : option A := last l.

(** [l[-1] = x] on a non-empty list *)
Definition set_last {A} (x : A) (l : list A) : list A :=
  <[pred (length l) := x]> l.

Fixpoint string_rev_onto (acc s : string) : string :=
  match s with
  | EmptyString => acc
  | String c s' => string_rev_onto (String c acc) s'
  end.

Definition string_rev (s : string) : string := string_rev_onto EmptyString s.

(** [s.endswith(suffix)] *)
Definition endswith (s suffix : string) : bool :=
  String.prefix (string_rev suffix) (string_rev s).

(** [sep.join(items)] *)
Fixpoint join (sep : string) (items : list string) : string :=
  match items with
  | [] => EmptyString
  | [x] => x
  | x :: rest => x +:+ sep +:+ join sep rest
  end.

(** [sorted(keys)] on strings: insertion into an ascending list. *)
Fixpoint insert_sorted (k : string) (l : list string) : list string :=
  match l with
  | [] => [k]
  | x :: rest => if String.leb k x then k :: l else x :: insert_sorted k rest
  end.

Definition sorted (l : list string) : list string :=
  foldr insert_sorted [] l.

(** [chr(n)] *)
Definition chr (n : nat) : string := String (Ascii.ascii_of_nat n) EmptyString.

(** [sub in s] on strings *)
Fixpoint in_string (sub s : string) : bool :=
  String.prefix sub s
  || match s with
     | EmptyString => false
     | String _ s' => in_string sub s'
     end.

Definition lower_char (c : Ascii.ascii) : Ascii.ascii :=
  let n := Ascii.nat_of_ascii c in
  if decide (65 ≤ n ≤ 90 ∨ 192 ≤ n ≤ 214 ∨ 216 ≤ n ≤ 222)
  then Ascii.ascii_of_nat (n + 32) else c.

(** [s.lower()] *)
Fixpoint lower (s : string) : string :=
  match s with
  | EmptyString => EmptyString
  | String c s' => String (lower_char c) (lower s')
  end.

(** [x in l] *)
Definition contains `{EqDecision A} (x : A) (l : list A) : bool :=
  bool_decide (x ∈ l).

(** [s.add(x)] on a set kept as a duplicate-free list. *)
Definition set_add `{EqDecision A} (x : A) (s : list A) : list A :=
  if contains x s then s else s ++ [x].

End py.

(** ** [hashlib.md5(...).hexdigest()] *)

Module hashlib.

Local Open Scope Z_scope.

Definition wrap32 (x : Z) : Z := Z.land x 0xffffffff.

Definition rotl32 (x c : Z) : Z :=
  wrap32 (Z.lor (Z.shiftl x c) (Z.shiftr x (32 - c))).

Definition not32 (x : Z) : Z := Z.lxor x 0xffffffff.

Definition K : list Z :=
  [0xd76aa478; 0xe8c7b756; 0x242070db; 0xc1bdceee;
   0xf57c0faf; 0x4787c62a; 0xa8304613; 0xfd469501;
   0x698098d8; 0x8b44f7af; 0xffff5bb1; 0x895cd7be;
   0x6b901122; 0xfd987193; 0xa679438e; 0x49b40821;
   0xf61e2562; 0xc040b340; 0x265e5a51; 0xe9b6c7aa;
   0xd62f105d; 0x02441453; 0xd8a1e681; 0xe7d3fbc8;
   0x21e1cde6; 0xc33707d6; 0xf4d50d87; 0x455a14ed;
   0xa9e3e905; 0xfcefa3f8; 0x676f02d9; 0x8d2a4c8a;
   0xfffa3942; 0x8771f681; 0x6d9d6122; 0xfde5380c;
   0xa4beea44; 0x4bdecfa9; 0xf6bb4b60; 0xbebfbc70;
   0x289b7ec6; 0xeaa127fa; 0xd4ef3085; 0x04881d05;
   0xd9d4d039; 0xe6db99e5; 0x1fa27cf8; 0xc4ac5665;
   0xf4292244; 0x432aff97; 0xab9423a7; 0xfc93a039;
   0x655b59c3; 0x8f0ccc92; 0xffeff47d; 0x85845dd1;
   0x6fa87e4f; 0xfe2ce6e0; 0xa3014314; 0x4e0811a1;
   0xf7537e82; 0xbd3af235; 0x2ad7d2bb; 0xeb86d391].

Definition S : list Z :=
  [7; 12; 17; 22; 7; 12; 17; 22; 7; 12; 17; 22; 7; 12; 17; 22;
   5; 9; 14; 20; 5; 9; 14; 20; 5; 9; 14; 20; 5; 9; 14; 20;
   4; 11; 16; 23; 4; 11; 16; 23; 4; 11; 16; 23; 4; 11; 16; 23;
   6; 10; 15; 21; 6; 10; 15; 21; 6; 10; 15; 21; 6; 10; 15; 21].

Definition state : Type := Z * Z * Z * Z.

Definition init : state :=
  (0x67452301, 0xefcdab89, 0x98badcfe, 0x10325476).

Definition bytes_of_string (s : string) : list Z :=
  (λ c, Z.of_N (Ascii.N_of_ascii c)) <$> String.list_ascii_of_string s.

(** little-endian bytes of the low [n] bytes of [x] *)
Fixpoint le_bytes (n : nat) (x : Z) : list Z :=
  match n with
  | O => []
  | Datatypes.S n' => Z.land x 0xff :: le_bytes n' (Z.shiftr x 8)
  end.

Fixpoint le_word (bytes : list Z) : Z :=
  match bytes with
  | [] => 0
  | b :: rest => Z.lor b (Z.shiftl (le_word rest) 8)
  end.

Definition pad (msg : list Z) : list Z :=
  let n := Z.of_nat (length msg) in
  msg ++ [0x80] ++ replicate (Z.to_nat ((55 - n) mod 64)) 0
      ++ le_bytes 8 (8 * n).

Fixpoint chunks (fuel : nat) (k : nat) (l : list Z) : list (list Z) :=
  match fuel, l with
  | O, _ | _, [] => []
  | Datatypes.S fuel', _ => take k l :: chunks fuel' k (drop k l)
  end.

Definition words (block : list Z) : list Z :=
  le_word <$> chunks 16 4 block.

Definition round (M : list Z) (st : state) (i : Z) : state :=
  let '(a, b, c, d) := st in
  let '(f, g) :=
    if i <? 16 then (Z.lor (Z.land b c) (Z.land (not32 b) d), i)
    else if i <? 32 then (Z.lor (Z.land d b) (Z.land (not32 d) c), (5 * i + 1) mod 16)
    else if i <? 48 then (Z.lxor (Z.lxor b c) d, (3 * i + 5) mod 16)
    else (Z.lxor c (Z.lor b (not32 d)), (7 * i) mod 16) in
  let f' := wrap32 (f + a + nth (Z.to_nat i) K 0 + nth (Z.to_nat g) M 0) in
  (d, wrap32 (b + rotl32 f' (nth (Z.to_nat i) S 0)), b, c).

Definition compress (st : state) (block : list Z) : state :=
  let '(a0, b0, c0, d0) := st in
  let '(a, b, c, d) := foldl (round (words block)) st (seqZ 0 64) in
  (wrap32 (a0 + a), wrap32 (b0 + b), wrap32 (c0 + c), wrap32 (d0 + d)).

Definition digest (msg : list Z) : list Z :=
  let padded := pad msg in
  let '(a, b, c, d) := foldl compress init (chunks (length padded) 64 padded) in
  le_bytes 4 a ++ le_bytes 4 b ++ le_bytes 4 c ++ le_bytes 4 d.

Definition hexdigit (n : Z) : Ascii.ascii :=
  Ascii.ascii_of_N (Z.to_N (if n <? 10 then 48 + n else 87 + n)).

Definition hexbyte (b : Z) (rest : string) : string :=
  String (hexdigit (Z.shiftr b 4)) (String (hexdigit (Z.land b 0xf)) rest).

(** [hashlib.md5(s.encode('utf-8')).hexdigest()] for [s] in ASCII *)
Definition md5_hexdigest (s : string) : string :=
  foldr hexbyte EmptyString (digest (bytes_of_string s)).

End hashlib.

(** ** [json.dumps(..., sort_keys=True)] *)

Module json.

#[warnings="-register-all"]
Inductive value :=
| Str (s : string)
| Num (text : string)
| Arr (items : list value)
| Obj (members : list (string * value)).

Definition chr := py.chr.

Definition hex4 (n : Z) : string :=
  "00" +:+ hashlib.hexbyte n EmptyString.

(** One character of a string literal, with [ensure_ascii] left at its default. *)
Definition escape_char (c : Ascii.ascii) : string :=
  let n := Ascii.nat_of_ascii c in
  if decide (n = 34) then chr 92 +:+ chr 34
  else if decide (n = 92) then chr 92 +:+ chr 92
  else if decide (n = 10) then chr 92 +:+ "n"
  else if decide (n = 13) then chr 92 +:+ "r"
  else if decide (n = 9) then chr 92 +:+ "t"
  else if decide (n = 8) then chr 92 +:+ "b"
  else if decide (n = 12) then chr 92 +:+ "f"
  else if decide (32 ≤ n ≤ 126) then String c EmptyString
  else chr 92 +:+ "u" +:+ hex4 (Z.of_nat n).

Fixpoint escape (s : string) : string :=
  match s with
  | EmptyString => EmptyString
  | String c s' => escape_char c +:+ escape s'
  end.

Definition quote (s : string) : string := chr 34 +:+ escape s +:+ chr 34.

(** Members in ascending key order, as [sort_keys=True] emits them. *)
Fixpoint insert_member (m : string * string) (l : list (string * string))
  : list (string * string) :=
  match l with
  | [] => [m]
  | x :: rest =>
      if String.leb m.1 x.1 then m :: l else x :: insert_member m rest
  end.

Fixpoint dumps (v : value) : string :=
  match v with
  | Str s => quote s
  | Num text => text
  | Arr items => "[" +:+ py.join ", " (map dumps items) +:+ "]"
  | Obj members =>
      let rendered := map (λ kv, let '(k, x) := kv in (k, dumps x)) members in
      "{" +:+ py.join ", "
                ((λ kv, quote kv.1 +:+ ": " +:+ kv.2)
                   <$> foldr insert_member [] rendered)
          +:+ "}"
  end.

End json.

(** ** Data model *)

(** A Python reference to a document object.  Two references are the same
    object exactly when they are equal; two objects may carry the same
    [Name] (names are unique within one document only). *)
Definition ref := nat.

(** What [getattr(obj, prop)] hands to [get_feature_data], told apart the way
    the macro probes it: something with [x], [y] and [z]; a
    [FreeCAD.Placement]; something with a [CenterOfMass]; anything else.
    Numbers are carried as their JSON text, and every value knows its
    [str(...)]. *)
Inductive PyValue :=
| Vector (x y z : string)
| Placement (base : string * string * string) (rotation : string)
| Shape (center_of_mass : string * string * string)
        (bound_box : string * string * string * string)
        (volume : option string) (str : string)
| Other (str : string).

Record DocumentObject := {
  Name : string;
  Label : string;
  TypeId : string;
  PropertiesList : list string;
  properties : gmap string PyValue;  (* a property missing here raises on read *)
  TimeStamp : option Z;              (* [None]: the attribute does not exist *)
  OutList : list ref;
  FeatureHash : option string;
  FeatureHistory : option (list string)
}.

Definition set_FeatureHash (v : option string) (o : DocumentObject) :=
  {| Name := Name o; Label := Label o; TypeId := TypeId o;
     PropertiesList := PropertiesList o; properties := properties o;
     TimeStamp := TimeStamp o; OutList := OutList o;
     FeatureHash := v; FeatureHistory := FeatureHistory o |}.

Definition set_FeatureHistory (v : option (list string)) (o : DocumentObject) :=
  {| Name := Name o; Label := Label o; TypeId := TypeId o;
     PropertiesList := PropertiesList o; properties := properties o;
     TimeStamp := TimeStamp o; OutList := OutList o;
     FeatureHash := FeatureHash o; FeatureHistory := v |}.

Definition set_PropertiesList (v : list string) (o : DocumentObject) :=
  {| Name := Name o; Label := Label o; TypeId := TypeId o;
     PropertiesList := v; properties := properties o;
     TimeStamp := TimeStamp o; OutList := OutList o;
     FeatureHash := FeatureHash o; FeatureHistory := FeatureHistory o |}.

(** [config] *)
Record Config := {
  history_length : Z;
  recompute_delay : Z;
  dependency_depth : Z;
  batch_size : Z;
  edit_check_interval : Z;
  throttle_interval : Z
}.

Definition default_config : Config :=
  {| history_length := 5; recompute_delay := 300; dependency_depth := 3;
     batch_size := 50; edit_check_interval := 200; throttle_interval := 100 |}.

(** The two functions handed to [QtCore.QTimer.singleShot]. *)
Inductive callback := CheckEditCompletion | CheckTaskCompletion.

(** The module-level variables of the macro, the three observer instances
    and the part of the host they work on. *)
Record World := {
  heap : ref → DocumentObject;  (* the object behind every reference *)
  ActiveDocument : bool;  (* [FreeCAD.ActiveDocument] is set *)
  console : list string;  (* [FreeCAD.Console], oldest message first *)
  observer_active : bool;
  recompute_queue : list ref;  (* a [set()], kept duplicate-free *)
  recompute_timer : option Z;  (* deadline of the armed single-shot timer *)
  changed_properties : gmap string (list string);  (* a [defaultdict(list)] *)
  feature_cache : gmap string (Z * string);  (* name to (time, hash) *)
  dependency_cache : gmap string ();  (* only ever deleted from *)
  pending_output : bool;
  task_panel_active : bool;
  changes_during_task : bool;
  edit_mode_active : bool;
  doc_active : bool;  (* [document_observer.active] *)
  last_change_time : Z;  (* [document_observer.last_change_time] *)
  throttle_queue : list (string * (ref * list string));  (* [document_observer.throttle_queue] *)
  throttle_timer : option Z;  (* deadline of [document_observer.throttle_timer] *)
  edit_active : bool;  (* [edit_mode_observer.active] *)
  in_edit_last : bool;  (* [edit_mode_observer.in_edit_last] *)
  task_active : bool;  (* [task_panel_observer.active] *)
  detected_panels : list string;  (* [task_panel_observer.detected_panels] *)
  single_shots : list (Z * callback)  (* pending [QTimer.singleShot] calls *)
}.

(** Assignment to one module-level variable. *)

Definition set_heap (v : ref → DocumentObject) (w : World) : World :=
  Build_World v (ActiveDocument w) (console w) (observer_active w)
    (recompute_queue w) (recompute_timer w) (changed_properties w)
    (feature_cache w) (dependency_cache w) (pending_output w)
    (task_panel_active w) (changes_during_task w) (edit_mode_active w)
    (doc_active w) (last_change_time w) (throttle_queue w)
    (throttle_timer w) (edit_active w) (in_edit_last w) (task_active w)
    (detected_panels w) (single_shots w).

Definition set_ActiveDocument (v : bool) (w : World) : World :=
  Build_World (heap w) v (console w) (observer_active w)
    (recompute_queue w) (recompute_timer w) (changed_properties w)
    (feature_cache w) (dependency_cache w) (pending_output w)
    (task_panel_active w) (changes_during_task w) (edit_mode_active w)
    (doc_active w) (last_change_time w) (throttle_queue w)
    (throttle_timer w) (edit_active w) (in_edit_last w) (task_active w)
    (detected_panels w) (single_shots w).

Definition set_console (v : list string) (w : World) : World :=
  Build_World (heap w) (ActiveDocument w) v (observer_active w)
    (recompute_queue w) (recompute_timer w) (changed_properties w)
    (feature_cache w) (dependency_cache w) (pending_output w)
    (task_panel_active w) (changes_during_task w) (edit_mode_active w)
    (doc_active w) (last_change_time w) (throttle_queue w)
    (throttle_timer w) (edit_active w) (in_edit_last w) (task_active w)
    (detected_panels w) (single_shots w).

Definition set_observer_active (v : bool) (w : World) : World :=
  Build_World (heap w) (ActiveDocument w) (console w) v
    (recompute_queue w) (recompute_timer w) (changed_properties w)
    (feature_cache w) (dependency_cache w) (pending_output w)
    (task_panel_active w) (changes_during_task w) (edit_mode_active w)
    (doc_active w) (last_change_time w) (throttle_queue w)
    (throttle_timer w) (edit_active w) (in_edit_last w) (task_active w)
    (detected_panels w) (single_shots w).

Definition set_recompute_queue (v : list ref) (w : World) : World :=
  Build_World (heap w) (ActiveDocument w) (console w) (observer_active w)
    v (recompute_timer w) (changed_properties w) (feature_cache w)
    (dependency_cache w) (pending_output w) (task_panel_active w)
    (changes_during_task w) (edit_mode_active w) (doc_active w)
    (last_change_time w) (throttle_queue w) (throttle_timer w)
    (edit_active w) (in_edit_last w) (task_active w) (detected_panels w)
    (single_shots w).

Definition set_recompute_timer (v : option Z) (w : World) : World :=
  Build_World (heap w) (ActiveDocument w) (console w) (observer_active w)
    (recompute_queue w) v (changed_properties w) (feature_cache w)
    (dependency_cache w) (pending_output w) (task_panel_active w)
    (changes_during_task w) (edit_mode_active w) (doc_active w)
    (last_change_time w) (throttle_queue w) (throttle_timer w)
    (edit_active w) (in_edit_last w) (task_active w) (detected_panels w)
    (single_shots w).

Definition set_changed_properties (v : gmap string (list string)) (w : World) : World :=
  Build_World (heap w) (ActiveDocument w) (console w) (observer_active w)
    (recompute_queue w) (recompute_timer w) v (feature_cache w)
    (dependency_cache w) (pending_output w) (task_panel_active w)
    (changes_during_task w) (edit_mode_active w) (doc_active w)
    (last_change_time w) (throttle_queue w) (throttle_timer w)
    (edit_active w) (in_edit_last w) (task_active w) (detected_panels w)
    (single_shots w).

Definition set_feature_cache (v : gmap string (Z * string)) (w : World) : World :=
  Build_World (heap w) (ActiveDocument w) (console w) (observer_active w)
    (recompute_queue w) (recompute_timer w) (changed_properties w) v
    (dependency_cache w) (pending_output w) (task_panel_active w)
    (changes_during_task w) (edit_mode_active w) (doc_active w)
    (last_change_time w) (throttle_queue w) (throttle_timer w)
    (edit_active w) (in_edit_last w) (task_active w) (detected_panels w)
    (single_shots w).

Definition set_dependency_cache (v : gmap string ()) (w : World) : World :=
  Build_World (heap w) (ActiveDocument w) (console w) (observer_active w)
    (recompute_queue w) (recompute_timer w) (changed_properties w)
    (feature_cache w) v (pending_output w) (task_panel_active w)
    (changes_during_task w) (edit_mode_active w) (doc_active w)
    (last_change_time w) (throttle_queue w) (throttle_timer w)
    (edit_active w) (in_edit_last w) (task_active w) (detected_panels w)
    (single_shots w).

Definition set_pending_output (v : bool) (w : World) : World :=
  Build_World (heap w) (ActiveDocument w) (console w) (observer_active w)
    (recompute_queue w) (recompute_timer w) (changed_properties w)
    (feature_cache w) (dependency_cache w) v (task_panel_active w)
    (changes_during_task w) (edit_mode_active w) (doc_active w)
    (last_change_time w) (throttle_queue w) (throttle_timer w)
    (edit_active w) (in_edit_last w) (task_active w) (detected_panels w)
    (single_shots w).

Definition set_task_panel_active (v : bool) (w : World) : World :=
  Build_World (heap w) (ActiveDocument w) (console w) (observer_active w)
    (recompute_queue w) (recompute_timer w) (changed_properties w)
    (feature_cache w) (dependency_cache w) (pending_output w) v
    (changes_during_task w) (edit_mode_active w) (doc_active w)
    (last_change_time w) (throttle_queue w) (throttle_timer w)
    (edit_active w) (in_edit_last w) (task_active w) (detected_panels w)
    (single_shots w).

Definition set_changes_during_task (v : bool) (w : World) : World :=
  Build_World (heap w) (ActiveDocument w) (console w) (observer_active w)
    (recompute_queue w) (recompute_timer w) (changed_properties w)
    (feature_cache w) (dependency_cache w) (pending_output w)
    (task_panel_active w) v (edit_mode_active w) (doc_active w)
    (last_change_time w) (throttle_queue w) (throttle_timer w)
    (edit_active w) (in_edit_last w) (task_active w) (detected_panels w)
    (single_shots w).

Definition set_edit_mode_active (v : bool) (w : World) : World :=
  Build_World (heap w) (ActiveDocument w) (console w) (observer_active w)
    (recompute_queue w) (recompute_timer w) (changed_properties w)
    (feature_cache w) (dependency_cache w) (pending_output w)
    (task_panel_active w) (changes_during_task w) v (doc_active w)
    (last_change_time w) (throttle_queue w) (throttle_timer w)
    (edit_active w) (in_edit_last w) (task_active w) (detected_panels w)
    (single_shots w).

Definition set_doc_active (v : bool) (w : World) : World :=
  Build_World (heap w) (ActiveDocument w) (console w) (observer_active w)
    (recompute_queue w) (recompute_timer w) (changed_properties w)
    (feature_cache w) (dependency_cache w) (pending_output w)
    (task_panel_active w) (changes_during_task w) (edit_mode_active w) v
    (last_change_time w) (throttle_queue w) (throttle_timer w)
    (edit_active w) (in_edit_last w) (task_active w) (detected_panels w)
    (single_shots w).

Definition set_last_change_time (v : Z) (w : World) : World :=
  Build_World (heap w) (ActiveDocument w) (console w) (observer_active w)
    (recompute_queue w) (recompute_timer w) (changed_properties w)
    (feature_cache w) (dependency_cache w) (pending_output w)
    (task_panel_active w) (changes_during_task w) (edit_mode_active w)
    (doc_active w) v (throttle_queue w) (throttle_timer w) (edit_active w)
    (in_edit_last w) (task_active w) (detected_panels w) (single_shots w).

Definition set_throttle_queue (v : list (string * (ref * list string))) (w : World) : World :=
  Build_World (heap w) (ActiveDocument w) (console w) (observer_active w)
    (recompute_queue w) (recompute_timer w) (changed_properties w)
    (feature_cache w) (dependency_cache w) (pending_output w)
    (task_panel_active w) (changes_during_task w) (edit_mode_active w)
    (doc_active w) (last_change_time w) v (throttle_timer w) (edit_active w)
    (in_edit_last w) (task_active w) (detected_panels w) (single_shots w).

Definition set_throttle_timer (v : option Z) (w : World) : World :=
  Build_World (heap w) (ActiveDocument w) (console w) (observer_active w)
    (recompute_queue w) (recompute_timer w) (changed_properties w)
    (feature_cache w) (dependency_cache w) (pending_output w)
    (task_panel_active w) (changes_during_task w) (edit_mode_active w)
    (doc_active w) (last_change_time w) (throttle_queue w) v (edit_active w)
    (in_edit_last w) (task_active w) (detected_panels w) (single_shots w).

Definition set_edit_active (v : bool) (w : World) : World :=
  Build_World (heap w) (ActiveDocument w) (console w) (observer_active w)
    (recompute_queue w) (recompute_timer w) (changed_properties w)
    (feature_cache w) (dependency_cache w) (pending_output w)
    (task_panel_active w) (changes_during_task w) (edit_mode_active w)
    (doc_active w) (last_change_time w) (throttle_queue w)
    (throttle_timer w) v (in_edit_last w) (task_active w)
    (detected_panels w) (single_shots w).

Definition set_in_edit_last (v : bool) (w : World) : World :=
  Build_World (heap w) (ActiveDocument w) (console w) (observer_active w)
    (recompute_queue w) (recompute_timer w) (changed_properties w)
    (feature_cache w) (dependency_cache w) (pending_output w)
    (task_panel_active w) (changes_during_task w) (edit_mode_active w)
    (doc_active w) (last_change_time w) (throttle_queue w)
    (throttle_timer w) (edit_active w) v (task_active w) (detected_panels w)
    (single_shots w).

Definition set_task_active (v : bool) (w : World) : World :=
  Build_World (heap w) (ActiveDocument w) (console w) (observer_active w)
    (recompute_queue w) (recompute_timer w) (changed_properties w)
    (feature_cache w) (dependency_cache w) (pending_output w)
    (task_panel_active w) (changes_during_task w) (edit_mode_active w)
    (doc_active w) (last_change_time w) (throttle_queue w)
    (throttle_timer w) (edit_active w) (in_edit_last w) v
    (detected_panels w) (single_shots w).

Definition set_detected_panels (v : list string) (w : World) : World :=
  Build_World (heap w) (ActiveDocument w) (console w) (observer_active w)
    (recompute_queue w) (recompute_timer w) (changed_properties w)
    (feature_cache w) (dependency_cache w) (pending_output w)
    (task_panel_active w) (changes_during_task w) (edit_mode_active w)
    (doc_active w) (last_change_time w) (throttle_queue w)
    (throttle_timer w) (edit_active w) (in_edit_last w) (task_active w) v
    (single_shots w).

Definition set_single_shots (v : list (Z * callback)) (w : World) : World :=
  Build_World (heap w) (ActiveDocument w) (console w) (observer_active w)
    (recompute_queue w) (recompute_timer w) (changed_properties w)
    (feature_cache w) (dependency_cache w) (pending_output w)
    (task_panel_active w) (changes_during_task w) (edit_mode_active w)
    (doc_active w) (last_change_time w) (throttle_queue w)
    (throttle_timer w) (edit_active w) (in_edit_last w) (task_active w)
    (detected_panels w) v.

(** ** Calls into the host

    A handler of the macro runs at one reading of the host: the clock, and the
    host calls that raise at this moment. *)

Inductive host_call :=
| get_TypeId
| get_Label
| get_PropertiesList
| compare_TimeStamp
| addProperty_FeatureHistory
| addProperty_FeatureHash.

Record Reading := {
  time_time : Z;                               (* [time.time()] *)
  time_strftime : string;                      (* [time.strftime("%Y-%m-%d %H:%M:%S")] *)
  fault : ref → host_call → option string      (* [Some msg]: the call raises [Exception(msg)] *)
}.

(** A statement of the macro: it changes the world and returns or raises. *)
Inductive outcome (A : Type) :=
| Return (a : A)
| Raise (msg : string).
Arguments Return {A} a.
Arguments Raise {A} msg.

Definition M (A : Type) : Type := World → outcome A * World.

#[global] Instance M_ret : MRet M := λ A a w, (Return a, w).

#[global] Instance M_bind : MBind M := λ A B k m w,
  match m w with
  | (Return a, w') => k a w'
  | (Raise msg, w') => (Raise msg, w')
  end.

Definition gets {A} (f : World → A) : M A := λ w, (Return (f w), w).

Definition modify (f : World → World) : M () := λ w, (Return (), f w).

Definition nl : string := py.chr 10.

(** [FreeCAD.Console.PrintMessage], [PrintWarning] and [PrintError] *)
Definition PrintMessage (msg : string) (w : World) : World :=
  set_console (console w ++ [msg]) w.

(** [obj.attr = ...] and [obj.addProperty(...)]: a change of the object that
    every holder of the reference sees. *)
Definition update_object (obj : ref) (f : DocumentObject → DocumentObject)
    (w : World) : World :=
  set_heap (λ r, if decide (r = obj) then f (heap w r) else heap w r) w.

(** ** Tables of the macro *)

Definition important_props : list (string * list string) :=
  [ ("Part::Feature", ["Placement"; "Length"; "Width"; "Height"]);
    ("Part::Box", ["Length"; "Width"; "Height"; "Placement"]);
    ("Part::Cylinder", ["Radius"; "Height"; "Placement"; "Angle"]);
    ("Sketcher::SketchObject", ["Geometry"; "Constraints"; "ExternalGeometry"]);
    ("PartDesign::Pad", ["Length"; "Direction"; "Type"; "Reversed"; "Midplane"; "Offset"; "Shape"]);
    ("PartDesign::Pocket", ["Length"; "Direction"; "Type"; "Reversed"; "Midplane"; "Offset"; "Shape"]);
    ("PartDesign::Revolution", ["Angle"; "Axis"; "Base"; "Midplane"; "Reversed"; "Shape"]);
    ("PartDesign::AdditiveLoft", ["Sections"; "Ruled"; "Closed"; "Shape"]);
    ("PartDesign::SubtractiveLoft", ["Sections"; "Ruled"; "Closed"; "Shape"]);
    ("PartDesign::Fillet", ["Radius"; "Base"; "FilletType"; "Shape"]);
    ("PartDesign::Chamfer", ["Size"; "Angle"; "Base"; "Shape"]);
    ("PartDesign::Mirrored", ["MirrorPlane"; "Originals"; "Shape"]);
    ("PartDesign::LinearPattern", ["Direction"; "Occurrences"; "Length"; "Reversed"; "Shape"]);
    ("PartDesign::PolarPattern", ["Axis"; "Occurrences"; "Angle"; "Reversed"; "Shape"]);
    ("PartDesign::Groove", ["Angle"; "Axis"; "Base"; "Reversed"; "Midplane"; "Shape"]);
    ("Part::Thickness", ["Value"; "Mode"; "Join"; "Shape"]);
    ("Part::Helix", ["Pitch"; "Height"; "Radius"; "Angle"; "Growth"; "Shape"]);
    ("Part::Cut", ["Base"; "Tool"; "Shape"]);
    ("Part::Fuse", ["Base"; "Tool"; "Shape"]);
    ("Part::Common", ["Base"; "Tool"; "Shape"]);
    ("Part::MultiCut", ["Shapes"; "Shape"]);
    ("Part::Compound", ["Links"; "Shape"]);
    ("Part::Offset", ["Value"; "Mode"; "Join"; "Shape"]);
    ("Part::Offset2D", ["Value"; "Join"; "Fill"; "Shape"]);
    ("Part::Loft", ["Sections"; "Solid"; "Ruled"; "Closed"; "Shape"]);
    ("Part::Sweep", ["Spine"; "Profiles"; "Solid"; "Frenet"; "Shape"]) ].

Definition general_props : list string := ["Label"; "Placement"; "Shape"].

(** [document_observer.ignored_props] *)
Definition ignored_props : list string :=
  [ "FeatureHash"; "FeatureHistory"; "_GroupTouched";
    "Visibility"; "FullyConstrained";
    "EditModes"; "EditMode"; "EditCurves"; "EditHighlight"; "HiddenLines" ].

(** [d.get(key, default)] on a dict literal *)
Fixpoint dict_get {V} (d : list (string * V)) (key : string) (default : V) : V :=
  match d with
  | [] => default
  | (k, v) :: rest => if decide (k = key) then v else dict_get rest key default
  end.

(** ** Fingerprint engine *)

Record FeatureData := {
  data_Type : string;
  data_Label : string;
  data_Parameters : list (string * json.value)
}.

Definition triple (t : string * string * string) : json.value :=
  let '(x, y, z) := t in json.Arr [json.Num x; json.Num y; json.Num z].

(** The [if]/[elif] chain of [get_feature_data] on one property value. *)
Definition normalize (prop : string) (value : PyValue) : json.value :=
  match value with
  | Vector x y z => triple (x, y, z)
  | Placement base rotation =>
      json.Obj [("Base", triple base); ("Rotation", json.Str rotation)]
  | Shape center_of_mass (diagonal, xlength, ylength, zlength) volume str =>
      if decide (prop = "Shape")
      then json.Obj
             [ ("CenterOfMass", triple center_of_mass);
               ("BoundBox", json.Arr [json.Num diagonal; json.Num xlength;
                                      json.Num ylength; json.Num zlength]);
               ("Volume", json.Num (default "0" volume)) ]
      else json.Str str
  | Other str => json.Str str
  end.

(** [calculate_hash] *)
Definition calculate_hash (data : FeatureData) : string :=
  let reduced_data :=
    json.Obj [ ("Type", json.Str (data_Type data));
               ("Parameters", json.Obj (data_Parameters data)) ] in
  let json_str := json.dumps reduced_data in
  hashlib.md5_hexdigest json_str.

(** The loop of [get_feature_data] over [relevant_props]: a property whose
    read or normalisation raises is left out. *)
Definition collect_parameters (o : DocumentObject) (relevant_props : list string)
  : list (string * json.value) :=
  foldl (λ parameters prop,
           if bool_decide (prop ∈ ["FeatureHash"; "FeatureHistory"])
           then parameters
           else match properties o !! prop with
                | Some value => parameters ++ [(prop, normalize prop value)]
                | None => parameters
                end)
        [] relevant_props.

Section Macro.

Variable config : Config.
Variable host : Reading.

(** Reading an attribute the macro expects to exist. *)
Definition getattr {A} (obj : ref) (call : host_call)
    (field : DocumentObject → A) : M A := λ w,
  match fault host obj call with
  | Some msg => (Raise msg, w)
  | None => (Return (field (heap w obj)), w)
  end.

(** [obj.addProperty(type, name, group, doc)] *)
Definition addProperty (obj : ref) (call : host_call) (name : string)
    (init : DocumentObject → DocumentObject) : M () := λ w,
  match fault host obj call with
  | Some msg => (Raise msg, w)
  | None =>
      (Return (),
       update_object obj
         (λ o, set_PropertiesList (PropertiesList o ++ [name]) (init o)) w)
  end.

(** [get_feature_data] *)
Definition get_feature_data (obj : ref) : M FeatureData :=
  type_id ← getattr obj get_TypeId TypeId;
  label ← getattr obj get_Label Label;
  type_props ← mret (dict_get important_props type_id [] ++ general_props);
  properties_list ← getattr obj get_PropertiesList PropertiesList;
  relevant_props ← mret (filter (λ p, p ∈ properties_list) (remove_dups type_props));
  o ← gets (λ w, heap w obj);
  mret {| data_Type := type_id;
          data_Label := label;
          data_Parameters := collect_parameters o relevant_props |}.

(** [process_feature], block by block.  "Cache-Ueberpruefung": [true] stands
    for the early [return False]. *)
Definition cache_check (obj : ref) (obj_id : string) : M bool :=
  cached ← gets (λ w, feature_cache w !! obj_id);
  match cached with
  | Some (cache_time, cache_hash) =>
      last_modified ← getattr obj compare_TimeStamp (λ o, default 0%Z (TimeStamp o));
      mret (bool_decide (last_modified ≤ cache_time)%Z)
  | None => mret false
  end.

(** "Properties erstellen falls noetig" *)
Definition create_properties (obj : ref) : M () :=
  has_history ← gets (λ w, bool_decide (is_Some (FeatureHistory (heap w obj))));
  (if has_history : bool then mret ()
   else addProperty obj addProperty_FeatureHistory "FeatureHistory"
          (set_FeatureHistory (Some [])));;
  has_hash ← gets (λ w, bool_decide (is_Some (FeatureHash (heap w obj))));
  if has_hash : bool then mret ()
  else addProperty obj addProperty_FeatureHash "FeatureHash"
         (set_FeatureHash (Some "")).

(** "History aktualisieren": [history] is the list stored on the object, so
    the assignment to its last item changes the stored list. *)
Definition update_history (obj : ref) (feature_hash : string) : M () :=
  history ← gets (λ w, default [] (FeatureHistory (heap w obj)));
  timestamp ← mret (time_strftime host);
  history_entry ← mret (timestamp +:+ ": " +:+ feature_hash);
  match last history with
  | Some newest =>
      if py.endswith newest feature_hash
      then modify (update_object obj
                     (set_FeatureHistory (Some (py.set_last history_entry history))))
      else modify (update_object obj
                     (set_FeatureHistory
                        (Some (py.slice_from (- history_length config)
                                 (history ++ [history_entry])))))
  | None =>
      modify (update_object obj
                (set_FeatureHistory
                   (Some (py.slice_from (- history_length config)
                            (history ++ [history_entry])))))
  end.

(** "Nur aktualisieren wenn noetig" *)
Definition update_if_needed (obj : ref) (obj_id feature_hash : string) : M bool :=
  stored ← gets (λ w, FeatureHash (heap w obj));
  if bool_decide (stored ≠ Some feature_hash) then
    update_history obj feature_hash;;
    modify (update_object obj (set_FeatureHash (Some feature_hash)));;
    modify (λ w, set_feature_cache
                   (<[obj_id := (time_time host, feature_hash)]> (feature_cache w)) w);;
    modify (λ w, set_dependency_cache (delete obj_id (dependency_cache w)) w);;
    mret true
  else
    modify (λ w, set_feature_cache
                   (<[obj_id := (time_time host, feature_hash)]> (feature_cache w)) w);;
    mret false.

(** The body of the [try]. *)
Definition process_feature_try (obj : ref) : M bool :=
  obj_id ← gets (λ w, Name (heap w obj));
  unchanged ← cache_check obj obj_id;
  if unchanged : bool then mret false else
  feature_data ← get_feature_data obj;
  feature_hash ← mret (calculate_hash feature_data);
  create_properties obj;;
  update_if_needed obj obj_id feature_hash.

(** [process_feature]: the [try] with its [except Exception] handler. *)
Definition process_feature (obj : ref) (w : World) : bool * World :=
  match process_feature_try obj w with
  | (Return changed, w') => (changed, w')
  | (Raise msg, w') =>
      (false, PrintMessage ("Fehler bei " +:+ Name (heap w' obj) +:+ ": " +:+ msg +:+ nl) w')
  end.

End Macro.

(** ** Dependency grapher *)

(** The dict [graph] built by the first loop of [sort_by_dependencies]. *)
Definition dependency_graph (w : World) (objects : list ref)
  : gmap string (list string) :=
  foldl (λ graph obj,
           <[Name (heap w obj) :=
               (λ child, Name (heap w child))
                 <$> filter (λ child, child ∈ objects) (OutList (heap w obj))]> graph)
        ∅ objects.

(** The nested function [visit]; [visited] and [result] are the two variables
    it shares with [sort_by_dependencies].  [None]: more than [fuel] nested
    calls. *)
Fixpoint visit (fuel : nat) (w : World) (objects : list ref)
    (graph : gmap string (list string)) (node_name : string)
    (st : gset string * list ref) : option (gset string * list ref) :=
  match fuel with
  | O => None
  | S fuel' =>
      let '(visited, result) := st in
      if decide (node_name ∈ visited) then Some st
      else
        st' ← foldl (λ acc child, acc ≫= visit fuel' w objects graph child)
                    (Some ({[node_name]} ∪ visited, result))
                    (default [] (graph !! node_name));
        let '(visited', result') := st' in
        Some (visited',
              result' ++ option_list
                           (List.find (λ obj, bool_decide (Name (heap w obj) = node_name))
                                      objects))
  end.

(** [sort_by_dependencies]; a chain of nested [visit] calls is never longer
    than the input plus one. *)
Definition sort_by_dependencies (w : World) (objects : list ref)
  : option (list ref) :=
  let graph := dependency_graph w objects in
  snd <$> foldl (λ acc obj,
                   acc ≫= visit (S (length objects)) w objects graph (Name (heap w obj)))
                (Some (∅, [])) objects.

Section Propagation.

Variable config : Config.
Variable host : Reading.

(** How many nested calls the interpreter allows when nothing else bounds the
    recursion. *)
Variable recursion_limit : nat.

(** [process_with_depth_limit]; [processed] is the set the calls share.
    [None]: more than [fuel] nested calls. *)
Fixpoint process_with_depth_limit (fuel : nat) (obj : ref) (depth : Z)
    (st : gset string * World) : option (gset string * World) :=
  match fuel with
  | O => None
  | S fuel' =>
      let '(processed, w) := st in
      if decide (Name (heap w obj) ∈ processed) then Some st
      else
        let processed := {[Name (heap w obj)]} ∪ processed in
        let w := (process_feature config host obj w).2 in
        if decide (depth = 1)%Z then Some (processed, w)
        else
          let next_depth := if decide (0 < depth)%Z then (depth - 1)%Z else 0%Z in
          foldl (λ acc child,
                   acc ≫= process_with_depth_limit fuel' child next_depth)
                (Some (processed, w)) (OutList (heap w obj))
  end.

(** [process_affected_features].  A positive depth bounds the recursion by
    itself. *)
Definition process_affected_features (obj : ref) (w : World) : option World :=
  if ActiveDocument w
  then
    let depth := dependency_depth config in
    let fuel := if decide (0 < depth)%Z then Z.to_nat depth else recursion_limit in
    snd <$> process_with_depth_limit fuel obj depth (∅, w)
  else Some w.

End Propagation.

(** ** Observers and scheduling *)

(** What [EditModeObserver.check_edit_mode] finds when it probes the GUI. *)
Record Gui := {
  gui_raises : bool;                          (* some call of the probe raises *)
  gui_ActiveDocument : bool;                  (* [FreeCADGui.ActiveDocument] is set *)
  gui_getInEdit : bool;                       (* [getInEdit()] is not [None] *)
  gui_activeWorkbench : option string;        (* class name of the active workbench *)
  gui_TaskPanel_children : option (list string)
    (* [objectName()] of the children of the main window's "TaskPanel" *)
}.

(** A [QEvent] delivered to [TaskPanelObserver.eventFilter]; the argument is
    the child's [objectName()], [None] when the child is no [QWidget]. *)
Inductive QEvent :=
| ChildAdded (child : option string)
| ChildRemoved (child : option string)
| OtherEvent.

(** Umlauts of the macro's messages. *)
Definition AE : string := py.chr 196.
Definition ae : string := py.chr 228.
Definition oe : string := py.chr 246.

(** [changed_properties[label]]: reading a [defaultdict] creates the entry. *)
Definition defaultdict_get (d : gmap string (list string)) (key : string)
  : list string := default [] (d !! key).

(** [if prop not in changed_properties[label]:
       changed_properties[label].append(prop)] *)
Definition append_new (label prop : string) (w : World) : World :=
  let l := defaultdict_get (changed_properties w) label in
  set_changed_properties
    (<[label := if py.contains prop l then l else l ++ [prop]]> (changed_properties w)) w.

Section Observers.

Variable config : Config.
Variable host : Reading.
Variable recursion_limit : nat.

Definition suspended (w : World) : bool :=
  edit_mode_active w || task_panel_active w.

(** [start_recompute_timer] *)
Definition start_recompute_timer (w : World) : World :=
  if suspended w then w
  else set_recompute_timer (Some (time_time host + recompute_delay config)%Z) w.

(** [print_changes] *)
Definition print_changes (w : World) : World :=
  foldl (λ w obj_label,
           let props_list := defaultdict_get (changed_properties w) obj_label in
           let props_str := py.join ", " props_list in
           PrintMessage ("-->" +:+ obj_label +:+ ": " +:+ props_str +:+ nl) w)
        w (py.sorted (map fst (map_to_list (changed_properties w)))).

(** The slices [l[i:i+batch_size]] for [i] in [range(0, len(l), batch_size)]
    with a positive [batch_size]. *)
Fixpoint batches {A} (fuel : nat) (batch_size : nat) (l : list A) : list (list A) :=
  match fuel, l with
  | O, _ | _, [] => []
  | S fuel', _ => take batch_size l :: batches fuel' batch_size (drop batch_size l)
  end.

(** The same for any [batch_size]: [range] raises [ValueError] on a step of
    0 ([None]) and is empty for a negative step. *)
Definition range_batches {A} (batch_size : Z) (l : list A) : option (list (list A)) :=
  if decide (batch_size = 0)%Z then None
  else if decide (batch_size < 0)%Z then Some []
  else Some (batches (length l) (Z.to_nat batch_size) l).

(** [on_recompute_timer].  [QCoreApplication.processEvents()] between two
    batches finds no event waiting.  [None]: an exception leaves the
    handler. *)
Definition on_recompute_timer (w : World) : option World :=
  if bool_decide (recompute_queue w = []) then Some w
  else if suspended w then Some w
  else
    let w := if pending_output w then print_changes w else w in
    let w := PrintMessage ("Verarbeite ge" +:+ ae +:+ "nderte Objekte..." +:+ nl) w in
    sorted_objects ← sort_by_dependencies w (recompute_queue w);
    all_batches ← range_batches (batch_size config) sorted_objects;
    w ← foldl (λ acc batch,
                 foldl (λ acc obj,
                          acc ≫= process_affected_features config host recursion_limit obj)
                       acc batch)
              (Some w) all_batches;
    let w := set_recompute_queue [] w in
    let w := set_changed_properties ∅ w in
    let w := set_pending_output false w in
    Some (PrintMessage ("Aktualisierung abgeschlossen!" +:+ nl) w).

(** The lines both slots and the flush share: announce once, then (re)arm. *)
Definition announce_and_schedule (w : World) : World :=
  let w := if pending_output w then w
           else PrintMessage (AE +:+ "nderung an :" +:+ nl) (set_pending_output true w) in
  start_recompute_timer w.

(** [DocumentObserver.queue_change] *)
Fixpoint throttle_queue_add (name : string) (obj : ref) (props : list string)
    (q : list (string * (ref * list string))) : list (string * (ref * list string)) :=
  match q with
  | [] => [(name, (obj, foldl (λ s p, py.set_add p s) [] props))]
  | (k, (o, s)) :: rest =>
      if decide (k = name)
      then (k, (o, foldl (λ s p, py.set_add p s) s props)) :: rest
      else (k, (o, s)) :: throttle_queue_add name obj props rest
  end.

Definition queue_change (obj : ref) (props : list string) (w : World) : World :=
  let w := set_throttle_queue
             (throttle_queue_add (Name (heap w obj)) obj props (throttle_queue w)) w in
  set_throttle_timer (Some (time_time host + throttle_interval config)%Z) w.

Definition throttled (w : World) : bool :=
  bool_decide (time_time host - last_change_time w < throttle_interval config)%Z.

(** [DocumentObserver.slotCreatedObject] *)
Definition slotCreatedObject (obj : ref) (w : World) : World :=
  if negb (doc_active w && observer_active w) then w
  else if throttled w then queue_change obj ["Neues Objekt"] w
  else
    let w := set_last_change_time (time_time host) w in
    if suspended w then
      let w := set_recompute_queue (py.set_add obj (recompute_queue w)) w in
      let w := set_changed_properties
                 (<[Label (heap w obj) := ["Neues Objekt"]]> (changed_properties w)) w in
      set_changes_during_task true w
    else
      let w := set_recompute_queue (py.set_add obj (recompute_queue w)) w in
      let w := set_changed_properties
                 (<[Label (heap w obj) := ["Neues Objekt"]]> (changed_properties w)) w in
      announce_and_schedule w.

(** [DocumentObserver.slotChangedObject] *)
Definition slotChangedObject (obj : ref) (prop : string) (w : World) : World :=
  if negb (doc_active w && observer_active w) || py.contains prop ignored_props then w
  else if throttled w then queue_change obj [prop] w
  else
    let w := set_last_change_time (time_time host) w in
    if suspended w then
      let w := set_recompute_queue (py.set_add obj (recompute_queue w)) w in
      let w := append_new (Label (heap w obj)) prop w in
      set_changes_during_task true w
    else
      let w := set_recompute_queue (py.set_add obj (recompute_queue w)) w in
      let obj_label := Label (heap w obj) in
      let w := append_new obj_label prop w in
      announce_and_schedule w.

(** One round of the loop of [process_throttled_changes]. *)
Definition flush_one (w : World) (obj_data : ref * list string) : World :=
  let '(obj, props) := obj_data in
  if suspended w then
    let w := set_recompute_queue (py.set_add obj (recompute_queue w)) w in
    let w := foldl (λ w prop, append_new (Label (heap w obj)) prop w) w props in
    set_changes_during_task true w
  else
    let w := set_recompute_queue (py.set_add obj (recompute_queue w)) w in
    let w := foldl (λ w prop, append_new (Label (heap w obj)) prop w) w props in
    announce_and_schedule w.

(** [DocumentObserver.process_throttled_changes] *)
Definition process_throttled_changes (w : World) : World :=
  let w := foldl flush_one w (map snd (throttle_queue w)) in
  let w := set_throttle_queue [] w in
  set_last_change_time (time_time host) w.

(** The probe of [check_edit_mode]: is an object being edited? *)
Definition probe_in_edit (gui : Gui) : bool :=
  if gui_ActiveDocument gui then
    if gui_getInEdit gui then true
    else
      match gui_activeWorkbench gui with
      | Some class_name =>
          if py.in_string "Sketcher" class_name then
            match gui_TaskPanel_children gui with
            | Some children =>
                existsb (λ name, py.in_string "sketch" (py.lower name)) children
            | None => false
            end
          else false
      | None => false
      end
  else false.

(** [EditModeObserver.check_edit_mode] *)
Definition check_edit_mode (gui : Gui) (w : World) : World :=
  if negb (edit_active w) then w
  else if gui_raises gui then w
  else
    let in_edit := probe_in_edit gui in
    if bool_decide (in_edit ≠ in_edit_last w) then
      let w := set_in_edit_last in_edit w in
      if in_edit then
        let w := PrintMessage ("Bearbeitungsmodus aktiviert - " +:+ AE
                                 +:+ "nderungen werden gepuffert" +:+ nl) w in
        let w := set_edit_mode_active true w in
        set_changes_during_task false w
      else
        let w := PrintMessage ("Bearbeitungsmodus beendet" +:+ nl) w in
        let w := set_edit_mode_active false w in
        set_single_shots
          (single_shots w ++ [((time_time host + 100)%Z, CheckEditCompletion)]) w
    else w.

(** [TaskPanelObserver.eventFilter] *)
Definition eventFilter (event : QEvent) (w : World) : World :=
  if negb (task_active w) then w
  else
    match event with
    | ChildAdded (Some obj_name) =>
        let is_task_panel :=
          bool_decide (obj_name = "TaskPanel")
          || py.in_string "task" (py.lower obj_name)
          || py.in_string "panel" (py.lower obj_name) in
        if is_task_panel && negb (py.contains obj_name (detected_panels w)) then
          let w := set_detected_panels (py.set_add obj_name (detected_panels w)) w in
          let w := PrintMessage ("Task Panel ge" +:+ oe +:+ "ffnet (" +:+ obj_name
                                   +:+ ") - " +:+ AE +:+ "nderungen werden gepuffert" +:+ nl) w in
          let w := set_task_panel_active true w in
          set_changes_during_task false w
        else w
    | ChildRemoved (Some obj_name) =>
        if py.contains obj_name (detected_panels w) then
          let w := set_detected_panels
                     (filter (λ n, n ≠ obj_name) (detected_panels w)) w in
          let w := PrintMessage ("Task Panel geschlossen (" +:+ obj_name +:+ ")" +:+ nl) w in
          if bool_decide (detected_panels w = []) then
            let w := set_task_panel_active false w in
            set_single_shots
              (single_shots w ++ [((time_time host + 100)%Z, CheckTaskCompletion)]) w
          else w
        else w
    | _ => w
    end.

(** [check_edit_completion] *)
Definition check_edit_completion (w : World) : World :=
  if task_panel_active w then w
  else if changes_during_task w && negb (bool_decide (recompute_queue w = [])) then
    let w := PrintMessage ("Bearbeitungsmodus mit " +:+ AE +:+ "nderungen beendet - verarbeite "
                             +:+ AE +:+ "nderungen" +:+ nl) w in
    let w := set_pending_output true w in
    let w := PrintMessage (AE +:+ "nderung an :" +:+ nl) w in
    let w := print_changes w in
    start_recompute_timer w
  else
    let w := PrintMessage ("Bearbeitungsmodus ohne " +:+ AE +:+ "nderungen beendet" +:+ nl) w in
    let w := set_recompute_queue [] w in
    set_changed_properties ∅ w.

(** [check_task_completion] *)
Definition check_task_completion (w : World) : World :=
  if edit_mode_active w then w
  else if changes_during_task w && negb (bool_decide (recompute_queue w = [])) then
    let w := PrintMessage ("Task Panel mit " +:+ AE +:+ "nderungen abgeschlossen - verarbeite "
                             +:+ AE +:+ "nderungen" +:+ nl) w in
    let w := set_pending_output true w in
    let w := PrintMessage (AE +:+ "nderung an :" +:+ nl) w in
    let w := print_changes w in
    start_recompute_timer w
  else
    let w := PrintMessage ("Task Panel ohne " +:+ AE +:+ "nderungen geschlossen" +:+ nl) w in
    let w := set_recompute_queue [] w in
    set_changed_properties ∅ w.

(** The loop of [process_all_features] over one batch; the first component
    is its counter [processed]. *)
Definition process_batch (batch : list ref) (st : nat * World) : nat * World :=
  foldl (λ st obj,
           let '(changed, w) := process_feature config host obj st.2 in
           (if changed then S st.1 else st.1, w))
        st batch.

(** ** The event loop

    What the host can deliver to the macro: the two document notifications,
    the timeout of each timer, and an event of the main window. *)
Inductive event :=
| CreatedObject (obj : ref)
| ChangedObject (obj : ref) (prop : string)
| ThrottleTimeout
| RecomputeTimeout
| EditCheckTimeout (gui : Gui)
| MainWindowEvent (e : QEvent)
| SingleShotTimeout.

Definition due (deadline : Z) : bool := bool_decide (deadline ≤ time_time host)%Z.

(** A single-shot timer fires once, and not before its interval has passed. *)
Definition deliver (e : event) (w : World) : option World :=
  match e with
  | CreatedObject obj => Some (slotCreatedObject obj w)
  | ChangedObject obj prop => Some (slotChangedObject obj prop w)
  | ThrottleTimeout =>
      match throttle_timer w with
      | Some deadline =>
          if due deadline
          then Some (process_throttled_changes (set_throttle_timer None w))
          else Some w
      | None => Some w
      end
  | RecomputeTimeout =>
      match recompute_timer w with
      | Some deadline =>
          if due deadline
          then on_recompute_timer (set_recompute_timer None w)
          else Some w
      | None => Some w
      end
  | EditCheckTimeout gui => Some (check_edit_mode gui w)
  | MainWindowEvent e => Some (eventFilter e w)
  | SingleShotTimeout =>
      match single_shots w with
      | (deadline, f) :: rest =>
          if due deadline
          then
            let w := set_single_shots rest w in
            Some match f with
                 | CheckEditCompletion => check_edit_completion w
                 | CheckTaskCompletion => check_task_completion w
                 end
          else Some w
      | [] => Some w
      end
  end.

(** The aggregations an event sends down the acceptance path: the entity and
    the property names that reach [recompute_queue] and [changed_properties]. *)
Definition accepted (e : event) (w : World) : list (ref * list string) :=
  match e with
  | CreatedObject obj =>
      if doc_active w && observer_active w && negb (throttled w)
      then [(obj, ["Neues Objekt"])] else []
  | ChangedObject obj prop =>
      if doc_active w && observer_active w && negb (py.contains prop ignored_props)
         && negb (throttled w)
      then [(obj, [prop])] else []
  | ThrottleTimeout =>
      match throttle_timer w with
      | Some deadline => if due deadline then map snd (throttle_queue w) else []
      | None => []
      end
  | _ => []
  end.

End Observers.

(** A run of the event loop: every event comes with the host's reading at its
    delivery. *)
Fixpoint run (config : Config) (recursion_limit : nat)
    (trace : list (Reading * event)) (w : World) : option World :=
  match trace with
  | [] => Some w
  | (host, e) :: rest =>
      w' ← deliver config host recursion_limit e w;
      run config recursion_limit rest w'
  end.

(** The aggregations accepted along a run, each with the suspension state it
    was accepted in. *)
Fixpoint acceptances (config : Config) (recursion_limit : nat)
    (trace : list (Reading * event)) (w : World)
  : list (bool * (ref * list string)) :=
  match trace with
  | [] => []
  | (host, e) :: rest =>
      ((λ a, (suspended w, a)) <$> accepted config host e w)
        ++ match deliver config host recursion_limit e w with
           | Some w' => acceptances config recursion_limit rest w'
           | None => []
           end
  end.

(** ** Vocabulary of the fingerprint properties *)

(** What [get_feature_data] returns when its three reads succeed. *)
Definition snapshot (o : DocumentObject) : FeatureData :=
  {| data_Type := TypeId o;
     data_Label := Label o;
     data_Parameters :=
       collect_parameters o
         (filter (λ p, p ∈ PropertiesList o)
                 (remove_dups (dict_get important_props (TypeId o) [] ++ general_props))) |}.

(** The hash [process_feature] computes for an object in its present state. *)
Definition fingerprint (o : DocumentObject) : string :=
  calculate_hash (snapshot o).

(** The cache check of [process_feature] answers "nothing to do". *)
Definition fast_path (obj : ref) (w : World) : bool :=
  match feature_cache w !! Name (heap w obj) with
  | Some (cache_time, _) =>
      bool_decide (default 0 (TimeStamp (heap w obj)) ≤ cache_time)%Z
  | None => false
  end.

Definition or_else {A} (a b : option A) : option A :=
  match a with Some x => Some x | None => b end.

(** The message of the first host call that raises in a run of
    [process_feature], following the order of the calls. *)
Definition first_fault (host : Reading) (obj : ref) (w : World) : option string :=
  let o := heap w obj in
  let at_call (reached : bool) (call : host_call) :=
    if reached then fault host obj call else None in
  or_else (at_call (bool_decide (is_Some (feature_cache w !! Name o))) compare_TimeStamp)
    (if fast_path obj w then None
     else or_else (fault host obj get_TypeId)
         (or_else (fault host obj get_Label)
         (or_else (fault host obj get_PropertiesList)
         (or_else (at_call (bool_decide (FeatureHistory o = None)) addProperty_FeatureHistory)
                  (at_call (bool_decide (FeatureHash o = None)) addProperty_FeatureHash))))).

(** [obj.FeatureHistory], the empty list while the property does not exist *)
Definition history (w : World) (obj : ref) : list string :=
  default [] (FeatureHistory (heap w obj)).

(** The hash an entry of the history records: its last 32 characters. *)
Definition recorded_hash (entry : string) : string :=
  py.string_rev (String.substring 0 32 (py.string_rev entry)).

Definition no_repeat (l : list string) : Prop :=
  ∀ i e1 e2, l !! i = Some e1 → l !! S i = Some e2 →
             recorded_hash e1 ≠ recorded_hash e2.

(** The stored hash is the one the newest entry of the history records. *)
Definition synced (w : World) (obj : ref) : Prop :=
  ∀ e, last (history w obj) = Some e →
       FeatureHash (heap w obj) = Some (recorded_hash e).

(** The host between two calls: it may change anything but the two
    properties the macro owns. *)
Definition keeps_fingerprint (obj : ref) (edit : World → World) : Prop :=
  ∀ w, FeatureHash (heap (edit w) obj) = FeatureHash (heap w obj)
       ∧ FeatureHistory (heap (edit w) obj) = FeatureHistory (heap w obj).

(** A sequence of [process_feature] calls on one object, each after an edit
    by the host.  The first component lists, oldest first, the history
    entries of the calls that reported a change. *)
Fixpoint session (config : Config) (obj : ref)
    (calls : list ((World → World) * Reading)) (w : World) : list string * World :=
  match calls with
  | [] => ([], w)
  | (edit, host) :: rest =>
      let '(changed, w1) := process_feature config host obj (edit w) in
      let '(entries, w2) := session config obj rest w1 in
      ((if changed : bool
        then [time_strftime host +:+ ": " +:+ default "" (FeatureHash (heap w1 obj))]
        else []) ++ entries, w2)
  end.

(** The world after the block that creates the two properties, when no call
    raises. *)
Definition ensure_history (obj : ref) (w : World) : World :=
  match FeatureHistory (heap w obj) with
  | Some _ => w
  | None =>
      update_object obj
        (λ o, set_PropertiesList (PropertiesList o ++ ["FeatureHistory"])
                (set_FeatureHistory (Some []) o)) w
  end.

Definition ensure_hash (obj : ref) (w : World) : World :=
  match FeatureHash (heap w obj) with
  | Some _ => w
  | None =>
      update_object obj
        (λ o, set_PropertiesList (PropertiesList o ++ ["FeatureHash"])
                (set_FeatureHash (Some "") o)) w
  end.

(** The history after [process_feature] has found a hash [h] that differs
    from the stored one. *)
Definition new_history (config : Config) (host : Reading) (h : string)
    (H : list string) : list string :=
  let entry := time_strftime host +:+ ": " +:+ h in
  match last H with
  | Some newest =>
      if py.endswith newest h then py.set_last entry H
      else py.slice_from (- history_length config) (H ++ [entry])
  | None => py.slice_from (- history_length config) (H ++ [entry])
  end.

(** The world after the [except] handler has logged [msg]. *)
Definition warn (obj : ref) (msg : string) (w : World) : World :=
  PrintMessage ("Fehler bei " +:+ Name (heap w obj) +:+ ": " +:+ msg +:+ nl) w.

(** The result of the last block of [process_feature] for the hash [h]. *)
Definition recorded (config : Config) (host : Reading) (obj : ref)
    (name h : string) (w1 : World) : bool * World :=
  if bool_decide (FeatureHash (heap w1 obj) ≠ Some h) then
    let w2 := update_object obj
                (set_FeatureHistory
                   (Some (new_history config host h (history w1 obj)))) w1 in
    let w3 := update_object obj (set_FeatureHash (Some h)) w2 in
    let w4 := set_feature_cache
                (<[name := (time_time host, h)]> (feature_cache w3)) w3 in
    (true, set_dependency_cache (delete name (dependency_cache w4)) w4)
  else
    (false, set_feature_cache (<[name := (time_time host, h)]> (feature_cache w1)) w1).

(** The result of a run of [process_feature] that gets past the cache check
    and meets no exception. *)
Definition completed (config : Config) (host : Reading) (obj : ref) (w : World)
  : bool * World :=
  recorded config host obj (Name (heap w obj)) (fingerprint (heap w obj))
           (ensure_hash obj (ensure_history obj w)).

(** ** Sample documents *)

(** A [Part::Box] of the given length; [stamp] is its [TimeStamp]. *)
Definition box (name length : string) (stamp : option Z) (out : list ref)
  : DocumentObject :=
  {| Name := name; Label := name; TypeId := "Part::Box";
     PropertiesList := ["Label"; "Length"; "Width"; "Height"; "Placement"];
     properties :=
       list_to_map
         [ ("Label", Other name); ("Length", Other length);
           ("Width", Other "5.0 mm"); ("Height", Other "2.0 mm");
           ("Placement", Placement ("0.0", "0.0", "0.0") "Rotation (0,0,0,1)") ];
     TimeStamp := stamp; OutList := out;
     FeatureHash := None; FeatureHistory := None |}.

(** The macro right after [start_tracking()], over the given objects. *)
Definition fresh_world (objects : ref → DocumentObject) (now : Z) : World :=
  {| heap := objects; ActiveDocument := true; console := [];
     observer_active := true; recompute_queue := []; recompute_timer := None;
     changed_properties := ∅; feature_cache := ∅; dependency_cache := ∅;
     pending_output := false; task_panel_active := false;
     changes_during_task := false; edit_mode_active := false;
     doc_active := true; last_change_time := now; throttle_queue := [];
     throttle_timer := None; edit_active := true; in_edit_last := false;
     task_active := true; detected_panels := []; single_shots := [] |}.

(** A reading of the host at which no call raises. *)
Definition reading (now : Z) (clock : string) : Reading :=
  {| time_time := now; time_strftime := clock; fault := λ _ _, None |}.

(** The user sets a property of an object; [stamp] is the [TimeStamp] the
    host then shows, [None] on a host whose objects have no such attribute. *)
Definition host_edit (obj : ref) (prop : string) (value : PyValue)
    (stamp : option Z) (w : World) : World :=
  update_object obj
    (λ o, {| Name := Name o; Label := Label o; TypeId := TypeId o;
             PropertiesList := PropertiesList o;
             properties := <[prop := value]> (properties o);
             TimeStamp := stamp; OutList := OutList o;
             FeatureHash := FeatureHash o;
             FeatureHistory := FeatureHistory o |}) w.

(** One box on a host that stamps its objects, and six edits of its length,
    each followed by a call of [process_feature]. *)
Definition one_box : World := fresh_world (λ _, box "Box" "10.0 mm" (Some 10%Z) []) 0.

Definition six_edits : list ((World → World) * Reading) :=
  [ (host_edit 0 "Length" (Other "11.0 mm") (Some 110%Z), reading 120 "2024-05-01 10:00:01");
    (host_edit 0 "Length" (Other "12.0 mm") (Some 210%Z), reading 220 "2024-05-01 10:00:02");
    (host_edit 0 "Length" (Other "13.0 mm") (Some 310%Z), reading 320 "2024-05-01 10:00:03");
    (host_edit 0 "Length" (Other "14.0 mm") (Some 410%Z), reading 420 "2024-05-01 10:00:04");
    (host_edit 0 "Length" (Other "15.0 mm") (Some 510%Z), reading 520 "2024-05-01 10:00:05");
    (host_edit 0 "Length" (Other "16.0 mm") (Some 610%Z), reading 620 "2024-05-01 10:00:06") ].

(** A box on a host without [TimeStamp], fingerprinted once at time 100 and
    then made longer by the user. *)
Definition unstamped_box_edited : World :=
  host_edit 0 "Length" (Other "12.0 mm") None
    (process_feature default_config (reading 100 "2024-05-01 10:00:00") 0
       (fresh_world (λ _, box "Box" "10.0 mm" None []) 0)).2.

(** A box fingerprinted at time 100, then touched by the host at time 150
    in a property that is no part of its fingerprint. *)
Definition touched_box : World :=
  host_edit 0 "Visibility" (Other "False") (Some 150%Z)
    (process_feature default_config (reading 100 "2024-05-01 10:00:00") 0
       (fresh_world (λ _, box "Box" "10.0 mm" (Some 50%Z) []) 0)).2.

(** A reading at which the host refuses to hand out [obj.PropertiesList]. *)
Definition broken_reading : Reading :=
  {| time_time := 100; time_strftime := "2024-05-01 10:00:00";
     fault := λ _ call,
       match call with
       | get_PropertiesList => Some "Cannot access attribute PropertiesList"
       | _ => None
       end |}.

(** ** Vocabulary of the ordering properties *)

(** [a] names [b] among its outgoing dependencies, both taken from the input. *)
Definition depends_on (w : World) (objects : list ref) (a b : ref) : Prop :=
  a ∈ objects ∧ b ∈ objects ∧ b ∈ OutList (heap w a).

Definition acyclic (w : World) (objects : list ref) : Prop :=
  ∀ a, ¬ tc (depends_on w objects) a a.

(** [a] stands before [b] in [result]. *)
Definition before (result : list ref) (a b : ref) : Prop :=
  ∃ i j, result !! i = Some a ∧ result !! j = Some b ∧ i < j.

(** The key of an object in the dict [graph]. *)
Definition name_of (w : World) (obj : ref) : string := Name (heap w obj).

(** ** Vocabulary of the propagation properties *)

(** The objects one call of [process_with_depth_limit] hands to
    [process_feature], in the order of the calls: the traversal itself, with
    the list of the objects in the place of the world. *)
Fixpoint fingerprinted (fuel : nat) (w : World) (obj : ref) (depth : Z)
    (st : gset string * list ref) : option (gset string * list ref) :=
  match fuel with
  | O => None
  | S fuel' =>
      let '(processed, calls) := st in
      if decide (Name (heap w obj) ∈ processed) then Some st
      else
        let processed := {[Name (heap w obj)]} ∪ processed in
        let calls := calls ++ [obj] in
        if decide (depth = 1)%Z then Some (processed, calls)
        else
          let next_depth := if decide (0 < depth)%Z then (depth - 1)%Z else 0%Z in
          foldl (λ acc child, acc ≫= fingerprinted fuel' w child next_depth)
                (Some (processed, calls)) (OutList (heap w obj))
  end.

(** [b] is at most [n] dependency steps away from [a]. *)
Fixpoint within (w : World) (n : nat) (a b : ref) : Prop :=
  match n with
  | O => a = b
  | S n' => a = b ∨ ∃ c, c ∈ OutList (heap w a) ∧ within w n' c b
  end.

(** A chain of three boxes, each depending on the one before. *)
Definition chain : World :=
  fresh_world (λ r, match r with
                    | 0 => box "A" "10.0 mm" (Some 10%Z) []
                    | 1 => box "B" "10.0 mm" (Some 10%Z) [0]
                    | _ => box "C" "10.0 mm" (Some 10%Z) [1]
                    end) 0.

(** [A] depends on [B] and on [C], [B] on [C], and [C] on [D]. *)
Definition shortcut : World :=
  fresh_world (λ r, match r with
                    | 0 => box "A" "10.0 mm" (Some 10%Z) [1; 2]
                    | 1 => box "B" "10.0 mm" (Some 10%Z) [2]
                    | 2 => box "C" "10.0 mm" (Some 10%Z) [3]
                    | _ => box "D" "10.0 mm" (Some 10%Z) []
                    end) 0.

(** Two worlds whose objects carry the same names and dependency lists. *)
Definition same_shape (w w' : World) : Prop :=
  ∀ r, Name (heap w' r) = Name (heap w r)
       ∧ OutList (heap w' r) = OutList (heap w r).

(** ** Vocabulary of the scheduling properties *)

(** Suspension is in effect before every event of the run and after it. *)
Fixpoint suspended_throughout (config : Config) (recursion_limit : nat)
    (trace : list (Reading * event)) (w : World) : Prop :=
  match trace with
  | [] => suspended w = true
  | (host, e) :: rest =>
      suspended w = true
      ∧ match deliver config host recursion_limit e w with
        | Some w' => suspended_throughout config recursion_limit rest w'
        | None => True
        end
  end.

(** A burst of property changes of one object. *)
Definition burst_events (obj : ref) (burst : list (Reading * string))
  : list (Reading * event) :=
  (λ hp, (hp.1, ChangedObject obj hp.2)) <$> burst.

(** The property names of a burst, as [queue_change] collects them. *)
Definition burst_props (burst : list (Reading * string)) : list string :=
  foldl (λ s p, py.set_add p s) [] (snd <$> burst).

(** The GUI while an object is being edited, and while none is. *)
Definition gui_editing : Gui :=
  {| gui_raises := false; gui_ActiveDocument := true; gui_getInEdit := true;
     gui_activeWorkbench := None; gui_TaskPanel_children := None |}.

Definition gui_idle : Gui :=
  {| gui_raises := false; gui_ActiveDocument := true; gui_getInEdit := false;
     gui_activeWorkbench := None; gui_TaskPanel_children := None |}.

(** One box whose editor has just been opened: the poll of
    [EditModeObserver] at time 1000 finds it in edit. *)
Definition editing : World :=
  check_edit_mode (reading 1000 "2024-05-01 10:00:01") gui_editing
    (fresh_world (λ _, box "Box" "10.0 mm" (Some 10%Z) []) 0).

(** One box with a change of its length accepted at time 500 and waiting in
    [recompute_queue] for the timer armed by it. *)
Definition pending : World :=
  slotChangedObject default_config (reading 500 "2024-05-01 10:00:00") 0 "Length" one_box.

(** ** Invariants of the proofs *)

(** The cap of [FeatureHistory] and the absence of repeats in it. *)
Definition capped (config : Config) (obj : ref) (w : World) : Prop :=
  (Z.of_nat (length (history w obj)) ≤ history_length config)%Z
  ∧ no_repeat (history w obj).

Section Ordering.

Variable w : World.
Variable objects : list ref.

(** The value [graph[obj.Name]] gets in [sort_by_dependencies]. *)
Definition children_of (obj : ref) : list string :=
  name_of w <$> filter (λ child, child ∈ objects) (OutList (heap w obj)).

(** An edge of the dict [graph]. *)
Definition nedge (a b : string) : Prop :=
  ∃ cs, dependency_graph w objects !! a = Some cs ∧ b ∈ cs.

(** [visited] and [result] between two calls of [visit]: every object of
    [result] is visited, and stands behind the objects it depends on. *)
Definition Inv (V : gset string) (R : list ref) : Prop :=
  (∀ o, o ∈ R → name_of w o ∈ V ∧ o ∈ objects)
  ∧ NoDup (name_of w <$> R)
  ∧ (∀ j o c, R !! j = Some o → nedge (name_of w o) c →
              ∃ i oc, i < j ∧ R !! i = Some oc ∧ name_of w oc = c).

(** A name whose [visit] has begun and not yet returned. *)
Definition gray (V : gset string) (R : list ref) (g : string) : Prop :=
  g ∈ V ∧ g ∉ name_of w <$> R.

(** What one call [visit(n)] adds to [visited] and [result]. *)
Definition Post (n : string) (V : gset string) (R : list ref)
    (V' : gset string) (R' : list ref) : Prop :=
  Inv V' R' ∧ V ⊆ V' ∧ (∃ Δ, R' = R ++ Δ) ∧ n ∈ name_of w <$> R'
  ∧ (∀ g, gray V' R' g → gray V R g)
  ∧ (∀ o, o ∈ R' → o ∈ R ∨ name_of w o ∉ V).

End Ordering.

(** The world after one call of [process_feature]. *)
Definition step (config : Config) (host : Reading) (w : World) (obj : ref) : World :=
  (process_feature config host obj w).2.

(** Handlers that only touch the change record. *)
Definition bookkeeping (w w' : World) : Prop :=
  heap w' = heap w ∧ feature_cache w' = feature_cache w
  ∧ ActiveDocument w' = ActiveDocument w
  ∧ edit_mode_active w' = edit_mode_active w
  ∧ task_panel_active w' = task_panel_active w
  ∧ recompute_timer w' = recompute_timer w
  ∧ single_shots w' = single_shots w.

(** Nothing was fingerprinted and the debounce timer was not armed. *)
Definition unscheduled (w w' : World) : Prop :=
  heap w' = heap w ∧ feature_cache w' = feature_cache w
  ∧ (recompute_timer w' = recompute_timer w ∨ recompute_timer w' = None).

(** The fingerprint engine leaves the variables of the observers alone. *)
Definition engine_only (w w' : World) : Prop :=
  ActiveDocument w' = ActiveDocument w
  ∧ recompute_queue w' = recompute_queue w
  ∧ recompute_timer w' = recompute_timer w
  ∧ changed_properties w' = changed_properties w
  ∧ task_panel_active w' = task_panel_active w
  ∧ changes_during_task w' = changes_during_task w
  ∧ edit_mode_active w' = edit_mode_active w
  ∧ single_shots w' = single_shots w.

(** The two busy flags and the flag of changes are as before. *)
Definition flags_kept (w w' : World) : Prop :=
  edit_mode_active w' = edit_mode_active w
  ∧ task_panel_active w' = task_panel_active w
  ∧ changes_during_task w' = changes_during_task w.

(** The world in which the throttle holds [props] back for [obj] and its
    timer is due at [deadline]; the rest is as in [w]. *)
Definition buffered (obj : ref) (props : list string) (deadline : Z) (w : World)
  : World :=
  set_throttle_timer (Some deadline)
    (set_throttle_queue [(Name (heap w obj), (obj, props))] w).

(** The deadline of the throttle timer after a burst: every event of the
    burst arms it anew. *)
Definition rearmed (config : Config) (deadline : Z) (burst : list (Reading * string))
  : Z :=
  foldl (λ _ hp, time_time hp.1 + throttle_interval config)%Z deadline burst.

(** Nothing was fingerprinted between [w] and [w']. *)
Definition unfingerprinted (w w' : World) : Prop :=
  heap w' = heap w ∧ feature_cache w' = feature_cache w.

(** The event is a firing of the recompute timer that gets as far as the
    dispatch: the timer is due, the queue holds something and no suspension
    is in effect. *)
Definition dispatching (host : Reading) (e : event) (w : World) : bool :=
  match e with
  | RecomputeTimeout =>
      match recompute_timer w with
      | Some deadline =>
          due host deadline
          && negb (bool_decide (recompute_queue w = []))
          && negb (suspended w)
      | None => false
      end
  | _ => false
  end.

(** The readings of a run at which the recompute timer dispatched. *)
Fixpoint dispatches (config : Config) (recursion_limit : nat)
    (trace : list (Reading * event)) (w : World) : list Reading :=
  match trace with
  | [] => []
  | (host, e) :: rest =>
      (if dispatching host e w then [host] else [])
        ++ match deliver config host recursion_limit e w with
           | Some w' => dispatches config recursion_limit rest w'
           | None => []
           end
  end.

(** ** Vocabulary of the further properties *)

(** The order in which [sort_keys=True] puts two rendered members. *)
Definition key_le (x y : string * string) : Prop := String.leb x.1 y.1 = true.

(** What one round of the loop of [get_feature_data] adds to
    [data["Parameters"]]. *)
Definition parameter_of (o : DocumentObject) (prop : string)
  : list (string * json.value) :=
  if bool_decide (prop ∈ ["FeatureHash"; "FeatureHistory"]) then []
  else match properties o !! prop with
       | Some value => [(prop, normalize prop value)]
       | None => []
       end.

(** The stored hash of the object is its present fingerprint. *)
Definition in_sync (w : World) (obj : ref) : Prop :=
  FeatureHash (heap w obj) = Some (fingerprint (heap w obj)).

(** Every object has the fingerprint and the [TimeStamp] it had. *)
Definition same_fingerprints (w w' : World) : Prop :=
  ∀ r, fingerprint (heap w' r) = fingerprint (heap w r)
       ∧ TimeStamp (heap w' r) = TimeStamp (heap w r).

(** [o] is the first object of the input that carries its name: the one the
    search loop of [visit] finds under that name. *)
Definition first_of_its_name (w : World) (objects : list ref) (o : ref) : Prop :=
  List.find (λ obj, bool_decide (Name (heap w obj) = Name (heap w o))) objects = Some o.

(** [visited] and [result] between two calls of [visit], on any input. *)
Definition Kept (w : World) (objects : list ref) (V : gset string) (R : list ref)
  : Prop :=
  (∀ o, o ∈ R → name_of w o ∈ V ∧ first_of_its_name w objects o)
  ∧ NoDup (name_of w <$> R).

(** What one call [visit(n)] adds, on any input. *)
Definition Added (w : World) (objects : list ref) (n : string)
    (V : gset string) (R : list ref) (V' : gset string) (R' : list ref) : Prop :=
  Kept w objects V' R' ∧ V ⊆ V' ∧ (∃ Δ, R' = R ++ Δ) ∧ n ∈ V'
  ∧ (∀ g, gray w V' R' g → gray w V R g)
  ∧ (∀ o, o ∈ R' → o ∈ R ∨ name_of w o ∉ V).

(** ** The full analysis *)

Section FullAnalysis.

Variable config : Config.
Variable host : Reading.

(** One round of the loop of [process_all_features] over the batches: [i]
    is the index the batch starts at. *)
Definition analysis_round (total_objects : nat) (st : nat * nat * World)
    (batch : list ref) : nat * nat * World :=
  let '(i, processed, w) := st in
  let '(batch_processed, w) := process_batch config host batch (0, w) in
  let w := PrintMessage ("Verarbeite " +:+ pretty (i + batch_processed) +:+ "/"
                           +:+ pretty total_objects +:+ " Objekte..." +:+ py.chr 13) w in
  (i + Z.to_nat (batch_size config), processed + batch_processed, w).

(** [process_all_features].  [doc_objects] is [doc.Objects] and [elapsed]
    the text of [f"{elapsed:.2f}"]; [QCoreApplication.processEvents()] finds
    no event waiting.  [None]: an exception leaves the function. *)
Definition process_all_features (doc_objects : list ref) (elapsed : string)
    (w : World) : option World :=
  if negb (ActiveDocument w)
  then Some (PrintMessage ("Kein aktives Dokument!" +:+ nl) w)
  else
    let w := PrintMessage ("Starte vollst" +:+ ae +:+ "ndige Analyse aller Features..."
                             +:+ nl) w in
    sorted_objects ← sort_by_dependencies w doc_objects;
    all_batches ← range_batches (batch_size config) sorted_objects;
    let total_objects := length sorted_objects in
    let '(_, processed, w) :=
      foldl (analysis_round total_objects) (0, 0, w) all_batches in
    Some (PrintMessage (nl +:+ "Fertig! " +:+ pretty processed
                           +:+ " Objekte verarbeitet in " +:+ elapsed +:+ "s" +:+ nl) w).

End FullAnalysis.

(** ** Vocabulary of the analysis properties *)

(** No call of the host on [obj] raises at this reading. *)
Definition sound (host : Reading) (obj : ref) : Prop :=
  ∀ call, fault host obj call = None.

(** The cache check lets the object through, unless its stored hash is its
    fingerprint already. *)
Definition ready (w : World) (obj : ref) : Prop :=
  fast_path obj w = false ∨ in_sync w obj.

(** No other object carries the name of [obj]. *)
Definition named_alone (w : World) (obj : ref) : Prop :=
  ∀ x, Name (heap w x) = Name (heap w obj) → x = obj.

(** The objects whose stored hash is not their fingerprint. *)
Definition stale (w : World) (objects : list ref) : list ref :=
  filter (λ o, FeatureHash (heap w o) ≠ Some (fingerprint (heap w o))) objects.

(** What the engine keeps along a sequence of calls on the objects of
    [scope]. *)
Definition engine_frame (scope : list ref) (w w' : World) : Prop :=
  same_shape w w' ∧ same_fingerprints w w'
  ∧ (∀ o, o ∉ scope → heap w' o = heap w o)
  ∧ (∀ k, k ∉ name_of w <$> scope → feature_cache w' !! k = feature_cache w !! k)
  ∧ (∀ o, in_sync w o → in_sync w' o ∧ history w' o = history w o)
  ∧ ActiveDocument w' = ActiveDocument w.

(** The chain of three boxes with a change of the length of its second box
    accepted at time 500 and waiting for the recompute timer. *)
Definition chain_pending : World :=
  slotChangedObject default_config (reading 500 "2024-05-01 10:00:00") 1 "Length" chain.

(** ** Switching the tracking on and off *)

(** The three observer instances: [true] when the variable holds an
    instance, [false] while it is [None]; and whether the polling timer of
    the edit mode observer runs. *)
Record Instances := {
  document_observer : bool;
  task_panel_observer : bool;
  edit_mode_observer : bool;
  edit_timer : bool  (* [edit_mode_observer.timer.isActive()] *)
}.

(** How a call into the GUI ends: done, nothing to call (no main window), or
    an exception. *)
Inductive gui_outcome :=
| Done
| Absent
| Fails (msg : string).

(** The host calls of the control functions at one moment. *)
Record Shell := {
  install_filter : gui_outcome;  (* [getMainWindow()] and [installEventFilter] *)
  add_document_observer : option string;  (* [Some msg]: [addDocumentObserver] raises *)
  remove_document_observer : option string;  (* [Some msg]: [removeDocumentObserver] raises *)
  toolbar : option string  (* [Some msg]: [create_toolbar] raises *)
}.

Section Control.

Variable host : Reading.
Variable shell : Shell.

(** [DocumentObserver()] *)
Definition new_DocumentObserver (w : World) : World :=
  let w := set_doc_active true w in
  let w := set_last_change_time (time_time host) w in
  let w := set_throttle_queue [] w in
  set_throttle_timer None w.

(** [TaskPanelObserver()] *)
Definition new_TaskPanelObserver (w : World) : World :=
  set_detected_panels [] (set_task_active true w).

(** [EditModeObserver()]; its timer is started by the caller's record. *)
Definition new_EditModeObserver (w : World) : World :=
  set_in_edit_last false (set_edit_active true w).

(** [setup_observers] *)
Definition setup_observers (st : Instances * World) : Instances * World :=
  let '(i, w) := st in
  let '(i, w) :=
    if document_observer i then (i, w)
    else ({| document_observer := true;
             task_panel_observer := task_panel_observer i;
             edit_mode_observer := edit_mode_observer i;
             edit_timer := edit_timer i |}, new_DocumentObserver w) in
  let '(i, w) :=
    if task_panel_observer i then (i, w)
    else
      let i := {| document_observer := document_observer i;
                  task_panel_observer := true;
                  edit_mode_observer := edit_mode_observer i;
                  edit_timer := edit_timer i |} in
      let w := new_TaskPanelObserver w in
      match install_filter shell with
      | Done => (i, PrintMessage ("Task Panel Observer aktiviert" +:+ nl) w)
      | Absent => (i, w)
      | Fails e =>
          (i, PrintMessage ("Fehler beim Einrichten des Task Panel Observers: "
                              +:+ e +:+ nl) w)
      end in
  let '(i, w) :=
    if edit_mode_observer i then (i, w)
    else ({| document_observer := document_observer i;
             task_panel_observer := task_panel_observer i;
             edit_mode_observer := true;
             edit_timer := true |},
          PrintMessage ("Edit Mode Observer aktiviert" +:+ nl)
            (new_EditModeObserver w)) in
  match add_document_observer shell with
  | None =>
      (i, PrintMessage ("Observer aktiviert - " +:+ AE
                          +:+ "nderungen werden automatisch verfolgt" +:+ nl)
            (set_observer_active true w))
  | Some e =>
      (i, PrintMessage ("Fehler beim Aktivieren der Observer: " +:+ e +:+ nl) w)
  end.

(** [remove_observers] *)
Definition remove_observers (st : Instances * World) : Instances * World :=
  let '(i, w) := st in
  let w := set_observer_active false w in
  let w := if document_observer i then set_doc_active false w else w in
  match (if document_observer i then remove_document_observer shell else None) with
  | Some e =>
      (i, PrintMessage ("Fehler beim Deaktivieren der Observer: " +:+ e +:+ nl) w)
  | None =>
      let w := if task_panel_observer i then set_task_active false w else w in
      let w := if edit_mode_observer i then set_edit_active false w else w in
      let i := if edit_mode_observer i
               then {| document_observer := document_observer i;
                       task_panel_observer := task_panel_observer i;
                       edit_mode_observer := true;
                       edit_timer := false |}
               else i in
      (i, PrintMessage ("Observer deaktiviert" +:+ nl) w)
  end.

(** [toggle_toponaming] *)
Definition toggle_toponaming (checked : bool) (st : Instances * World)
  : Instances * World :=
  if checked then setup_observers st else remove_observers st.

(** [start_tracking]; [create_toolbar] touches no variable of the macro.
    [None]: an exception leaves the function. *)
Definition start_tracking (st : Instances * World) : option (Instances * World) :=
  match toolbar shell with
  | Some _ => None
  | None =>
      let '(i, w) := setup_observers st in
      let w := PrintMessage (nl +:+ "=== Toponaming-Tracking initialisiert ===" +:+ nl) w in
      Some (i, PrintMessage ("Aktualisierung erfolgt nur nach Abschluss von "
                               +:+ "Aufgabenbereichen" +:+ nl) w)
  end.

End Control.

(** The variables of the module before [start_tracking()]: no observer
    exists yet. *)
Definition no_instances : Instances :=
  {| document_observer := false; task_panel_observer := false;
     edit_mode_observer := false; edit_timer := false |}.

(** All three observers at work. *)
Definition all_instances : Instances :=
  {| document_observer := true; task_panel_observer := true;
     edit_mode_observer := true; edit_timer := true |}.

(** A host on which every control call succeeds. *)
Definition willing_shell : Shell :=
  {| install_filter := Done; add_document_observer := None;
     remove_document_observer := None; toolbar := None |}.

(** The configuration of the macro with the cap of the history set to 0. *)
Definition uncapped_config : Config :=
  {| history_length := 0; recompute_delay := 300; dependency_depth := 3;
     batch_size := 50; edit_check_interval := 200; throttle_interval := 100 |}.

(** The edit session of [editing] after a change of the length of the box at
    time 1100 and the poll at time 1200 that finds the editor closed. *)
Definition edited : World :=
  check_edit_mode (reading 1200 "2024-05-01 10:00:01") gui_idle
    (slotChangedObject default_config (reading 1100 "2024-05-01 10:00:01") 0 "Length"
       editing).

(** * Part II: properties *)

#[local] Set Warnings "-clear-no-such-hyp".

(** ** The runs of [process_feature] *)

Lemma get_feature_data_ok host obj w :
  fault host obj get_TypeId = None → fault host obj get_Label = None →
  fault host obj get_PropertiesList = None →
  get_feature_data host obj w = (Return (snapshot (heap w obj)), w).
Proof.
  intros H1 H2 H3. unfold get_feature_data, mbind, M_bind, getattr, gets, mret, M_ret.
  rewrite H1, H2, H3. reflexivity.
Qed.

Lemma get_feature_data_fault host obj w msg :
  or_else (fault host obj get_TypeId) (or_else (fault host obj get_Label) (fault host obj get_PropertiesList)) = Some msg →
  get_feature_data host obj w = (Raise msg, w).
Proof.
  unfold get_feature_data, mbind, M_bind, getattr, gets, mret, M_ret.
  destruct (fault host obj get_TypeId); simpl; [by intros [= ->]|].
  destruct (fault host obj get_Label); simpl; [by intros [= ->]|].
  destruct (fault host obj get_PropertiesList); simpl; [by intros [= ->]|done].
Qed.

Ltac unfold_monad :=
  unfold mbind, M_bind, mret, M_ret, gets, modify, getattr, addProperty in *.

Arguments update_object : simpl never.

Lemma heap_update_same obj f w : heap (update_object obj f w) obj = f (heap w obj).
Proof. unfold update_object. cbn. by rewrite decide_True. Qed.

Lemma heap_update_other obj r f w :
  r ≠ obj → heap (update_object obj f w) r = heap w r.
Proof. intros. unfold update_object. cbn. by rewrite decide_False. Qed.

Lemma cache_check_eq host obj w :
  cache_check host obj (Name (heap w obj)) w =
    match feature_cache w !! Name (heap w obj), fault host obj compare_TimeStamp with
    | Some _, Some msg => (Raise msg, w)
    | _, _ => (Return (fast_path obj w), w)
    end.
Proof.
  unfold cache_check, fast_path. unfold_monad.
  destruct (feature_cache w !! Name (heap w obj)) as [[ct ch]|]; [|done].
  by destruct (fault host obj compare_TimeStamp).
Qed.

Lemma create_properties_eq host obj w :
  create_properties host obj w =
    match (if bool_decide (FeatureHistory (heap w obj) = None)
           then fault host obj addProperty_FeatureHistory else None) with
    | Some msg => (Raise msg, w)
    | None =>
        match (if bool_decide (FeatureHash (heap w obj) = None)
               then fault host obj addProperty_FeatureHash else None) with
        | Some msg => (Raise msg, ensure_history obj w)
        | None => (Return (), ensure_hash obj (ensure_history obj w))
        end
    end.
Proof.
  unfold create_properties, ensure_hash, ensure_history. unfold_monad.
  destruct (FeatureHistory (heap w obj)) as [H|] eqn:EH; cbn.
  - destruct (FeatureHash (heap w obj)) as [s|] eqn:ES; cbn; [done|].
    by destruct (fault host obj addProperty_FeatureHash).
  - destruct (fault host obj addProperty_FeatureHistory); [done|]. cbn.
    rewrite !heap_update_same. cbn.
    destruct (FeatureHash (heap w obj)) as [s|] eqn:ES; cbn; [done|].
    by destruct (fault host obj addProperty_FeatureHash).
Qed.

Lemma update_if_needed_eq config host obj name h w :
  update_if_needed config host obj name h w =
    (Return (recorded config host obj name h w).1, (recorded config host obj name h w).2).
Proof.
  unfold update_if_needed, update_history, recorded, history, new_history. unfold_monad.
  destruct (bool_decide (_ ≠ Some h)); cbn; [|done].
  destruct (last _); [destruct (py.endswith _ _)|]; reflexivity.
Qed.

Lemma process_feature_skip config host obj w :
  fast_path obj w = true → first_fault host obj w = None →
  process_feature config host obj w = (false, w).
Proof.
  unfold first_fault, process_feature, process_feature_try.
  intros Hfp Hff.
  unfold mbind at 1. unfold M_bind at 1. unfold gets at 1.
  unfold mbind at 1. unfold M_bind at 1.
  rewrite cache_check_eq, Hfp.
  destruct (feature_cache w !! Name (heap w obj)); [|done].
  cbn in Hff. by destruct (fault host obj compare_TimeStamp).
Qed.

Lemma process_feature_done config host obj w :
  fast_path obj w = false → first_fault host obj w = None →
  process_feature config host obj w = completed config host obj w.
Proof.
  unfold first_fault, process_feature, process_feature_try, completed.
  intros Hfp Hff. rewrite Hfp in Hff.
  unfold mbind at 1. unfold M_bind at 1. unfold gets at 1.
  unfold mbind at 1. unfold M_bind at 1.
  rewrite cache_check_eq, Hfp.
  assert (Hc : match feature_cache w !! Name (heap w obj), fault host obj compare_TimeStamp with
               | Some _, Some msg => (Raise msg, w)
               | _, _ => (Return false, w)
               end = (Return false, w)).
  { destruct (feature_cache w !! Name (heap w obj)); [|done].
    cbn in Hff. by destruct (fault host obj compare_TimeStamp). }
  rewrite Hc.
  assert (Hff' : or_else (fault host obj get_TypeId)
           (or_else (fault host obj get_Label)
              (or_else (fault host obj get_PropertiesList)
                 (or_else
                    (if bool_decide (FeatureHistory (heap w obj) = None)
                     then fault host obj addProperty_FeatureHistory else None)
                    (if bool_decide (FeatureHash (heap w obj) = None)
                     then fault host obj addProperty_FeatureHash else None)))) = None).
  { destruct (feature_cache w !! Name (heap w obj)); cbn in Hff; [|done].
    by destruct (fault host obj compare_TimeStamp). }
  clear Hff Hc.
  destruct (fault host obj get_TypeId) eqn:F1; [done|].
  destruct (fault host obj get_Label) eqn:F2; [done|].
  destruct (fault host obj get_PropertiesList) eqn:F3; [done|].
  cbn in Hff'.
  unfold mbind at 1. unfold M_bind at 1.
  rewrite get_feature_data_ok by done.
  unfold mbind at 1. unfold M_bind at 1. unfold mret at 1. unfold M_ret at 1.
  unfold mbind at 1. unfold M_bind at 1.
  rewrite create_properties_eq.
  destruct (if bool_decide (FeatureHistory (heap w obj) = None) then _ else _); [done|].
  cbn in Hff'. rewrite Hff'.
  rewrite update_if_needed_eq. unfold fingerprint. by destruct (recorded _ _ _ _ _ _).
Qed.

Lemma process_feature_fault config host obj w msg :
  first_fault host obj w = Some msg →
  ∃ w1, (w1 = w ∨ w1 = ensure_history obj w) ∧
        process_feature config host obj w = (false, warn obj msg w1).
Proof.
  unfold first_fault, process_feature, process_feature_try, warn.
  intros Hff.
  unfold mbind at 1. unfold M_bind at 1. unfold gets at 1.
  unfold mbind at 1. unfold M_bind at 1.
  rewrite cache_check_eq.
  assert (Hcases :
    (∃ c, feature_cache w !! Name (heap w obj) = Some c ∧
          fault host obj compare_TimeStamp = Some msg) ∨
    (match feature_cache w !! Name (heap w obj), fault host obj compare_TimeStamp with
     | Some _, Some m => (Raise m, w)
     | _, _ => (Return (fast_path obj w), w)
     end = (Return false, w) ∧
     or_else (fault host obj get_TypeId)
           (or_else (fault host obj get_Label)
              (or_else (fault host obj get_PropertiesList)
                 (or_else
                    (if bool_decide (FeatureHistory (heap w obj) = None)
                     then fault host obj addProperty_FeatureHistory else None)
                    (if bool_decide (FeatureHash (heap w obj) = None)
                     then fault host obj addProperty_FeatureHash else None)))) = Some msg)).
  { destruct (feature_cache w !! Name (heap w obj)) as [c|]; cbn in Hff.
    - destruct (fault host obj compare_TimeStamp) as [m|]; cbn in Hff.
      + injection Hff as ->. left. by exists c.
      + right. by destruct (fast_path obj w).
    - right. by destruct (fast_path obj w). }
  clear Hff. destruct Hcases as [(c & Hc & Hf)|[Hc Hff]].
  - rewrite Hc, Hf. exists w. split; [by left|done].
  - rewrite Hc.
    unfold mbind at 1. unfold M_bind at 1.
    destruct (fault host obj get_TypeId) eqn:F1.
    { rewrite (get_feature_data_fault _ _ _ msg) by (by rewrite F1). exists w. split; [by left|done]. }
    destruct (fault host obj get_Label) eqn:F2.
    { rewrite (get_feature_data_fault _ _ _ msg) by (by rewrite F1, F2). exists w. split; [by left|done]. }
    destruct (fault host obj get_PropertiesList) eqn:F3.
    { rewrite (get_feature_data_fault _ _ _ msg) by (by rewrite F1, F2, F3). exists w. split; [by left|done]. }
    rewrite get_feature_data_ok by done. cbn in Hff.
    unfold mbind at 1. unfold M_bind at 1. unfold mret at 1. unfold M_ret at 1.
    unfold mbind at 1. unfold M_bind at 1.
    rewrite create_properties_eq.
    destruct (if bool_decide (FeatureHistory (heap w obj) = None) then _ else _).
    { cbn in Hff. injection Hff as ->. exists w. split; [by left|done]. }
    cbn in Hff. rewrite Hff. exists (ensure_history obj w). split; [by right|done].
Qed.

(** ** Strings: suffixes and the hash an entry records *)

Lemma string_rev_onto_list acc s :
  String.list_ascii_of_string (py.string_rev_onto acc s)
  = rev (String.list_ascii_of_string s) ++ String.list_ascii_of_string acc.
Proof.
  revert acc. induction s as [|c s IH]; intros acc; cbn; [done|].
  rewrite IH. cbn. by rewrite <- app_assoc.
Qed.

Lemma string_rev_list s :
  String.list_ascii_of_string (py.string_rev s) = rev (String.list_ascii_of_string s).
Proof. unfold py.string_rev. rewrite string_rev_onto_list. cbn. by rewrite app_nil_r. Qed.

Lemma string_rev_involutive s : py.string_rev (py.string_rev s) = s.
Proof.
  rewrite <- (String.string_of_list_ascii_of_string (py.string_rev (py.string_rev s))).
  rewrite !string_rev_list, rev_involutive.
  apply String.string_of_list_ascii_of_string.
Qed.

Lemma string_length_list s : String.length s = length (String.list_ascii_of_string s).
Proof. induction s; cbn; congruence. Qed.

Lemma string_rev_length s : String.length (py.string_rev s) = String.length s.
Proof. by rewrite !string_length_list, string_rev_list, length_rev. Qed.

Lemma endswith_recorded_hash e h :
  String.length h = 32 → py.endswith e h = true ↔ recorded_hash e = h.
Proof.
  intros Hlen. unfold py.endswith, recorded_hash.
  rewrite String.prefix_correct, string_rev_length, Hlen.
  split.
  - intros ->. apply string_rev_involutive.
  - intros <-. by rewrite string_rev_involutive.
Qed.

Lemma list_of_string_app a b :
  String.list_ascii_of_string (a +:+ b)
  = String.list_ascii_of_string a ++ String.list_ascii_of_string b.
Proof.
  induction a as [|c a IH]; [done|].
  change (String c a +:+ b) with (String c (a +:+ b)). cbn. by rewrite IH.
Qed.

Lemma list_of_string_inj a b :
  String.list_ascii_of_string a = String.list_ascii_of_string b → a = b.
Proof.
  intros H. rewrite <- (String.string_of_list_ascii_of_string a), H.
  apply String.string_of_list_ascii_of_string.
Qed.

Lemma string_rev_app a b :
  py.string_rev (a +:+ b) = py.string_rev b +:+ py.string_rev a.
Proof.
  apply list_of_string_inj.
  by rewrite list_of_string_app, !string_rev_list, list_of_string_app, rev_app_distr.
Qed.

Lemma prefix_app s t : String.prefix s (s +:+ t) = true.
Proof.
  induction s as [|c s IH]; [by destruct t|].
  change (String c s +:+ t) with (String c (s +:+ t)). cbn.
  destruct (Ascii.ascii_dec c c); [done|congruence].
Qed.

Lemma endswith_app a b : py.endswith (a +:+ b) b = true.
Proof. unfold py.endswith. rewrite string_rev_app. apply prefix_app. Qed.

Lemma recorded_hash_entry stamp h :
  String.length h = 32 → recorded_hash (stamp +:+ ": " +:+ h) = h.
Proof.
  intros Hlen. apply endswith_recorded_hash; [done|].
  change (stamp +:+ ": " +:+ h) with (stamp +:+ (": " +:+ h)).
  replace (stamp +:+ (": " +:+ h)) with ((stamp +:+ ": ") +:+ h).
  - apply endswith_app.
  - apply list_of_string_inj. by rewrite !list_of_string_app, <- app_assoc.
Qed.

Lemma length_foldr_hexbyte l :
  String.length (foldr hashlib.hexbyte EmptyString l) = 2 * length l.
Proof. induction l as [|b l IH]; cbn; [done|]. rewrite IH. lia. Qed.

Lemma md5_hexdigest_length s : String.length (hashlib.md5_hexdigest s) = 32.
Proof.
  unfold hashlib.md5_hexdigest, hashlib.digest.
  rewrite length_foldr_hexbyte.
  destruct (foldl _ _ _) as [[[a b] c] d]. reflexivity.
Qed.

(** ** Slices *)

(* slice lemmas *)
Lemma slice_from_neg {A} (n : Z) (l : list A) :
  (1 ≤ n)%Z → py.slice_from (- n) l = drop (length l - Z.to_nat n) l.
Proof.
  intros Hn. unfold py.slice_from.
  destruct (Z.ltb_spec (- n) 0); [|lia].
  f_equal. lia.
Qed.

Lemma slice_from_length {A} (n : Z) (l : list A) :
  (1 ≤ n)%Z → (Z.of_nat (length (py.slice_from (- n) l)) ≤ n)%Z.
Proof. intros Hn. rewrite slice_from_neg, length_drop by done. lia. Qed.

Lemma slice_from_short {A} (n : Z) (l : list A) :
  (1 ≤ n)%Z → (Z.of_nat (length l) ≤ n)%Z → py.slice_from (- n) l = l.
Proof.
  intros Hn Hl. rewrite slice_from_neg by done.
  replace (length l - Z.to_nat n) with 0 by lia. done.
Qed.

Lemma slice_from_slice_app {A} (n : Z) (l k : list A) :
  (1 ≤ n)%Z →
  py.slice_from (- n) (py.slice_from (- n) l ++ k) = py.slice_from (- n) (l ++ k).
Proof.
  intros Hn. rewrite !slice_from_neg by done.
  rewrite <- (drop_app_le l k (length l - Z.to_nat n)) by lia.
  rewrite drop_drop. f_equal. rewrite length_drop, !length_app. lia.
Qed.

(** ** The history *)

Lemma fingerprint_length o : String.length (fingerprint o) = 32.
Proof. apply md5_hexdigest_length. Qed.

Lemma process_feature_cases config host obj w :
  (∃ msg w1, first_fault host obj w = Some msg ∧ (w1 = w ∨ w1 = ensure_history obj w)
             ∧ process_feature config host obj w = (false, warn obj msg w1))
  ∨ (first_fault host obj w = None ∧ fast_path obj w = true
     ∧ process_feature config host obj w = (false, w))
  ∨ (first_fault host obj w = None ∧ fast_path obj w = false
     ∧ process_feature config host obj w = completed config host obj w).
Proof.
  destruct (first_fault host obj w) as [msg|] eqn:Hff.
  - left. destruct (process_feature_fault config _ _ _ _ Hff) as (w1 & Hw1 & Hp).
    by exists msg, w1.
  - right. destruct (fast_path obj w) eqn:Hfp.
    + left. by rewrite process_feature_skip.
    + right. by rewrite process_feature_done.
Qed.

Lemma history_ensure_history obj w : history (ensure_history obj w) obj = history w obj.
Proof.
  unfold ensure_history, history.
  destruct (FeatureHistory (heap w obj)) eqn:E; [by rewrite E|].
  by rewrite heap_update_same.
Qed.

Lemma history_ensure_hash obj w : history (ensure_hash obj w) obj = history w obj.
Proof.
  unfold ensure_hash, history.
  destruct (FeatureHash (heap w obj)) eqn:E; [done|].
  by rewrite heap_update_same.
Qed.

Lemma FeatureHash_ensure_history obj w :
  FeatureHash (heap (ensure_history obj w) obj) = FeatureHash (heap w obj).
Proof.
  unfold ensure_history.
  destruct (FeatureHistory (heap w obj)) eqn:E; [done|].
  by rewrite heap_update_same.
Qed.

Lemma FeatureHash_ensure_hash obj w :
  FeatureHash (heap (ensure_hash obj w) obj)
  = Some (default "" (FeatureHash (heap w obj))).
Proof.
  unfold ensure_hash.
  destruct (FeatureHash (heap w obj)) eqn:E; [by rewrite E|].
  by rewrite heap_update_same.
Qed.

(** What one call does to the two properties of the object. *)
Lemma process_feature_properties config host obj w :
  let r := process_feature config host obj w in
  (r.1 = false ∧ history r.2 obj = history w obj
   ∧ (FeatureHash (heap r.2 obj) = FeatureHash (heap w obj)
      ∨ FeatureHash (heap w obj) = None))
  ∨ (r.1 = true
     ∧ FeatureHash (heap w obj) ≠ Some (fingerprint (heap w obj))
     ∧ FeatureHash (heap r.2 obj) = Some (fingerprint (heap w obj))
     ∧ history r.2 obj = new_history config host (fingerprint (heap w obj)) (history w obj)).
Proof.
  cbn zeta.
  destruct (process_feature_cases config host obj w)
    as [(msg & w1 & _ & Hw1 & ->)|[(_ & _ & ->)|(_ & _ & ->)]]; cbn.
  - left. split; [done|]. unfold warn, history. cbn.
    destruct Hw1 as [->| ->]; [by auto|].
    fold (history (ensure_history obj w) obj).
    rewrite history_ensure_history, FeatureHash_ensure_history. by auto.
  - left. by auto.
  - unfold completed, recorded.
    set (w1 := ensure_hash obj (ensure_history obj w)).
    assert (Hh : history w1 obj = history w obj)
      by (unfold w1; by rewrite history_ensure_hash, history_ensure_history).
    assert (Hs : FeatureHash (heap w1 obj) = Some (default "" (FeatureHash (heap w obj))))
      by (unfold w1; by rewrite FeatureHash_ensure_hash, FeatureHash_ensure_history).
    case_bool_decide as Hne; cbn.
    + right. split; [done|]. split.
      { intros Heq. apply Hne. by rewrite Hs, Heq. }
      unfold history. cbn. rewrite !heap_update_same. cbn.
      split; [done|]. fold (history w1 obj). by rewrite Hh.
    + left. split; [done|]. unfold history. cbn. fold (history w1 obj).
      split; [done|].
      destruct (FeatureHash (heap w obj)) eqn:E; [left|by right].
      by rewrite Hs.
Qed.

Lemma no_repeat_drop n l : no_repeat l → no_repeat (drop n l).
Proof.
  intros Hl i e1 e2. rewrite !lookup_drop.
  replace (n + S i) with (S (n + i)) by lia. apply Hl.
Qed.

Lemma no_repeat_snoc l e :
  no_repeat l → (∀ e', last l = Some e' → recorded_hash e' ≠ recorded_hash e) →
  no_repeat (l ++ [e]).
Proof.
  intros Hl Hlast i e1 e2 H1 H2.
  destruct (decide (S i < length l)) as [Hlt|Hge].
  - rewrite lookup_app_l in H1 by lia. rewrite lookup_app_l in H2 by lia. eauto.
  - assert (S i = length l) as Hi.
    { apply lookup_lt_Some in H2. rewrite length_app in H2. cbn in H2. lia. }
    rewrite lookup_app_l in H1 by lia.
    rewrite lookup_app_r, Hi, Nat.sub_diag in H2 by lia. injection H2 as <-.
    apply Hlast. rewrite last_lookup. rewrite <- Hi. done.
Qed.

Lemma set_last_snoc {A} (l : list A) (x y : A) : py.set_last y (l ++ [x]) = l ++ [y].
Proof.
  unfold py.set_last. rewrite length_app. cbn.
  replace (pred (length l + 1)) with (length l + 0) by lia.
  by rewrite insert_app_r.
Qed.

Lemma no_repeat_set_last l e e' :
  no_repeat l → last l = Some e' → recorded_hash e = recorded_hash e' →
  no_repeat (py.set_last e l).
Proof.
  intros Hl Hlast Heq.
  destruct (last_Some l e') as [[l' ->] _]; [done|].
  rewrite set_last_snoc. clear Hlast.
  intros i e1 e2 H1 H2.
  destruct (decide (S i < length l')) as [Hlt|Hge].
  - rewrite lookup_app_l in H1 by lia. rewrite lookup_app_l in H2 by lia.
    apply (Hl i); by rewrite lookup_app_l by lia.
  - assert (S i = length l') as Hi.
    { apply lookup_lt_Some in H2. rewrite length_app in H2. cbn in H2. lia. }
    rewrite lookup_app_l in H1 by lia.
    rewrite lookup_app_r, Hi, Nat.sub_diag in H2 by lia. injection H2 as <-.
    rewrite Heq. apply (Hl i).
    + by rewrite lookup_app_l by lia.
    + by rewrite lookup_app_r, Hi, Nat.sub_diag by lia.
Qed.

Section History.

Variable config : Config.
Variable host : Reading.
Variable h : string.
Hypothesis cap : (1 ≤ history_length config)%Z.
Hypothesis hlen : String.length h = 32.

Let entry := time_strftime host +:+ ": " +:+ h.

Lemma new_history_refresh H e :
  last H = Some e → recorded_hash e = h →
  new_history config host h H = py.set_last entry H.
Proof.
  intros Hlast Hrec. unfold new_history. rewrite Hlast.
  by rewrite (proj2 (endswith_recorded_hash e h hlen) Hrec).
Qed.

Lemma new_history_append H :
  (∀ e, last H = Some e → recorded_hash e ≠ h) →
  new_history config host h H
  = py.slice_from (- history_length config) (H ++ [entry]).
Proof.
  intros Hne. unfold new_history. destruct (last H) as [e|] eqn:Hlast; [|done].
  destruct (py.endswith e h) eqn:He; [|done].
  apply endswith_recorded_hash in He; [|done]. by destruct (Hne e).
Qed.

Lemma new_history_cases H :
  (∃ e, last H = Some e ∧ recorded_hash e = h
        ∧ new_history config host h H = py.set_last entry H)
  ∨ ((∀ e, last H = Some e → recorded_hash e ≠ h)
     ∧ new_history config host h H
       = py.slice_from (- history_length config) (H ++ [entry])).
Proof.
  destruct (last H) as [e|] eqn:Hlast.
  - destruct (decide (recorded_hash e = h)) as [Heq|Hne].
    + left. exists e. by rewrite (new_history_refresh H e).
    + right. split; [by intros ? ?; simplify_eq|].
      apply new_history_append. intros e0 He0. congruence.
  - right. split; [done|]. apply new_history_append. intros e He. congruence.
Qed.

Lemma new_history_length H :
  (Z.of_nat (length H) ≤ history_length config)%Z →
  (Z.of_nat (length (new_history config host h H)) ≤ history_length config)%Z.
Proof.
  intros Hlen. destruct (new_history_cases H) as [(e & _ & _ & ->)|[_ ->]].
  - unfold py.set_last. by rewrite length_insert.
  - by apply slice_from_length.
Qed.

Lemma new_history_no_repeat H :
  no_repeat H → no_repeat (new_history config host h H).
Proof.
  intros Hnr. destruct (new_history_cases H) as [(e & Hl & He & ->)|[Hne ->]].
  - apply (no_repeat_set_last _ _ e); [done..|].
    unfold entry. by rewrite recorded_hash_entry.
  - rewrite slice_from_neg by done. apply no_repeat_drop, no_repeat_snoc; [done|].
    intros e' He'. unfold entry. rewrite recorded_hash_entry by done. eauto.
Qed.

Lemma new_history_last H :
  ∃ e, last (new_history config host h H) = Some e ∧ recorded_hash e = h.
Proof.
  exists entry. split; [|by apply recorded_hash_entry].
  destruct (new_history_cases H) as [(e & Hl & He & ->)|[Hne ->]].
  - destruct (last_Some H e) as [[l' ->] _]; [done|].
    by rewrite set_last_snoc, last_snoc.
  - rewrite slice_from_neg by done.
    rewrite last_lookup, length_drop, lookup_drop, length_app. cbn.
    rewrite lookup_app_r by lia.
    replace (_ - length H) with 0 by lia. done.
Qed.

End History.

Section Session.

Variable config : Config.
Variable obj : ref.
Hypothesis cap : (1 ≤ history_length config)%Z.

Lemma process_feature_capped host w :
  capped config obj w → capped config obj (process_feature config host obj w).2.
Proof.
  intros [Hlen Hnr]. unfold capped.
  destruct (process_feature_properties config host obj w)
    as [(_ & -> & _)|(_ & _ & _ & ->)]; [done|].
  split.
  - apply new_history_length; [done|apply fingerprint_length|done].
  - apply new_history_no_repeat; [done|apply fingerprint_length|done].
Qed.

Lemma process_feature_synced host w :
  synced w obj →
  let r := process_feature config host obj w in
  synced r.2 obj
  ∧ history r.2 obj
    = if r.1
      then py.slice_from (- history_length config)
             (history w obj
                ++ [time_strftime host +:+ ": " +:+ default "" (FeatureHash (heap r.2 obj))])
      else history w obj.
Proof.
  intros Hs. cbn zeta.
  destruct (process_feature_properties config host obj w)
    as [(-> & Hh & Hf)|(-> & Hne & Hf & Hh)].
  - split; [|done]. intros e. rewrite Hh. intros He.
    destruct Hf as [->|Hnone]; [by apply Hs|].
    apply Hs in He. congruence.
  - unfold synced. rewrite Hf. cbn. split.
    + intros e. rewrite Hh.
      destruct (new_history_last config host (fingerprint (heap w obj)) cap
                  (fingerprint_length _) (history w obj)) as (e' & He' & Hr).
      rewrite He'. intros [= <-]. by rewrite Hr.
    + rewrite Hh. apply new_history_append; [apply fingerprint_length|].
      intros e He Heq. apply Hs in He. congruence.
Qed.

Lemma session_capped calls w :
  Forall (λ c, keeps_fingerprint obj c.1) calls →
  capped config obj w → capped config obj (session config obj calls w).2.
Proof.
  revert w. induction calls as [|[edit host] calls IH]; intros w Hk Hc; [done|].
  apply Forall_cons in Hk as [Hedit Hk]. cbn in Hedit. cbn.
  destruct (process_feature config host obj (edit w)) as [changed w1] eqn:Hp.
  specialize (IH w1 Hk).
  destruct (session config obj calls w1) as [entries w2]. cbn. apply IH.
  change w1 with (changed, w1).2. rewrite <- Hp. apply process_feature_capped.
  unfold capped, history. destruct (Hedit w) as [_ ->]. apply Hc.
Qed.

Lemma session_history calls w :
  Forall (λ c, keeps_fingerprint obj c.1) calls →
  capped config obj w → synced w obj →
  let r := session config obj calls w in
  history r.2 obj
  = py.slice_from (- history_length config) (history w obj ++ r.1).
Proof.
  revert w. induction calls as [|[edit host] calls IH]; intros w Hk Hc Hs; cbn.
  { rewrite app_nil_r. symmetry. apply slice_from_short; [done|apply Hc]. }
  apply Forall_cons in Hk as [Hedit Hk]. cbn in Hedit.
  destruct (process_feature config host obj (edit w)) as [changed w1] eqn:Hp.
  assert (Hc' : capped config obj (edit w)).
  { unfold capped, history. destruct (Hedit w) as [_ ->]. apply Hc. }
  assert (Hs' : synced (edit w) obj).
  { unfold synced, history. destruct (Hedit w) as [-> ->]. apply Hs. }
  pose proof (process_feature_capped host _ Hc') as Hc1.
  pose proof (process_feature_synced host _ Hs') as [Hs1 Hh1].
  rewrite Hp in Hc1, Hs1, Hh1. cbn in Hc1, Hs1, Hh1.
  specialize (IH w1 Hk Hc1 Hs1).
  destruct (session config obj calls w1) as [entries w2]. cbn in *.
  rewrite IH, Hh1.
  assert (Hw : history (edit w) obj = history w obj).
  { unfold history. by destruct (Hedit w) as [_ ->]. }
  rewrite Hw. destruct changed; cbn; [|done].
  rewrite slice_from_slice_app by done. by rewrite <- app_assoc.
Qed.

End Session.



(** ** The cache and the exception handler *)

(** C1.  What the code does at an object that has a cache entry and shows no
    [TimeStamp]: [getattr] hands out the default 0, the comparison with the
    cache time succeeds for every cache time that is not negative, and
    [process_feature] returns [False] at once: nothing is recomputed and the
    world is as before.  The claim asks for a recomputation at such an
    object. *)
Theorem C1_cached_object_without_TimeStamp_is_skipped
    (config : Config) (host : Reading) (obj : ref) (w : World)
    (cache_time : Z) (cache_hash : string) :
  feature_cache w !! Name (heap w obj) = Some (cache_time, cache_hash) →
  TimeStamp (heap w obj) = None →
  (0 ≤ cache_time)%Z →
  fault host obj compare_TimeStamp = None →
  process_feature config host obj w = (false, w).
Proof.
  intros Hc Ht Hpos Hf. apply process_feature_skip.
  - unfold fast_path. rewrite Hc, Ht. cbn. by apply bool_decide_eq_true_2.
  - unfold first_fault, fast_path. rewrite Hc, Ht. cbn. rewrite Hf. cbn.
    by rewrite bool_decide_eq_true_2.
Qed.

(** A box without [TimeStamp], fingerprinted at time 100 and then made
    longer: the call at time 200 is skipped, although the stored hash is no
    longer the fingerprint of the box. *)
Lemma C1_witness :
  process_feature default_config (reading 200%Z "2024-05-01 10:00:05") 0 unstamped_box_edited
  = (false, unstamped_box_edited)
  ∧ FeatureHash (heap unstamped_box_edited 0) = Some "a1695146fc4b26447c3e57bfb7a72cd4"
  ∧ fingerprint (heap unstamped_box_edited 0) = "d7e449219df834d5a270d38e1092c675".
Proof.
  split.
  - apply (C1_cached_object_without_TimeStamp_is_skipped
             default_config (reading 200%Z "2024-05-01 10:00:05") 0 unstamped_box_edited
             100 "a1695146fc4b26447c3e57bfb7a72cd4").
    + vm_compute. reflexivity.
    + reflexivity.
    + lia.
    + reflexivity.
  - split; vm_compute; reflexivity.
Defined.

Lemma feature_cache_warn obj msg w : feature_cache (warn obj msg w) = feature_cache w.
Proof. reflexivity. Qed.

Lemma feature_cache_update_object obj f w :
  feature_cache (update_object obj f w) = feature_cache w.
Proof. reflexivity. Qed.

Lemma feature_cache_ensure_history obj w :
  feature_cache (ensure_history obj w) = feature_cache w.
Proof. unfold ensure_history. by destruct (FeatureHistory _). Qed.

Lemma feature_cache_ensure_hash obj w :
  feature_cache (ensure_hash obj w) = feature_cache w.
Proof. unfold ensure_hash. by destruct (FeatureHash _). Qed.

Lemma feature_cache_completed config host obj w :
  feature_cache (completed config host obj w).2
  = <[Name (heap w obj) := (time_time host, fingerprint (heap w obj))]> (feature_cache w).
Proof.
  unfold completed, recorded. case_bool_decide; cbn;
    by rewrite ?feature_cache_update_object, feature_cache_ensure_hash,
         feature_cache_ensure_history.
Qed.

(** C2, as amended.  The entry of an object in [feature_cache] after a call
    of [process_feature]: every call that gets past the cache check and raises
    nothing writes the entry anew, with the time of the call and the
    fingerprint just computed, whether or not that fingerprint differs from
    the stored one; a call that takes the fast path or raises leaves
    [feature_cache] as it was. *)
Theorem C2_cache_entry_is_rewritten_by_every_completed_run
    (config : Config) (host : Reading) (obj : ref) (w : World) :
  feature_cache (process_feature config host obj w).2
  = if negb (fast_path obj w) && bool_decide (first_fault host obj w = None)
    then <[Name (heap w obj) := (time_time host, fingerprint (heap w obj))]>
           (feature_cache w)
    else feature_cache w.
Proof.
  destruct (process_feature_cases config host obj w)
    as [(msg & w1 & Hff & Hw1 & ->)|[(Hff & Hfp & ->)|(Hff & Hfp & ->)]];
    rewrite Hff; cbn.
  - rewrite andb_false_r. destruct Hw1 as [->| ->]; [done|].
    apply feature_cache_ensure_history.
  - by rewrite Hfp.
  - rewrite Hfp. cbn. apply feature_cache_completed.
Qed.

(** C2 as stated fails at [touched_box]: the cache holds the hash under the
    time 100, the call at time 200 computes the same hash and reports no
    change, and the cache then holds it under the time 200. *)
Lemma C2_counterexample :
  let r := process_feature default_config (reading 200 "2024-05-01 10:00:05") 0 touched_box in
  fingerprint (heap touched_box 0) = "a1695146fc4b26447c3e57bfb7a72cd4"
  ∧ feature_cache touched_box !! "Box" = Some (100%Z, "a1695146fc4b26447c3e57bfb7a72cd4")
  ∧ r.1 = false
  ∧ feature_cache r.2 !! "Box" = Some (200%Z, "a1695146fc4b26447c3e57bfb7a72cd4").
Proof. vm_compute. repeat split; reflexivity. Qed.

Lemma process_batch_cons config host obj batch n w :
  process_batch config host (obj :: batch) (n, w)
  = process_batch config host batch
      (if (process_feature config host obj w).1 then S n else n,
       (process_feature config host obj w).2).
Proof.
  unfold process_batch. cbn. by destruct (process_feature config host obj w).
Qed.



(** ** The dict [graph] *)

Lemma find_app {A} (f : A → bool) (l1 l2 : list A) :
  List.find f (l1 ++ l2)
  = match List.find f l1 with Some x => Some x | None => List.find f l2 end.
Proof. induction l1 as [|x l1 IH]; cbn; [done|]. by destruct (f x). Qed.

Section Graph.

Variable w : World.
Variable objects : list ref.

Local Abbreviation G := (dependency_graph w objects).
Local Abbreviation N := (list_to_set (name_of w <$> objects) : gset string).

Lemma dependency_graph_foldl (l : list ref) (g : gmap string (list string)) (n : string) :
  foldl (λ graph obj, <[Name (heap w obj) := children_of w objects obj]> graph) g l !! n
  = match List.find (λ obj, bool_decide (name_of w obj = n)) (reverse l) with
    | Some obj => Some (children_of w objects obj)
    | None => g !! n
    end.
Proof.
  revert g. induction l as [|o l IH]; intros g; [done|].
  rewrite reverse_cons, find_app. cbn [foldl]. rewrite IH.
  destruct (List.find _ (reverse l)); [done|]. cbn.
  unfold name_of. case_bool_decide as Hn.
  - by rewrite <- Hn, lookup_insert_eq.
  - by rewrite lookup_insert_ne.
Qed.

Lemma graph_lookup (n : string) :
  G !! n = children_of w objects <$> List.find (λ obj, bool_decide (name_of w obj = n)) (reverse objects).
Proof.
  etrans; [exact (dependency_graph_foldl objects ∅ n)|].
  by destruct (List.find _ _).
Qed.

Lemma find_name_Some (l : list ref) (n : string) (o : ref) :
  List.find (λ obj, bool_decide (name_of w obj = n)) l = Some o →
  o ∈ l ∧ name_of w o = n.
Proof.
  intros H. apply find_some in H as [Hin Hb].
  split; [by apply (proj2 (list_elem_of_In _ _))|].
  by apply bool_decide_eq_true_1 in Hb.
Qed.

Lemma find_name_None (l : list ref) (n : string) :
  List.find (λ obj, bool_decide (name_of w obj = n)) l = None → n ∉ name_of w <$> l.
Proof.
  intros H Hin. apply list_elem_of_fmap in Hin as (o & -> & Ho).
  apply (proj1 (list_elem_of_In _ _)) in Ho.
  pose proof (find_none _ _ H o Ho) as Hb. cbn in Hb.
  by rewrite bool_decide_eq_true_2 in Hb.
Qed.

Lemma find_name_in (l : list ref) (n : string) :
  n ∈ name_of w <$> l →
  ∃ o, List.find (λ obj, bool_decide (name_of w obj = n)) l = Some o.
Proof.
  intros Hin. destruct (List.find _ l) as [o|] eqn:E; [by exists o|].
  by apply find_name_None in E.
Qed.

Lemma find_name_unique (l : list ref) (o : ref) :
  NoDup (name_of w <$> l) → o ∈ l →
  List.find (λ obj, bool_decide (name_of w obj = name_of w o)) l = Some o.
Proof.
  intros Hnd Ho.
  destruct (find_name_in l (name_of w o)) as [o' Ho'].
  { apply list_elem_of_fmap. by exists o. }
  rewrite Ho'. f_equal. apply find_name_Some in Ho' as [Hin Hn].
  apply list_elem_of_lookup in Hin as [i Hi]. apply list_elem_of_lookup in Ho as [j Hj].
  assert (i = j) as ->; [|congruence].
  eapply NoDup_lookup; [exact Hnd| |]; rewrite list_lookup_fmap.
  - by rewrite Hi.
  - rewrite Hj. cbn. by rewrite Hn.
Qed.

(** Every child a node has in [graph] is a key of [graph] itself. *)
Lemma graph_children_in (n c : string) (cs : list string) :
  G !! n = Some cs → c ∈ cs → n ∈ N ∧ c ∈ N.
Proof.
  rewrite graph_lookup. intros H Hc.
  destruct (List.find _ _) as [o|] eqn:E; [|done]. injection H as <-.
  apply find_name_Some in E as [Ho Hn]. rewrite elem_of_reverse in Ho.
  split.
  - apply elem_of_list_to_set, list_elem_of_fmap. by exists o.
  - unfold children_of in Hc. apply list_elem_of_fmap in Hc as (c' & -> & Hc').
    apply list_elem_of_filter in Hc' as [Hc' _].
    apply elem_of_list_to_set, list_elem_of_fmap. by exists c'.
Qed.

Lemma graph_lookup_obj (o : ref) :
  NoDup (name_of w <$> objects) → o ∈ objects →
  G !! name_of w o = Some (children_of w objects o).
Proof.
  intros Hnd Ho. rewrite graph_lookup.
  rewrite find_name_unique; [done| |by rewrite elem_of_reverse].
  by rewrite fmap_reverse, reverse_Permutation.
Qed.

End Graph.

(** ** Termination of [visit] *)

Lemma foldl_mbind_None {A B} (f : A → B → option B) (l : list A) :
  foldl (λ acc x, acc ≫= f x) None l = None.
Proof. by induction l. Qed.

Lemma size_list_to_set_le (l : list string) :
  size (list_to_set l : gset string) ≤ length l.
Proof.
  induction l as [|x l IH]; cbn; [by rewrite size_empty|].
  rewrite size_union_alt, size_singleton.
  assert (size (list_to_set l ∖ {[x]} : gset string) ≤ size (list_to_set l : gset string))
    by (apply subseteq_size; set_solver).
  lia.
Qed.

Section Visit.

Variable w : World.
Variable objects : list ref.

Local Abbreviation G := (dependency_graph w objects).
Local Abbreviation N := (list_to_set (name_of w <$> objects) : gset string).

Lemma visit_unfold fuel n V R :
  visit (S fuel) w objects G n (V, R)
  = if decide (n ∈ V) then Some (V, R)
    else
      foldl (λ acc child, acc ≫= visit fuel w objects G child)
            (Some ({[n]} ∪ V, R)) (default [] (G !! n))
      ≫= λ st', Some (st'.1,
                       st'.2 ++ option_list
                                  (List.find (λ obj, bool_decide (Name (heap w obj) = n))
                                             objects)).
Proof.
  cbn. destruct (decide (n ∈ V)); [done|].
  destruct (foldl _ _ _) as [[V' R']|]; done.
Qed.

Lemma measure_decreases n (V : gset string) :
  n ∈ N → n ∉ V → size (N ∖ ({[n]} ∪ V)) < size (N ∖ V).
Proof. intros Hn HV. apply subset_size. set_solver. Qed.

Lemma measure_monotone (V V' : gset string) :
  V ⊆ V' → size (N ∖ V') ≤ size (N ∖ V).
Proof. intros HV. apply subseteq_size. set_solver. Qed.

Lemma visit_total fuel : ∀ n V R,
  n ∈ N ∨ n ∈ V → size (N ∖ V) < fuel →
  ∃ V' R', visit fuel w objects G n (V, R) = Some (V', R') ∧ V ⊆ V'.
Proof.
  induction fuel as [|fuel IH]; intros n V R Hn Hfuel; [lia|].
  rewrite visit_unfold. destruct (decide (n ∈ V)) as [HV|HV].
  { by exists V, R. }
  destruct Hn as [Hn|Hn]; [|done].
  assert (Hloop : ∀ cs V1 R1,
    (∀ c, c ∈ cs → c ∈ N) → size (N ∖ V1) < fuel →
    ∃ V2 R2, foldl (λ acc child, acc ≫= visit fuel w objects G child)
                   (Some (V1, R1)) cs = Some (V2, R2) ∧ V1 ⊆ V2).
  { induction cs as [|c cs IHcs]; intros V1 R1 Hcs Hf; [by exists V1, R1|].
    cbn. destruct (IH c V1 R1) as (V2 & R2 & -> & Hsub); [left; apply Hcs; left|done|].
    destruct (IHcs V2 R2) as (V3 & R3 & -> & Hsub').
    - intros c' Hc'. apply Hcs. by right.
    - pose proof (measure_monotone _ _ Hsub). lia.
    - exists V3, R3. split; [done|]. set_solver. }
  destruct (Hloop (default [] (G !! n)) ({[n]} ∪ V) R) as (V2 & R2 & -> & Hsub).
  - intros c Hc. destruct (G !! n) as [cs|] eqn:E; [|by apply elem_of_nil in Hc].
    by destruct (graph_children_in w objects n c cs E Hc).
  - pose proof (measure_decreases n V Hn HV). lia.
  - cbn. eexists _, _. split; [done|]. set_solver.
Qed.

Lemma sort_by_dependencies_total :
  ∃ result, sort_by_dependencies w objects = Some result.
Proof.
  unfold sort_by_dependencies.
  assert (Hloop : ∀ l V R,
    (∀ o, o ∈ l → o ∈ objects) →
    ∃ V' R', foldl (λ acc obj,
                      acc ≫= visit (S (length objects)) w objects G (Name (heap w obj)))
                   (Some (V, R)) l = Some (V', R')).
  { induction l as [|o l IHl]; intros V R Hl; [by exists V, R|].
    cbn [foldl].
    destruct (visit_total (S (length objects)) (Name (heap w o)) V R)
      as (V' & R' & HS & _).
    - left. apply elem_of_list_to_set, list_elem_of_fmap. exists o. split; [done|].
      apply Hl. by left.
    - assert (size (N ∖ V) ≤ size N) by (apply subseteq_size; set_solver).
      assert (size N ≤ length objects); [|lia].
      etrans; [apply size_list_to_set_le|]. by rewrite length_fmap.
    - cbn [mbind option_bind]. rewrite HS. apply IHl. intros o' Ho'. apply Hl. by right. }
  destruct (Hloop objects ∅ []) as (V' & R' & ->); [done|]. by exists R'.
Qed.

End Visit.

(** ** The order [visit] builds *)

Section Order.

Variable w : World.
Variable objects : list ref.

Local Abbreviation G := (dependency_graph w objects).
Local Abbreviation N := (list_to_set (name_of w <$> objects) : gset string).
Local Abbreviation names := (fmap (M := list) (name_of w)).

Hypothesis names_distinct : NoDup (names objects).
Hypothesis no_cycle : ∀ n, ¬ tc (nedge w objects) n n.

Lemma find_in_objects n :
  n ∈ N →
  ∃ o, List.find (λ obj, bool_decide (Name (heap w obj) = n)) objects = Some o
       ∧ o ∈ objects ∧ name_of w o = n.
Proof.
  intros Hn. apply elem_of_list_to_set in Hn.
  destruct (find_name_in w objects n Hn) as [o Ho].
  exists o. split; [exact Ho|]. by apply find_name_Some in Ho.
Qed.

Lemma visit_spec fuel : ∀ n V R V' R',
  visit fuel w objects G n (V, R) = Some (V', R') →
  n ∈ N → Inv w objects V R → (∀ g, gray w V R g → tc (nedge w objects) g n) →
  Post w objects n V R V' R'.
Proof.
  induction fuel as [|fuel IH]; intros n V R V' R' Hvisit Hn HInv Hpre; [done|].
  rewrite visit_unfold in Hvisit.
  destruct (decide (n ∈ V)) as [HV|HV].
  { injection Hvisit as <- <-.
    split; [done|]. split; [done|]. split; [by exists []; rewrite app_nil_r|].
    split; [|split; [done|by left]].
    destruct (decide (n ∈ names R)) as [|Hnot]; [done|].
    destruct (no_cycle n). apply Hpre. by split. }
  (* the loop over the children of [n] *)
  set (LoopInv := λ (Vk : gset string) (Rk : list ref),
         Inv w objects Vk Rk ∧ {[n]} ∪ V ⊆ Vk ∧ (∃ Δ, Rk = R ++ Δ)
         ∧ (∀ g, gray w Vk Rk g → g = n ∨ gray w V R g)
         ∧ (∀ o, o ∈ Rk → o ∈ R ∨ name_of w o ∉ {[n]} ∪ V)).
  assert (Hloop : ∀ cs Vk Rk V2 R2,
    (∀ c, c ∈ cs → nedge w objects n c) →
    foldl (λ acc child, acc ≫= visit fuel w objects G child) (Some (Vk, Rk)) cs
      = Some (V2, R2) →
    LoopInv Vk Rk →
    LoopInv V2 R2 ∧ (∃ Δ, R2 = Rk ++ Δ) ∧ ∀ c, c ∈ cs → c ∈ names R2).
  { induction cs as [|c cs IHcs]; intros Vk Rk V2 R2 Hcs Hfold HL.
    { injection Hfold as <- <-. split; [done|].
      split; [by exists []; rewrite app_nil_r|].
      intros c Hc. by apply elem_of_nil in Hc. }
    cbn [foldl mbind option_bind] in Hfold.
    destruct (visit fuel w objects G c (Vk, Rk)) as [[Vk' Rk']|] eqn:Hc;
      [|by rewrite foldl_mbind_None in Hfold].
    destruct HL as (HI & Hsub & [Δ HΔ] & Hg & Hnew).
    assert (Hedge : nedge w objects n c) by (apply Hcs; left).
    assert (HcN : c ∈ N).
    { destruct Hedge as (cs' & E & Hin).
      by destruct (graph_children_in w objects n c cs' E Hin). }
    destruct (IH c Vk Rk Vk' Rk' Hc HcN HI) as (HI' & Hsub' & [Δ' HΔ'] & Hcin & Hg' & Hnew').
    { intros g Hgray. destruct (Hg g Hgray) as [->|Hgr]; [by apply tc_once|].
      eapply tc_r; [by apply Hpre|done]. }
    destruct (IHcs Vk' Rk' V2 R2) as (HL2 & [Δ2 HΔ2] & Hall).
    - intros c' Hc'. apply Hcs. by right.
    - exact Hfold.
    - split; [done|]. split; [set_solver|]. split.
      { exists (Δ ++ Δ'). by rewrite HΔ', HΔ, app_assoc. }
      split.
      { intros g Hgray. apply Hg. by apply Hg'. }
      intros o Ho. destruct (Hnew' o Ho) as [HoR|HoV]; [by apply Hnew|].
      right. set_solver.
    - split; [done|]. split.
      { exists (Δ' ++ Δ2). by rewrite HΔ2, HΔ', app_assoc. }
      intros c' Hc'. apply elem_of_cons in Hc' as [->|Hc']; [|by apply Hall].
      rewrite HΔ2, fmap_app. apply elem_of_app. by left. }
  destruct (foldl _ _ _) as [[V2 R2]|] eqn:Hfold; [|done].
  cbn in Hvisit. injection Hvisit as <- <-.
  destruct (Hloop (default [] (G !! n)) ({[n]} ∪ V) R V2 R2) as (HL & _ & Hall).
  { intros c Hc. destruct (G !! n) as [cs|] eqn:E; [|by apply elem_of_nil in Hc].
    by exists cs. }
  { exact Hfold. }
  { split.
    { destruct HInv as (H1 & H2 & H3). split; [|done].
      intros o Ho. destruct (H1 o Ho). split; [set_solver|done]. }
    split; [done|]. split; [by exists []; rewrite app_nil_r|]. split.
    - intros g [Hg1 Hg2]. apply elem_of_union in Hg1 as [Hg1|Hg1]; [left; set_solver|].
      right. by split.
    - intros o Ho. by left. }
  destruct HL as ((H1 & H2 & H3) & Hsub & [Δ HΔ] & Hg & Hnew).
  destruct (find_in_objects n Hn) as (o_n & -> & Ho_n & Hname). cbn.
  assert (Hfresh : n ∉ names R2).
  { intros Hin. apply list_elem_of_fmap in Hin as (o & Hno & Ho).
    destruct (Hnew o Ho) as [HoR|HoV].
    - destruct HInv as (HR & _). destruct (HR o HoR) as [HoV _]. by rewrite <- Hno in HoV.
    - apply HoV. rewrite <- Hno. set_solver. }
  split; [|split; [set_solver|split; [|split; [|split]]]].
  - (* Inv *)
    split; [|split].
    + intros o Ho. apply elem_of_app in Ho as [Ho|Ho]; [by apply H1|].
      apply list_elem_of_singleton in Ho as ->. split; [|done].
      rewrite Hname. set_solver.
    + rewrite fmap_app. apply NoDup_app. split; [done|]. split.
      * intros x Hx Hx'. cbn in Hx'. apply list_elem_of_singleton in Hx'.
        rewrite Hname in Hx'. by subst.
      * cbn. apply NoDup_singleton.
    + intros j o c Hj Hedge.
      destruct (decide (j < length R2)) as [Hlt|Hge].
      * rewrite lookup_app_l in Hj by done.
        destruct (H3 j o c Hj Hedge) as (i & oc & Hi & Hoc & Hc).
        exists i, oc. split; [done|]. split; [|done]. rewrite lookup_app_l by lia. done.
      * assert (j = length R2) as ->.
        { apply lookup_lt_Some in Hj. rewrite length_app in Hj. cbn in Hj. lia. }
        rewrite lookup_app_r, Nat.sub_diag in Hj by lia. injection Hj as <-.
        rewrite Hname in Hedge.
        assert (Hc : c ∈ names R2).
        { apply Hall. destruct Hedge as (cs & -> & Hin). done. }
        apply list_elem_of_fmap in Hc as (oc & -> & Hoc).
        apply list_elem_of_lookup in Hoc as [i Hi].
        exists i, oc. split; [by apply lookup_lt_Some in Hi|].
        split; [|done]. by rewrite lookup_app_l by (by apply lookup_lt_Some in Hi).
  - exists (Δ ++ [o_n]). by rewrite HΔ, app_assoc.
  - rewrite fmap_app. apply elem_of_app. right. cbn. rewrite Hname. by left.
  - intros g [Hg1 Hg2]. rewrite fmap_app in Hg2.
    destruct (Hg g) as [->|Hgr]; [|exfalso|done].
    + split; [done|]. intros Hin. apply Hg2. apply elem_of_app. by left.
    + apply Hg2. apply elem_of_app. right. cbn. rewrite Hname. by left.
  - intros o Ho. apply elem_of_app in Ho as [Ho|Ho].
    + destruct (Hnew o Ho) as [|HoV]; [by left|]. right. set_solver.
    + apply list_elem_of_singleton in Ho as ->. right. by rewrite Hname.
Qed.

Lemma name_inj o1 o2 :
  o1 ∈ objects → o2 ∈ objects → name_of w o1 = name_of w o2 → o1 = o2.
Proof.
  intros H1 H2 Heq.
  apply list_elem_of_lookup in H1 as [i Hi]. apply list_elem_of_lookup in H2 as [j Hj].
  assert (i = j) as ->; [|congruence].
  eapply NoDup_lookup; [exact names_distinct| |]; rewrite list_lookup_fmap.
  - by rewrite Hi.
  - rewrite Hj. cbn. by rewrite Heq.
Qed.

Lemma sort_by_dependencies_spec result :
  sort_by_dependencies w objects = Some result →
  result ≡ₚ objects
  ∧ ∀ obj dep, depends_on w objects obj dep → before result dep obj.
Proof.
  unfold sort_by_dependencies. intros Hsort.
  assert (Hloop : ∀ l V R V' R',
    (∀ o, o ∈ l → o ∈ objects) →
    foldl (λ acc obj,
             acc ≫= visit (S (length objects)) w objects G (Name (heap w obj)))
          (Some (V, R)) l = Some (V', R') →
    Inv w objects V R → (∀ g, ¬ gray w V R g) →
    Inv w objects V' R' ∧ (∀ g, ¬ gray w V' R' g)
    ∧ (∀ x, x ∈ names R → x ∈ names R')
    ∧ ∀ o, o ∈ l → name_of w o ∈ names R').
  { induction l as [|o l IHl]; intros V R V' R' Hl Hfold HI Hg.
    { injection Hfold as <- <-. split; [done|]. split; [done|]. split; [done|].
      intros o Ho. by apply elem_of_nil in Ho. }
    cbn [foldl mbind option_bind] in Hfold.
    destruct (visit _ w objects G _ (V, R)) as [[V1 R1]|] eqn:Hv;
      [|by rewrite foldl_mbind_None in Hfold].
    destruct (visit_spec _ _ _ _ _ _ Hv) as (HI1 & Hsub & [Δ HΔ] & Hin & Hg1 & _).
    { apply elem_of_list_to_set, list_elem_of_fmap. exists o. split; [done|].
      apply Hl. by left. }
    { done. }
    { intros g Hgray. by destruct (Hg g). }
    destruct (IHl V1 R1 V' R') as (HI' & Hg' & Hmono & Hall).
    - intros o' Ho'. apply Hl. by right.
    - exact Hfold.
    - done.
    - intros g Hgray. apply (Hg g). by apply Hg1.
    - split; [done|]. split; [done|]. split.
      + intros x Hx. apply Hmono. rewrite HΔ, fmap_app. apply elem_of_app. by left.
      + intros o' Ho'. apply elem_of_cons in Ho' as [->|Ho']; [|by apply Hall].
        by apply Hmono. }
  destruct (foldl _ _ _) as [[V' R']|] eqn:Hfold; [|done].
  cbn in Hsort. injection Hsort as <-.
  destruct (Hloop objects ∅ [] V' R') as ((H1 & H2 & H3) & _ & _ & Hall).
  { done. }
  { exact Hfold. }
  { split; [|split].
    - intros o Ho. by apply elem_of_nil in Ho.
    - cbn. apply NoDup_nil_2.
    - intros j o c Hj. by rewrite lookup_nil in Hj. }
  { intros g [Hg _]. set_solver. }
  assert (Hback : ∀ o, o ∈ objects → o ∈ R').
  { intros o Ho. destruct (proj1 (list_elem_of_fmap _ _ _) (Hall o Ho)) as (o' & Hn & Ho').
    destruct (H1 o' Ho') as [_ Ho'obj].
    by rewrite (name_inj o o' Ho Ho'obj Hn). }
  split.
  - apply NoDup_Permutation.
    + by apply (NoDup_fmap_1 (name_of w)).
    + by apply (NoDup_fmap_1 (name_of w)).
    + intros x. split; [apply H1|apply Hback].
  - intros obj dep (Hobj & Hdep & Hout).
    destruct (proj1 (list_elem_of_lookup _ _) (Hback obj Hobj)) as [j Hj].
    destruct (H3 j obj (name_of w dep) Hj) as (i & oc & Hi & Hoc & Hname).
    { exists (children_of w objects obj). split; [by apply graph_lookup_obj|].
      unfold children_of. apply list_elem_of_fmap. exists dep. split; [done|].
      by apply list_elem_of_filter. }
    exists i, j. split; [|done].
    rewrite Hoc. f_equal. apply name_inj; [|done..].
    apply (H1 oc). apply list_elem_of_lookup. by exists i.
Qed.

End Order.

(** ** From names to objects *)

Section Bridge.

Variable w : World.
Variable objects : list ref.
Hypothesis names_distinct : NoDup (name_of w <$> objects).

Lemma nedge_depends_on a b :
  nedge w objects a b →
  ∃ oa ob, name_of w oa = a ∧ name_of w ob = b ∧ depends_on w objects oa ob.
Proof.
  intros (cs & Hcs & Hb). rewrite graph_lookup in Hcs.
  destruct (List.find _ _) as [oa|] eqn:E; [|done]. injection Hcs as <-.
  apply find_name_Some in E as [Hoa Hna]. rewrite elem_of_reverse in Hoa.
  unfold children_of in Hb. apply list_elem_of_fmap in Hb as (ob & -> & Hob).
  apply list_elem_of_filter in Hob as [Hob Hout].
  by exists oa, ob.
Qed.

Lemma tc_nedge_depends_on a b :
  tc (nedge w objects) a b →
  ∀ oa, oa ∈ objects → name_of w oa = a →
        ∃ ob, ob ∈ objects ∧ name_of w ob = b ∧ tc (depends_on w objects) oa ob.
Proof.
  induction 1 as [a b Hab|a m b Ham Hmb IH]; intros oa Hoa Hna.
  - destruct (nedge_depends_on a b Hab) as (oa' & ob & Ha' & Hb' & Hdep).
    assert (oa' = oa) as ->.
    { apply (name_inj w objects names_distinct); [apply Hdep|done|congruence]. }
    exists ob. split; [apply Hdep|]. split; [done|]. by apply tc_once.
  - destruct (nedge_depends_on a m Ham) as (oa' & om & Ha' & Hm' & Hdep).
    assert (oa' = oa) as ->.
    { apply (name_inj w objects names_distinct); [apply Hdep|done|congruence]. }
    destruct (IH om) as (ob & Hob & Hnb & Htc); [apply Hdep|done|].
    exists ob. split; [done|]. split; [done|]. by eapply tc_l.
Qed.

Lemma acyclic_names : acyclic w objects → ∀ n, ¬ tc (nedge w objects) n n.
Proof.
  intros Hac n Htc.
  assert (∃ oa, oa ∈ objects ∧ name_of w oa = n) as (oa & Hoa & Hna).
  { inversion Htc as [? ? Hedge|? m ? Hedge _]; subst;
      destruct (nedge_depends_on _ _ Hedge) as (oa & ob & Ha & _ & Hdep);
      exists oa; (split; [apply Hdep|done]). }
  destruct (tc_nedge_depends_on n n Htc oa Hoa Hna) as (ob & Hob & Hnb & Hcyc).
  assert (ob = oa) as ->.
  { apply (name_inj w objects names_distinct); [done..|congruence]. }
  by apply (Hac oa).
Qed.

End Bridge.

(** The order depends on the names and the dependency lists of the input
    objects alone. *)
Section Determinism.

Variables w1 w2 : World.
Variable objects : list ref.
Hypothesis same_names : ∀ o, o ∈ objects → Name (heap w1 o) = Name (heap w2 o).
Hypothesis same_edges : ∀ o, o ∈ objects → OutList (heap w1 o) = OutList (heap w2 o).

Lemma find_name_ext n (l : list ref) :
  (∀ o, o ∈ l → o ∈ objects) →
  List.find (λ obj, bool_decide (Name (heap w1 obj) = n)) l
  = List.find (λ obj, bool_decide (Name (heap w2 obj) = n)) l.
Proof.
  induction l as [|o l IH]; intros Hl; [done|]. cbn.
  rewrite (same_names o) by (apply Hl; left).
  rewrite IH; [done|]. intros o' Ho'. apply Hl. by right.
Qed.

Lemma dependency_graph_ext :
  dependency_graph w1 objects = dependency_graph w2 objects.
Proof.
  unfold dependency_graph.
  assert (H : ∀ l (g : gmap string (list string)), (∀ o, o ∈ l → o ∈ objects) →
    foldl (λ graph obj,
             <[Name (heap w1 obj) :=
                 (λ child, Name (heap w1 child))
                   <$> filter (λ child, child ∈ objects) (OutList (heap w1 obj))]> graph) g l
    = foldl (λ graph obj,
             <[Name (heap w2 obj) :=
                 (λ child, Name (heap w2 child))
                   <$> filter (λ child, child ∈ objects) (OutList (heap w2 obj))]> graph) g l).
  { induction l as [|o l IH]; intros g Hl; [done|]. cbn.
    rewrite (same_names o), (same_edges o) by (apply Hl; left).
    rewrite IH by (intros o' Ho'; apply Hl; by right).
    assert (((λ child, Name (heap w1 child))
               <$> filter (λ child, child ∈ objects) (OutList (heap w2 o)))
            = ((λ child, Name (heap w2 child))
               <$> filter (λ child, child ∈ objects) (OutList (heap w2 o)))) as ->; [|done].
    apply list_fmap_ext. intros i c Hc.
    apply same_names. apply list_elem_of_lookup_2 in Hc.
    by apply list_elem_of_filter in Hc as [Hc _]. }
  by apply H.
Qed.

Lemma visit_ext fuel graph : ∀ n st,
  visit fuel w1 objects graph n st = visit fuel w2 objects graph n st.
Proof.
  induction fuel as [|fuel IH]; intros n [V R]; [done|]. cbn.
  destruct (decide (n ∈ V)); [done|].
  assert (Hf : ∀ cs st,
    foldl (λ acc child, acc ≫= visit fuel w1 objects graph child) st cs
    = foldl (λ acc child, acc ≫= visit fuel w2 objects graph child) st cs).
  { induction cs as [|c cs IHcs]; intros st; [done|]. cbn [foldl].
    rewrite IHcs. f_equal. destruct st; cbn [mbind option_bind]; [apply IH|done]. }
  rewrite Hf. by rewrite find_name_ext.
Qed.

Lemma sort_by_dependencies_ext :
  sort_by_dependencies w1 objects = sort_by_dependencies w2 objects.
Proof.
  unfold sort_by_dependencies. rewrite dependency_graph_ext. f_equal.
  assert (H : ∀ l st, (∀ o, o ∈ l → o ∈ objects) →
    foldl (λ acc obj, acc ≫= visit (S (length objects)) w1 objects
                                   (dependency_graph w2 objects) (Name (heap w1 obj))) st l
    = foldl (λ acc obj, acc ≫= visit (S (length objects)) w2 objects
                                   (dependency_graph w2 objects) (Name (heap w2 obj))) st l).
  { induction l as [|o l IH]; intros st Hl; [done|]. cbn [foldl].
    rewrite (same_names o) by (apply Hl; left).
    rewrite IH by (intros o' Ho'; apply Hl; by right).
    f_equal. destruct st; cbn [mbind option_bind]; [apply visit_ext|done]. }
  by apply H.
Qed.

End Determinism.


Lemma acyclic_by_rank (w : World) (objects : list ref) (rank : ref → nat) :
  (∀ a b, depends_on w objects a b → rank b < rank a) → acyclic w objects.
Proof.
  intros Hrank a Htc.
  assert (H : ∀ x y, tc (depends_on w objects) x y → rank y < rank x).
  { induction 1 as [x y Hxy|x m y Hxm _ IH]; [by apply Hrank|].
    apply Hrank in Hxm. lia. }
  apply H in Htc. lia.
Qed.

Lemma chain_acyclic : acyclic chain [2; 1; 0].
Proof.
  apply (acyclic_by_rank _ _ id). intros a b (Ha & Hb & Hout).
  repeat (apply elem_of_cons in Ha as [->|Ha]); cbn in Hout;
    [ apply list_elem_of_singleton in Hout as ->; cbn; lia
    | apply list_elem_of_singleton in Hout as ->; cbn; lia
    | by apply elem_of_nil in Hout
    | by apply elem_of_nil in Ha ].
Qed.


Example sort_by_dependencies_chain :
  sort_by_dependencies chain [2; 1; 0] = Some [0; 1; 2].
Proof. vm_compute. reflexivity. Qed.

(** ** The traversal of [process_with_depth_limit] *)

Lemma same_shape_refl w : same_shape w w.
Proof. by intros r. Qed.

Lemma same_shape_trans w1 w2 w3 :
  same_shape w1 w2 → same_shape w2 w3 → same_shape w1 w3.
Proof.
  intros H12 H23 r. destruct (H12 r) as [<- <-]. apply H23.
Qed.

Lemma same_shape_update_object obj f w :
  (∀ o, Name (f o) = Name o ∧ OutList (f o) = OutList o) →
  same_shape w (update_object obj f w).
Proof.
  intros Hf r. destruct (decide (r = obj)) as [->|Hne].
  - rewrite heap_update_same. apply Hf.
  - by rewrite heap_update_other.
Qed.

Lemma same_shape_ensure_history obj w : same_shape w (ensure_history obj w).
Proof.
  unfold ensure_history. destruct (FeatureHistory (heap w obj)); [apply same_shape_refl|].
  by apply same_shape_update_object.
Qed.

Lemma same_shape_ensure_hash obj w : same_shape w (ensure_hash obj w).
Proof.
  unfold ensure_hash. destruct (FeatureHash (heap w obj)); [apply same_shape_refl|].
  by apply same_shape_update_object.
Qed.

Lemma same_shape_heap w w' : heap w' = heap w → same_shape w w'.
Proof. intros H r. by rewrite H. Qed.

Lemma same_shape_completed config host obj w :
  same_shape w (completed config host obj w).2.
Proof.
  unfold completed, recorded.
  eapply same_shape_trans; [apply same_shape_ensure_history|].
  eapply same_shape_trans; [apply same_shape_ensure_hash|].
  case_bool_decide; cbn [snd].
  - eapply same_shape_trans;
      [apply (same_shape_update_object obj
                (set_FeatureHistory
                   (Some (new_history config host (fingerprint (heap w obj))
                            (history (ensure_hash obj (ensure_history obj w)) obj)))));
       by intros o|].
    eapply same_shape_trans;
      [apply (same_shape_update_object obj
                (set_FeatureHash (Some (fingerprint (heap w obj))))); by intros o|].
    intros r. split; reflexivity.
  - intros r. split; reflexivity.
Qed.

Lemma process_feature_same_shape config host obj w :
  same_shape w (process_feature config host obj w).2.
Proof.
  destruct (process_feature_cases config host obj w)
    as [(msg & w1 & _ & Hw1 & ->)|[(_ & _ & ->)|(_ & _ & ->)]]; cbn.
  - apply (same_shape_trans _ w1); [|intros r; split; reflexivity].
    destruct Hw1 as [->| ->]; [apply same_shape_refl|apply same_shape_ensure_history].
  - apply same_shape_refl.
  - apply same_shape_completed.
Qed.

(** An object first met, while depth is left, is fingerprinted and its
    dependencies are followed. *)
Section Traversal.

Variable config : Config.
Variable host : Reading.

Lemma foldl_step_same_shape calls w : same_shape w (foldl (step config host) w calls).
Proof.
  revert w. induction calls as [|o calls IH]; intros w; [apply same_shape_refl|].
  cbn. eapply same_shape_trans; [apply process_feature_same_shape|apply IH].
Qed.

Lemma process_with_depth_limit_fingerprinted fuel (w0 : World) : ∀ obj depth P w acc,
  same_shape w0 w →
  process_with_depth_limit config host fuel obj depth (P, w)
  = match fingerprinted fuel w0 obj depth (P, acc) with
    | Some (P', calls) => Some (P', foldl (step config host) w (drop (length acc) calls))
    | None => None
    end
  ∧ ∀ P' calls,
      fingerprinted fuel w0 obj depth (P, acc) = Some (P', calls) →
      take (length acc) calls = acc.
Proof.
  induction fuel as [|fuel IH]; intros obj depth P w acc Hsh; [done|].
  cbn [process_with_depth_limit fingerprinted].
  destruct (Hsh obj) as [Hname Hout]. rewrite Hname.
  destruct (decide (Name (heap w0 obj) ∈ P)) as [HP|HP].
  { rewrite drop_all. split; [done|]. intros P' calls [= <- <-]. apply take_ge. lia. }
  fold (step config host w obj).
  assert (Hsh1 : same_shape w0 (step config host w obj)).
  { eapply same_shape_trans; [exact Hsh|apply process_feature_same_shape]. }
  destruct (decide (depth = 1)%Z) as [Hd|Hd].
  { rewrite drop_app_length. split; [done|].
    intros P' calls [= <- <-]. by rewrite take_app_length. }
  destruct (Hsh1 obj) as [_ ->].
  set (next := if decide (0 < depth)%Z then (depth - 1)%Z else 0%Z).
  assert (Hloop : ∀ cs Pk wk acck,
    same_shape w0 wk →
    foldl (λ acc child, acc ≫= process_with_depth_limit config host fuel child next)
          (Some (Pk, wk)) cs
    = match foldl (λ acc child, acc ≫= fingerprinted fuel w0 child next)
                  (Some (Pk, acck)) cs with
      | Some (P', calls) => Some (P', foldl (step config host) wk (drop (length acck) calls))
      | None => None
      end
    ∧ ∀ P' calls,
        foldl (λ acc child, acc ≫= fingerprinted fuel w0 child next)
              (Some (Pk, acck)) cs = Some (P', calls) →
        take (length acck) calls = acck).
  { induction cs as [|c cs IHcs]; intros Pk wk acck Hshk.
    { cbn. rewrite drop_all. split; [done|]. intros P' calls [= <- <-]. apply take_ge. lia. }
    cbn [foldl mbind option_bind].
    destruct (IH c next Pk wk acck Hshk) as [Heq Hpre]. rewrite Heq.
    destruct (fingerprinted fuel w0 c next (Pk, acck)) as [[P1 calls1]|] eqn:E;
      [|by rewrite !foldl_mbind_None].
    specialize (Hpre _ _ eq_refl).
    assert (Hsh' : same_shape w0 (foldl (step config host) wk (drop (length acck) calls1))).
    { eapply same_shape_trans; [exact Hshk|apply foldl_step_same_shape]. }
    destruct (IHcs P1 (foldl (step config host) wk (drop (length acck) calls1)) calls1 Hsh')
      as [Heq' Hpre'].
    rewrite Heq'.
    destruct (foldl _ (Some (P1, calls1)) cs) as [[P2 calls2]|] eqn:E2; [|done].
    specialize (Hpre' _ _ eq_refl).
    assert (Hlen : length acck ≤ length calls1).
    { rewrite <- Hpre at 1. rewrite length_take. lia. }
    assert (Hcalls : calls2 = calls1 ++ drop (length calls1) calls2).
    { rewrite <- Hpre' at 1. by rewrite take_drop. }
    split.
    - f_equal. f_equal. rewrite <- foldl_app. f_equal.
      rewrite Hcalls at 2. rewrite drop_app_le by done. done.
    - intros P' calls [= <- <-]. rewrite Hcalls.
      rewrite take_app_le by done. done. }
  destruct (Hloop (OutList (heap w0 obj)) ({[Name (heap w0 obj)]} ∪ P) (step config host w obj)
              (acc ++ [obj]) Hsh1) as [Heq Hpre].
  rewrite Heq.
  destruct (foldl _ (Some (_, acc ++ [obj])) _) as [[P' calls]|] eqn:E; [|done].
  specialize (Hpre _ _ eq_refl).
  assert (Hcalls : calls = (acc ++ [obj]) ++ drop (length (acc ++ [obj])) calls).
  { rewrite <- Hpre at 1. by rewrite take_drop. }
  split.
  - f_equal. f_equal. rewrite Hcalls at 2. rewrite <- app_assoc.
    rewrite drop_app_length. done.
  - intros P'' calls' [= <- <-]. rewrite Hcalls, <- app_assoc.
    by rewrite take_app_length.
Qed.

End Traversal.

Section Fingerprinted.

Variable w : World.

Local Abbreviation names := (fmap (M := list) (name_of w)).

Lemma within_refl n a : within w n a a.
Proof. destruct n; cbn; by auto. Qed.

Lemma within_step n a c b :
  c ∈ OutList (heap w a) → within w n c b → within w (S n) a b.
Proof. intros Hc Hw. cbn. right. by exists c. Qed.

Lemma fingerprinted_total fuel : ∀ obj d st,
  (1 ≤ d)%Z → Z.to_nat d ≤ fuel →
  ∃ st', fingerprinted fuel w obj d st = Some st'.
Proof.
  induction fuel as [|fuel IH]; intros obj d [P acc] Hd Hfuel; [lia|].
  cbn [fingerprinted].
  destruct (decide (Name (heap w obj) ∈ P)); [by eexists|].
  destruct (decide (d = 1)%Z); [by eexists|].
  rewrite decide_True by lia.
  generalize ({[Name (heap w obj)]} ∪ P) (acc ++ [obj]).
  induction (OutList (heap w obj)) as [|c cs IHcs]; intros Pk acck; [by eexists|].
  cbn [foldl mbind option_bind].
  destruct (IH c (d - 1)%Z (Pk, acck)) as [[P1 acc1] ->]; [lia..|].
  apply IHcs.
Qed.

Lemma fingerprinted_spec fuel : ∀ obj d P acc P' calls,
  fingerprinted fuel w obj d (P, acc) = Some (P', calls) → (1 ≤ d)%Z →
  ∃ new,
    calls = acc ++ new
    ∧ P' = P ∪ list_to_set (names new)
    ∧ NoDup (names new)
    ∧ (∀ o, o ∈ new → name_of w o ∉ P)
    ∧ (∀ o, o ∈ new → within w (Z.to_nat d - 1) obj o)
    ∧ (name_of w obj ∉ P → ∃ rest, new = obj :: rest)
    ∧ name_of w obj ∈ P'
    ∧ ((2 ≤ d)%Z → name_of w obj ∉ P →
       ∀ c, c ∈ OutList (heap w obj) → name_of w c ∈ P').
Proof.
  induction fuel as [|fuel IH]; intros obj d P acc P' calls Hfp Hd; [done|].
  cbn [fingerprinted] in Hfp. fold (name_of w obj) in Hfp.
  destruct (decide (name_of w obj ∈ P)) as [HP|HP].
  { injection Hfp as <- <-. exists []. rewrite app_nil_r. cbn.
    split; [done|]. split; [set_solver|]. split; [apply NoDup_nil_2|].
    split; [by intros o Ho; apply elem_of_nil in Ho|].
    split; [by intros o Ho; apply elem_of_nil in Ho|].
    split; [done|]. split; [done|]. done. }
  destruct (decide (d = 1)%Z) as [Hd1|Hd1].
  { injection Hfp as <- <-. exists [obj]. cbn.
    split; [done|]. split; [set_solver|]. split; [apply NoDup_singleton|].
    split; [by intros o Ho; apply list_elem_of_singleton in Ho as ->|].
    split; [intros o Ho; apply list_elem_of_singleton in Ho as ->; apply within_refl|].
    split; [by exists []|]. split; [set_solver|]. lia. }
  rewrite decide_True in Hfp by lia.
  assert (Hloop : ∀ cs Pk acck P2 calls2,
    foldl (λ acc child, acc ≫= fingerprinted fuel w child (d - 1)%Z)
          (Some (Pk, acck)) cs = Some (P2, calls2) →
    ∃ new,
      calls2 = acck ++ new
      ∧ P2 = Pk ∪ list_to_set (names new)
      ∧ NoDup (names new)
      ∧ (∀ o, o ∈ new → name_of w o ∉ Pk)
      ∧ (∀ o, o ∈ new → ∃ c, c ∈ cs ∧ within w (Z.to_nat (d - 1) - 1) c o)
      ∧ ∀ c, c ∈ cs → name_of w c ∈ P2).
  { induction cs as [|c cs IHcs]; intros Pk acck P2 calls2 Hfold.
    { injection Hfold as <- <-. exists []. rewrite app_nil_r. cbn.
      split; [done|]. split; [set_solver|]. split; [apply NoDup_nil_2|].
      split; [by intros o Ho; apply elem_of_nil in Ho|].
      split; [by intros o Ho; apply elem_of_nil in Ho|].
      by intros c Hc; apply elem_of_nil in Hc. }
    cbn [foldl mbind option_bind] in Hfold.
    destruct (fingerprinted fuel w c (d - 1)%Z (Pk, acck)) as [[P1 calls1]|] eqn:E;
      [|by rewrite foldl_mbind_None in Hfold].
    destruct (IH _ _ _ _ _ _ E) as (new1 & -> & -> & Hnd1 & Hfresh1 & Hw1 & _ & Hc1 & _);
      [lia|].
    destruct (IHcs _ _ _ _ Hfold) as (new2 & -> & -> & Hnd2 & Hfresh2 & Hw2 & Hall2).
    exists (new1 ++ new2). rewrite fmap_app.
    split; [by rewrite app_assoc|]. split; [set_solver|]. split.
    { apply NoDup_app. split; [done|]. split; [|done].
      intros x Hx1 Hx2. apply list_elem_of_fmap in Hx2 as (o & -> & Ho).
      apply (Hfresh2 o Ho). set_solver. }
    split.
    { intros o Ho. apply elem_of_app in Ho as [Ho|Ho]; [by apply Hfresh1|].
      intros Hin. apply (Hfresh2 o Ho). set_solver. }
    split.
    { intros o Ho. apply elem_of_app in Ho as [Ho|Ho].
      - exists c. split; [by left|]. by apply Hw1.
      - destruct (Hw2 o Ho) as (c' & Hc' & Hwc'). exists c'. split; [by right|done]. }
    intros c' Hc'. apply elem_of_cons in Hc' as [->|Hc']; [set_solver|by apply Hall2]. }
  destruct (Hloop _ _ _ _ _ Hfp) as (new & -> & -> & Hnd & Hfresh & Hw & Hall).
  exists (obj :: new). cbn.
  split; [by rewrite <- app_assoc|]. split; [set_solver|]. split.
  { apply NoDup_cons. split; [|done]. intros Hin.
    apply list_elem_of_fmap in Hin as (o & Heq & Ho). apply (Hfresh o Ho).
    rewrite <- Heq. set_solver. }
  split.
  { intros o Ho. apply elem_of_cons in Ho as [->|Ho]; [done|].
    intros Hin. apply (Hfresh o Ho). set_solver. }
  split.
  { intros o Ho. apply elem_of_cons in Ho as [->|Ho]; [apply within_refl|].
    destruct (Hw o Ho) as (c & Hc & Hwc).
    replace (Z.to_nat d - 1) with (S (Z.to_nat (d - 1) - 1)) by lia.
    by apply (within_step _ _ c). }
  split; [by exists new|]. split; [set_solver|].
  intros _ _ c Hc. by apply Hall.
Qed.

End Fingerprinted.

Lemma process_with_depth_limit_total config host (w0 : World) fuel obj depth P w :
  (1 ≤ depth)%Z → Z.to_nat depth ≤ fuel → same_shape w0 w →
  ∃ P' calls,
    fingerprinted fuel w0 obj depth (P, []) = Some (P', calls)
    ∧ process_with_depth_limit config host fuel obj depth (P, w)
      = Some (P', foldl (step config host) w calls).
Proof.
  intros Hd Hfuel Hsh.
  destruct (fingerprinted_total w0 fuel obj depth (P, []) Hd Hfuel) as [[P' calls] Hfp].
  exists P', calls. split; [done|].
  destruct (process_with_depth_limit_fingerprinted config host fuel w0 obj depth P w [] Hsh)
    as [-> _].
  by rewrite Hfp.
Qed.




(** ** The observers under suspension *)

Lemma bookkeeping_refl w : bookkeeping w w.
Proof. by repeat split. Qed.

Lemma bookkeeping_trans w1 w2 w3 :
  bookkeeping w1 w2 → bookkeeping w2 w3 → bookkeeping w1 w3.
Proof.
  intros (A1 & A2 & A3 & A4 & A5 & A6 & A7) (B1 & B2 & B3 & B4 & B5 & B6 & B7).
  repeat split; congruence.
Qed.

Lemma bookkeeping_suspended w w' : bookkeeping w w' → suspended w' = suspended w.
Proof. intros (_ & _ & _ & H1 & H2 & _). unfold suspended. by rewrite H1, H2. Qed.

Lemma append_new_bookkeeping label prop w : bookkeeping w (append_new label prop w).
Proof. by repeat split. Qed.

Lemma foldl_append_new_bookkeeping (label : World → string) props w :
  bookkeeping w (foldl (λ w prop, append_new (label w) prop w) w props).
Proof.
  revert w. induction props as [|p props IH]; intros w; [apply bookkeeping_refl|].
  cbn. eapply bookkeeping_trans; [|apply IH]. apply append_new_bookkeeping.
Qed.

Lemma queue_change_bookkeeping config host obj props w :
  bookkeeping w (queue_change config host obj props w).
Proof. by repeat split. Qed.

Section Suspended.

Variable config : Config.
Variable host : Reading.
Variable recursion_limit : nat.

Lemma start_recompute_timer_suspended w :
  suspended w = true → start_recompute_timer config host w = w.
Proof. intros Hs. unfold start_recompute_timer. by rewrite Hs. Qed.

Lemma on_recompute_timer_suspended w :
  suspended w = true → on_recompute_timer config host recursion_limit w = Some w.
Proof.
  intros Hs. unfold on_recompute_timer. rewrite Hs. by case_bool_decide.
Qed.

Lemma slotChangedObject_suspended obj prop w :
  suspended w = true →
  bookkeeping w (slotChangedObject config host obj prop w).
Proof.
  intros Hs. unfold slotChangedObject.
  destruct (negb _ || _); [apply bookkeeping_refl|].
  destruct (throttled config host w); [apply queue_change_bookkeeping|].
  cbn. unfold suspended in *. cbn. rewrite Hs. by repeat split.
Qed.

Lemma slotCreatedObject_suspended obj w :
  suspended w = true →
  bookkeeping w (slotCreatedObject config host obj w).
Proof.
  intros Hs. unfold slotCreatedObject.
  destruct (negb _); [apply bookkeeping_refl|].
  destruct (throttled config host w); [apply queue_change_bookkeeping|].
  cbn. unfold suspended in *. cbn. rewrite Hs. by repeat split.
Qed.

Lemma flush_one_suspended w obj_data :
  suspended w = true → bookkeeping w (flush_one config host w obj_data).
Proof.
  intros Hs. destruct obj_data as [obj props]. unfold flush_one. rewrite Hs.
  set (w1 := set_recompute_queue (py.set_add obj (recompute_queue w)) w).
  apply (bookkeeping_trans _ w1); [by repeat split|].
  apply (bookkeeping_trans _
           (foldl (λ w prop, append_new (Label (heap w obj)) prop w) w1 props)).
  - apply (foldl_append_new_bookkeeping (λ w, Label (heap w obj))).
  - by repeat split.
Qed.

Lemma foldl_flush_one_suspended l : ∀ w,
  suspended w = true → bookkeeping w (foldl (flush_one config host) w l).
Proof.
  induction l as [|d l IH]; intros w Hs; [apply bookkeeping_refl|].
  cbn. pose proof (flush_one_suspended w d Hs) as Hb.
  eapply bookkeeping_trans; [exact Hb|]. apply IH.
  by rewrite (bookkeeping_suspended _ _ Hb).
Qed.

Lemma process_throttled_changes_suspended w :
  suspended w = true → bookkeeping w (process_throttled_changes config host w).
Proof.
  intros Hs. unfold process_throttled_changes.
  apply (bookkeeping_trans _ (foldl (flush_one config host) w (map snd (throttle_queue w)))).
  - by apply foldl_flush_one_suspended.
  - by repeat split.
Qed.

End Suspended.

Lemma bookkeeping_unscheduled w w' : bookkeeping w w' → unscheduled w w'.
Proof. intros (H1 & H2 & _ & _ & _ & H3 & _). repeat split; by auto. Qed.

Lemma unscheduled_trans w1 w2 w3 :
  unscheduled w1 w2 → unscheduled w2 w3 → unscheduled w1 w3.
Proof.
  intros (A1 & A2 & A3) (B1 & B2 & B3). repeat split; [congruence..|].
  destruct B3 as [B3|B3]; [|by right]. rewrite B3. exact A3.
Qed.

Lemma print_changes_bookkeeping w :
  bookkeeping w (print_changes w)
  ∧ recompute_queue (print_changes w) = recompute_queue w
  ∧ changed_properties (print_changes w) = changed_properties w
  ∧ changes_during_task (print_changes w) = changes_during_task w.
Proof.
  unfold print_changes.
  generalize (py.sorted (map fst (map_to_list (changed_properties w)))). intros l.
  assert (H : ∀ w0,
    let w1 := foldl (λ w obj_label,
                       PrintMessage ("-->" +:+ obj_label +:+ ": "
                                       +:+ py.join ", " (defaultdict_get (changed_properties w) obj_label)
                                       +:+ nl) w) w0 l in
    bookkeeping w0 w1 ∧ recompute_queue w1 = recompute_queue w0
    ∧ changed_properties w1 = changed_properties w0
    ∧ changes_during_task w1 = changes_during_task w0).
  { induction l as [|x l IH]; intros w0; cbn; [by repeat split|].
    destruct (IH (PrintMessage ("-->" +:+ x +:+ ": "
                  +:+ py.join ", " (defaultdict_get (changed_properties w0) x) +:+ nl) w0))
      as (Hb & H1 & H2 & H3).
    split; [|by rewrite H1, H2, H3].
    eapply bookkeeping_trans; [|exact Hb]. by repeat split. }
  apply H.
Qed.

Section Events.

Variable config : Config.
Variable host : Reading.
Variable recursion_limit : nat.

Lemma check_edit_completion_suspended w :
  suspended w = true → unscheduled w (check_edit_completion config host w).
Proof.
  intros Hs. unfold check_edit_completion.
  destruct (task_panel_active w); [by repeat split; auto|].
  destruct (_ && _).
  - rewrite start_recompute_timer_suspended.
    + apply bookkeeping_unscheduled.
      eapply bookkeeping_trans; [|apply print_changes_bookkeeping].
      by repeat split.
    + rewrite (bookkeeping_suspended _ _ (proj1 (print_changes_bookkeeping _))).
      exact Hs.
  - by repeat split; auto.
Qed.

Lemma check_task_completion_suspended w :
  suspended w = true → unscheduled w (check_task_completion config host w).
Proof.
  intros Hs. unfold check_task_completion.
  destruct (edit_mode_active w); [by repeat split; auto|].
  destruct (_ && _).
  - rewrite start_recompute_timer_suspended.
    + apply bookkeeping_unscheduled.
      eapply bookkeeping_trans; [|apply print_changes_bookkeeping].
      by repeat split.
    + rewrite (bookkeeping_suspended _ _ (proj1 (print_changes_bookkeeping _))).
      exact Hs.
  - by repeat split; auto.
Qed.

Lemma check_edit_mode_unscheduled gui w :
  unscheduled w (check_edit_mode host gui w).
Proof.
  unfold check_edit_mode.
  destruct (negb _); [by repeat split; auto|].
  destruct (gui_raises gui); [by repeat split; auto|].
  case_bool_decide; [|by repeat split; auto].
  destruct (probe_in_edit gui); by repeat split; auto.
Qed.

Lemma eventFilter_unscheduled e w : unscheduled w (eventFilter host e w).
Proof.
  unfold eventFilter.
  destruct (negb _); [by repeat split; auto|].
  destruct e as [[name|]|[name|]|]; try (by repeat split; auto).
  - destruct (_ && _); by repeat split; auto.
  - destruct (py.contains _ _); [|by repeat split; auto].
    case_bool_decide; by repeat split; auto.
Qed.

Lemma deliver_suspended e w :
  suspended w = true →
  ∃ w', deliver config host recursion_limit e w = Some w' ∧ unscheduled w w'.
Proof.
  intros Hs. destruct e as [obj|obj prop| | |gui|e|]; cbn.
  - eexists. split; [done|]. by apply bookkeeping_unscheduled, slotCreatedObject_suspended.
  - eexists. split; [done|]. by apply bookkeeping_unscheduled, slotChangedObject_suspended.
  - destruct (throttle_timer w) as [deadline|]; [|by eexists; repeat split; auto].
    destruct (due host deadline); [|by eexists; repeat split; auto].
    eexists. split; [done|].
    apply (unscheduled_trans _ (set_throttle_timer None w)); [by repeat split; auto|].
    by apply bookkeeping_unscheduled, process_throttled_changes_suspended.
  - destruct (recompute_timer w) as [deadline|] eqn:E; [|by eexists; repeat split; auto].
    destruct (due host deadline); [|by eexists; repeat split; auto].
    rewrite on_recompute_timer_suspended by done.
    eexists. split; [done|]. by repeat split; auto.
  - eexists. split; [done|]. apply check_edit_mode_unscheduled.
  - eexists. split; [done|]. apply eventFilter_unscheduled.
  - destruct (single_shots w) as [|[deadline f] rest]; [by eexists; repeat split; auto|].
    destruct (due host deadline); [|by eexists; repeat split; auto].
    eexists. split; [done|].
    apply (unscheduled_trans _ (set_single_shots rest w)); [by repeat split; auto|].
    destruct f; [by apply check_edit_completion_suspended|by apply check_task_completion_suspended].
Qed.

End Events.

Lemma contains_true `{EqDecision A} (x : A) (l : list A) :
  py.contains x l = true ↔ x ∈ l.
Proof. unfold py.contains. apply bool_decide_eq_true. Qed.

Lemma append_new_elem label prop w :
  prop ∈ defaultdict_get (changed_properties (append_new label prop w)) label.
Proof.
  unfold append_new, defaultdict_get. cbn. rewrite lookup_insert_eq. cbn.
  destruct (py.contains prop _) eqn:E; [by apply contains_true in E|].
  apply elem_of_app. right. by left.
Qed.

Lemma run_suspended config rl trace : ∀ w,
  suspended_throughout config rl trace w →
  ∃ w', run config rl trace w = Some w' ∧ unscheduled w w' ∧ suspended w' = true.
Proof.
  induction trace as [|[host e] trace IH]; intros w Hs; cbn in *.
  { exists w. split; [done|]. split; [by repeat split; auto|done]. }
  destruct Hs as [Hs Hrest].
  destruct (deliver_suspended config host rl e w Hs) as (w1 & Hd & Hu).
  rewrite Hd in Hrest |- *. cbn.
  destruct (IH w1 Hrest) as (w' & Hrun & Hu' & Hs').
  exists w'. split; [done|]. split; [by eapply unscheduled_trans|done].
Qed.

(** C7.  While [edit_mode_active] or [task_panel_active] is set: both slots
    leave the recompute timer, the objects and the cache alone and keep the
    suspension, and a change they accept goes into [recompute_queue] and
    [changed_properties] and sets [changes_during_task];
    [start_recompute_timer] returns without arming the timer; a firing of the
    recompute timer returns without touching the queue; and over any run of
    events during which the suspension lasts nothing is fingerprinted and the
    timer is not armed. *)
Theorem C7_no_scheduling_while_suspension_is_in_effect
    (config : Config) (host : Reading) (recursion_limit : nat) (w : World) :
  suspended w = true →
  (∀ obj prop,
     let w' := slotChangedObject config host obj prop w in
     recompute_timer w' = recompute_timer w
     ∧ heap w' = heap w ∧ feature_cache w' = feature_cache w
     ∧ suspended w' = true
     ∧ (accepted config host (ChangedObject obj prop) w ≠ [] →
        recompute_queue w' = py.set_add obj (recompute_queue w)
        ∧ prop ∈ defaultdict_get (changed_properties w') (Label (heap w obj))
        ∧ changes_during_task w' = true))
  ∧ (∀ obj,
       let w' := slotCreatedObject config host obj w in
       recompute_timer w' = recompute_timer w
       ∧ heap w' = heap w ∧ feature_cache w' = feature_cache w
       ∧ suspended w' = true
       ∧ (accepted config host (CreatedObject obj) w ≠ [] →
          recompute_queue w' = py.set_add obj (recompute_queue w)
          ∧ changed_properties w' !! Label (heap w obj) = Some ["Neues Objekt"]
          ∧ changes_during_task w' = true))
  ∧ start_recompute_timer config host w = w
  ∧ on_recompute_timer config host recursion_limit w = Some w
  ∧ (∀ trace,
       suspended_throughout config recursion_limit trace w →
       ∃ w', run config recursion_limit trace w = Some w'
             ∧ heap w' = heap w ∧ feature_cache w' = feature_cache w
             ∧ (recompute_timer w' = recompute_timer w ∨ recompute_timer w' = None)).
Proof.
  intros Hs. split; [|split; [|split; [|split]]].
  - intros obj prop w'. subst w'.
    destruct (slotChangedObject_suspended config host obj prop w Hs)
      as (H1 & H2 & _ & H4 & H5 & H6 & _).
    split; [done|]. split; [done|]. split; [done|]. split.
    { unfold suspended. by rewrite H4, H5. }
    unfold accepted, slotChangedObject.
    destruct (doc_active w && observer_active w); [|done]. cbn.
    destruct (py.contains prop ignored_props); [done|]. cbn.
    destruct (throttled config host w); [done|]. cbn. intros _.
    replace (suspended (set_last_change_time (time_time host) w)) with true by done.
    cbn. split; [done|]. split; [|done].
    apply (append_new_elem (Label (heap w obj)) prop).
  - intros obj w'. subst w'.
    destruct (slotCreatedObject_suspended config host obj w Hs)
      as (H1 & H2 & _ & H4 & H5 & H6 & _).
    split; [done|]. split; [done|]. split; [done|]. split.
    { unfold suspended. by rewrite H4, H5. }
    unfold accepted, slotCreatedObject.
    destruct (doc_active w && observer_active w); [|done]. cbn.
    destruct (throttled config host w); [done|]. cbn. intros _.
    replace (suspended (set_last_change_time (time_time host) w)) with true by done.
    cbn. split; [done|]. split; [|done]. apply lookup_insert_eq.
  - by apply start_recompute_timer_suspended.
  - by apply on_recompute_timer_suspended.
  - intros trace Ht.
    destruct (run_suspended config recursion_limit trace w Ht) as (w' & Hrun & Hu & _).
    exists w'. split; [done|]. exact Hu.
Qed.

(** The session of the sample: an edit session opened at time 1000. *)
Lemma C7_witness :
  start_recompute_timer default_config (reading 1200 "2024-05-01 10:00:01") editing
  = editing
  ∧ on_recompute_timer default_config (reading 1300 "2024-05-01 10:00:01") 0 editing
    = Some editing.
Proof.
  split.
  - apply (C7_no_scheduling_while_suspension_is_in_effect
             default_config (reading 1200 "2024-05-01 10:00:01") 0 editing).
    reflexivity.
  - apply (C7_no_scheduling_while_suspension_is_in_effect
             default_config (reading 1300 "2024-05-01 10:00:01") 0 editing).
    reflexivity.
Defined.

(** ** The dispatch of [on_recompute_timer] *)

Lemma engine_only_refl w : engine_only w w.
Proof. by repeat split. Qed.

Lemma engine_only_trans w1 w2 w3 :
  engine_only w1 w2 → engine_only w2 w3 → engine_only w1 w3.
Proof.
  intros (A1 & A2 & A3 & A4 & A5 & A6 & A7 & A8) (B1 & B2 & B3 & B4 & B5 & B6 & B7 & B8).
  repeat split; congruence.
Qed.

Lemma engine_only_ensure_history obj w : engine_only w (ensure_history obj w).
Proof. unfold ensure_history. destruct (FeatureHistory _); by repeat split. Qed.

Lemma engine_only_ensure_hash obj w : engine_only w (ensure_hash obj w).
Proof. unfold ensure_hash. destruct (FeatureHash _); by repeat split. Qed.

Lemma process_feature_engine_only config host obj w :
  engine_only w (process_feature config host obj w).2.
Proof.
  destruct (process_feature_cases config host obj w)
    as [(msg & w1 & _ & Hw1 & ->)|[(_ & _ & ->)|(_ & _ & ->)]]; cbn.
  - apply (engine_only_trans _ w1); [|by repeat split].
    destruct Hw1 as [->| ->]; [apply engine_only_refl|apply engine_only_ensure_history].
  - apply engine_only_refl.
  - unfold completed, recorded.
    apply (engine_only_trans _ (ensure_history obj w)); [apply engine_only_ensure_history|].
    apply (engine_only_trans _ (ensure_hash obj (ensure_history obj w)));
      [apply engine_only_ensure_hash|].
    case_bool_decide; by repeat split.
Qed.

Lemma foldl_step_engine_only config host calls : ∀ w,
  engine_only w (foldl (step config host) w calls).
Proof.
  induction calls as [|o calls IH]; intros w; [apply engine_only_refl|].
  cbn. eapply engine_only_trans; [apply process_feature_engine_only|apply IH].
Qed.

Section Dispatch.

Variable config : Config.
Variable host : Reading.
Variable recursion_limit : nat.
Hypothesis depth_positive : (0 < dependency_depth config)%Z.
Hypothesis batch_size_not_zero : batch_size config ≠ 0%Z.

Lemma process_affected_features_total obj w :
  ∃ w', process_affected_features config host recursion_limit obj w = Some w'
        ∧ engine_only w w'.
Proof.
  unfold process_affected_features. destruct (ActiveDocument w).
  - rewrite decide_True by done.
    destruct (process_with_depth_limit_total config host w
                (Z.to_nat (dependency_depth config)) obj (dependency_depth config) ∅ w)
      as (P' & calls & _ & ->); [lia|lia|apply same_shape_refl|].
    eexists. split; [done|]. apply foldl_step_engine_only.
  - exists w. split; [done|apply engine_only_refl].
Qed.

Lemma dispatch_total (batch : list ref) : ∀ w,
  ∃ w', foldl (λ acc obj,
                 acc ≫= process_affected_features config host recursion_limit obj)
              (Some w) batch = Some w'
        ∧ engine_only w w'.
Proof.
  induction batch as [|o batch IH]; intros w; [exists w; split; [done|apply engine_only_refl]|].
  cbn [foldl mbind option_bind].
  destruct (process_affected_features_total o w) as (w1 & -> & H1).
  destruct (IH w1) as (w2 & -> & H2).
  exists w2. split; [done|]. by eapply engine_only_trans.
Qed.

Lemma batches_total (bs : list (list ref)) : ∀ w,
  ∃ w', foldl (λ acc batch,
                 foldl (λ acc obj,
                          acc ≫= process_affected_features config host recursion_limit obj)
                       acc batch)
              (Some w) bs = Some w'
        ∧ engine_only w w'.
Proof.
  induction bs as [|b bs IH]; intros w; [exists w; split; [done|apply engine_only_refl]|].
  cbn [foldl].
  destruct (dispatch_total b w) as (w1 & -> & H1).
  destruct (IH w1) as (w2 & -> & H2).
  exists w2. split; [done|]. by eapply engine_only_trans.
Qed.

Lemma on_recompute_timer_total w :
  ∃ w', on_recompute_timer config host recursion_limit w = Some w'
        ∧ task_panel_active w' = task_panel_active w
        ∧ changes_during_task w' = changes_during_task w
        ∧ edit_mode_active w' = edit_mode_active w
        ∧ single_shots w' = single_shots w.
Proof.
  unfold on_recompute_timer.
  case_bool_decide; [by exists w|].
  destruct (suspended w); [by exists w|].
  set (w1 := PrintMessage _ _).
  assert (Hw1 : task_panel_active w1 = task_panel_active w
                ∧ changes_during_task w1 = changes_during_task w
                ∧ edit_mode_active w1 = edit_mode_active w
                ∧ single_shots w1 = single_shots w).
  { unfold w1. destruct (pending_output w); [|done]. cbn.
    destruct (print_changes_bookkeeping w) as ((_ & _ & _ & H1 & H2 & _ & H3) & _ & _ & H4).
    by rewrite H1, H2, H3, H4. }
  destruct (sort_by_dependencies_total w1 (recompute_queue w1)) as [sorted ->]. cbn.
  assert (∃ bs, range_batches (batch_size config) sorted = Some bs) as [bs ->].
  { unfold range_batches. rewrite decide_False by done.
    destruct (decide (batch_size config < 0)%Z); by eexists. }
  cbn.
  destruct (batches_total bs w1) as (w2 & -> & (_ & _ & _ & _ & H5 & H6 & H7 & H8)).
  cbn. eexists. split; [done|]. cbn.
  destruct Hw1 as (A1 & A2 & A3 & A4). by rewrite H5, H6, H7, H8.
Qed.

End Dispatch.

Section DispatchFrame.

Variable config : Config.
Variable host : Reading.
Variable recursion_limit : nat.

Lemma process_affected_features_engine_only obj w w' :
  process_affected_features config host recursion_limit obj w = Some w' →
  engine_only w w'.
Proof.
  unfold process_affected_features. destruct (ActiveDocument w).
  - set (fuel := if decide _ then _ else _).
    destruct (process_with_depth_limit_fingerprinted config host fuel w obj
                (dependency_depth config) ∅ w [] (same_shape_refl w)) as [-> _].
    destruct (fingerprinted _ _ _ _ _) as [[P' calls]|]; [|done].
    cbn. intros [= <-]. apply foldl_step_engine_only.
  - intros [= <-]. apply engine_only_refl.
Qed.

Lemma dispatch_engine_only (batch : list ref) : ∀ w w',
  foldl (λ acc obj, acc ≫= process_affected_features config host recursion_limit obj)
        (Some w) batch = Some w' →
  engine_only w w'.
Proof.
  induction batch as [|o batch IH]; intros w w' Hf.
  { injection Hf as <-. apply engine_only_refl. }
  cbn [foldl mbind option_bind] in Hf.
  destruct (process_affected_features config host recursion_limit o w) as [w1|] eqn:E;
    [|by rewrite foldl_mbind_None in Hf].
  eapply engine_only_trans; [by apply process_affected_features_engine_only in E|by apply IH].
Qed.

Lemma foldl_dispatch_None (bs : list (list ref)) :
  foldl (λ acc batch,
           foldl (λ acc obj,
                    acc ≫= process_affected_features config host recursion_limit obj)
                 acc batch) None bs = None.
Proof. induction bs as [|b bs IH]; [done|]. cbn. by rewrite foldl_mbind_None. Qed.

Lemma batches_engine_only (bs : list (list ref)) : ∀ w w',
  foldl (λ acc batch,
           foldl (λ acc obj,
                    acc ≫= process_affected_features config host recursion_limit obj)
                 acc batch)
        (Some w) bs = Some w' →
  engine_only w w'.
Proof.
  induction bs as [|b bs IH]; intros w w' Hf.
  { injection Hf as <-. apply engine_only_refl. }
  cbn [foldl] in Hf.
  destruct (foldl _ (Some w) b) as [w1|] eqn:E;
    [|by rewrite foldl_dispatch_None in Hf].
  eapply engine_only_trans; [by apply dispatch_engine_only in E|by apply IH].
Qed.

Lemma on_recompute_timer_flags w w' :
  on_recompute_timer config host recursion_limit w = Some w' →
  task_panel_active w' = task_panel_active w
  ∧ changes_during_task w' = changes_during_task w
  ∧ edit_mode_active w' = edit_mode_active w.
Proof.
  unfold on_recompute_timer.
  case_bool_decide; [by intros [= <-]|].
  destruct (suspended w); [by intros [= <-]|].
  set (w1 := PrintMessage _ _).
  assert (Hw1 : task_panel_active w1 = task_panel_active w
                ∧ changes_during_task w1 = changes_during_task w
                ∧ edit_mode_active w1 = edit_mode_active w).
  { unfold w1. destruct (pending_output w); [|done]. cbn.
    destruct (print_changes_bookkeeping w) as ((_ & _ & _ & H1 & H2 & _) & _ & _ & H4).
    by rewrite H1, H2, H4. }
  destruct (sort_by_dependencies w1 (recompute_queue w1)) as [sorted|]; [|done]. cbn.
  destruct (range_batches (batch_size config) sorted) as [bs|]; [|done]. cbn.
  destruct (foldl _ (Some w1) bs) as [w2|] eqn:E; [|done]. cbn. intros [= <-]. cbn.
  apply batches_engine_only in E as (_ & _ & _ & _ & H5 & H6 & H7 & _).
  destruct Hw1 as (A1 & A2 & A3). by rewrite H5, H6, H7.
Qed.

End DispatchFrame.

Lemma flags_kept_refl w : flags_kept w w.
Proof. by repeat split. Qed.

Lemma flags_kept_trans w1 w2 w3 : flags_kept w1 w2 → flags_kept w2 w3 → flags_kept w1 w3.
Proof. intros (A1 & A2 & A3) (B1 & B2 & B3). repeat split; congruence. Qed.

Lemma flags_kept_suspended w w' : flags_kept w w' → suspended w' = suspended w.
Proof. intros (H1 & H2 & _). unfold suspended. by rewrite H1, H2. Qed.

Section Flags.

Variable config : Config.
Variable host : Reading.
Variable recursion_limit : nat.

Lemma foldl_append_new_flags (label : World → string) props : ∀ w,
  flags_kept w (foldl (λ w prop, append_new (label w) prop w) w props).
Proof.
  induction props as [|p props IH]; intros w; [apply flags_kept_refl|].
  cbn. eapply flags_kept_trans; [|apply IH]. by repeat split.
Qed.

Lemma announce_and_schedule_flags w :
  flags_kept w (announce_and_schedule config host w).
Proof.
  unfold announce_and_schedule, start_recompute_timer.
  destruct (pending_output w); destruct (suspended _); by repeat split.
Qed.

Lemma flush_one_unsuspended w d :
  suspended w = false → flags_kept w (flush_one config host w d).
Proof.
  intros Hs. destruct d as [obj props]. unfold flush_one. rewrite Hs.
  set (w1 := set_recompute_queue (py.set_add obj (recompute_queue w)) w).
  apply (flags_kept_trans _ w1); [by repeat split|].
  apply (flags_kept_trans _
           (foldl (λ w prop, append_new (Label (heap w obj)) prop w) w1 props)).
  - apply (foldl_append_new_flags (λ w, Label (heap w obj))).
  - apply announce_and_schedule_flags.
Qed.

Lemma foldl_flush_one_unsuspended l : ∀ w,
  suspended w = false → flags_kept w (foldl (flush_one config host) w l).
Proof.
  induction l as [|d l IH]; intros w Hs; [apply flags_kept_refl|].
  cbn. pose proof (flush_one_unsuspended w d Hs) as Hb.
  eapply flags_kept_trans; [exact Hb|]. apply IH.
  by rewrite (flags_kept_suspended _ _ Hb).
Qed.

Lemma completion_flags f w :
  flags_kept w match f with
               | CheckEditCompletion => check_edit_completion config host w
               | CheckTaskCompletion => check_task_completion config host w
               end.
Proof.
  assert (H : ∀ w0, flags_kept w0 (start_recompute_timer config host (print_changes w0))).
  { intros w0. unfold start_recompute_timer.
    destruct (print_changes_bookkeeping w0) as ((_ & _ & _ & H1 & H2 & _) & _ & _ & H4).
    destruct (suspended _); repeat split; cbn; congruence. }
  destruct f; [unfold check_edit_completion|unfold check_task_completion].
  - destruct (task_panel_active w); [apply flags_kept_refl|].
    destruct (_ && _); [|by repeat split].
    eapply flags_kept_trans; [|apply H]. by repeat split.
  - destruct (edit_mode_active w); [apply flags_kept_refl|].
    destruct (_ && _); [|by repeat split].
    eapply flags_kept_trans; [|apply H]. by repeat split.
Qed.

(** What an event does to the flag of changes. *)
Lemma deliver_flag_cases e w w' :
  deliver config host recursion_limit e w = Some w' →
  changes_during_task w' = false
  ∨ (changes_during_task w' = changes_during_task w
     ∧ (suspended w' = true → suspended w = true))
  ∨ (suspended w = true ∧ accepted config host e w ≠ []).
Proof.
  destruct e as [obj|obj prop| | |gui|e|]; cbn.
  - intros [= <-]. unfold slotCreatedObject.
    destruct (doc_active w && observer_active w); cbn; [|by right; left].
    destruct (throttled config host w); cbn; [by right; left|].
    replace (suspended (set_last_change_time (time_time host) w)) with (suspended w) by done.
    destruct (suspended w) eqn:Hs; [by right; right|].
    right. left.
    set (w1 := set_changed_properties _ _).
    destruct (announce_and_schedule_flags w1) as (H1 & H2 & H3).
    split; [by rewrite H3|]. intros Hs'. rewrite <- Hs. unfold suspended in *.
    by rewrite H1, H2 in Hs'.
  - intros [= <-]. unfold slotChangedObject.
    destruct (doc_active w && observer_active w); cbn; [|by right; left].
    destruct (py.contains prop ignored_props); cbn; [by right; left|].
    destruct (throttled config host w); cbn; [by right; left|].
    replace (suspended (set_last_change_time (time_time host) w)) with (suspended w) by done.
    destruct (suspended w) eqn:Hs; [by right; right|].
    right. left.
    set (w1 := append_new _ _ _).
    destruct (announce_and_schedule_flags w1) as (H1 & H2 & H3).
    split; [by rewrite H3|]. intros Hs'. rewrite <- Hs. unfold suspended in *.
    by rewrite H1, H2 in Hs'.
  - destruct (throttle_timer w) as [deadline|]; [|intros [= <-]; by right; left].
    destruct (due host deadline); [|intros [= <-]; by right; left].
    intros [= <-]. unfold process_throttled_changes. cbn.
    destruct (suspended w) eqn:Hs.
    + destruct (throttle_queue w) as [|d q] eqn:Hq; [by right; left|].
      right. right. done.
    + right. left. cbn.
      pose proof (foldl_flush_one_unsuspended (map snd (throttle_queue w))
                    (set_throttle_timer None w) Hs) as (H1 & H2 & H3).
      split; [exact H3|]. intros Hs'. rewrite <- Hs, <- Hs'.
      unfold suspended. cbn. by rewrite H1, H2.
  - destruct (recompute_timer w) as [deadline|]; [|intros [= <-]; by right; left].
    destruct (due host deadline); [|intros [= <-]; by right; left].
    intros Hr. apply on_recompute_timer_flags in Hr as (H1 & H2 & H3).
    right. left. split; [done|]. unfold suspended. by rewrite H1, H3.
  - intros [= <-]. unfold check_edit_mode.
    destruct (negb _); [by right; left|].
    destruct (gui_raises gui); [by right; left|].
    case_bool_decide; [|by right; left].
    destruct (probe_in_edit gui); [by left|].
    right. left. split; [done|]. unfold suspended. cbn. intros ->. apply orb_true_r.
  - intros [= <-]. unfold eventFilter.
    destruct (negb _); [by right; left|].
    destruct e as [[name|]|[name|]|]; try (by right; left).
    + destruct (_ && _); [by left|by right; left].
    + destruct (py.contains _ _); [|by right; left].
      case_bool_decide; [|by right; left].
      right. left. split; [done|]. unfold suspended. cbn. rewrite orb_false_r.
      intros ->. done.
  - destruct (single_shots w) as [|[deadline f] rest]; [intros [= <-]; by right; left|].
    destruct (due host deadline); [|intros [= <-]; by right; left].
    intros [= <-].
    destruct (completion_flags f (set_single_shots rest w)) as (H1 & H2 & H3).
    right. left. split; [by rewrite H3|]. unfold suspended. by rewrite H1, H2.
Qed.

End Flags.

(** ** The exit of suspension *)

Section Exit.

Variable config : Config.
Variable recursion_limit : nat.

(** Entering suspension resets the flag of changes. *)
Lemma entering_resets_flag host e w w' :
  suspended w = false →
  deliver config host recursion_limit e w = Some w' →
  suspended w' = true →
  changes_during_task w' = false.
Proof.
  intros Hs Hd Hs'.
  destruct (deliver_flag_cases config host recursion_limit e w w' Hd)
    as [H|[[_ H]|[H _]]]; [done|..].
  - rewrite (H Hs') in Hs. done.
  - rewrite H in Hs. done.
Qed.

(** The flag is raised by nothing but a change accepted under suspension. *)
Lemma run_keeps_flag_down trace : ∀ w w',
  run config recursion_limit trace w = Some w' →
  changes_during_task w = false →
  Forall (λ a, a.1 = false) (acceptances config recursion_limit trace w) →
  changes_during_task w' = false.
Proof.
  induction trace as [|[host e] trace IH]; intros w w' Hrun Hflag Hacc; cbn in *.
  { by injection Hrun as <-. }
  destruct (deliver config host recursion_limit e w) as [w1|] eqn:Hd; [|done].
  cbn in Hrun. apply Forall_app in Hacc as [Hnow Hlater].
  apply (IH w1 w' Hrun); [|done].
  destruct (deliver_flag_cases config host recursion_limit e w w1 Hd)
    as [H|[[H _]|[Hs Hne]]]; [done|congruence|].
  destruct (accepted config host e w) as [|a l]; [done|].
  cbn in Hnow. apply Forall_cons in Hnow as [Ha _]. cbn in Ha. congruence.
Qed.

(** The exit handler in a world where no change was recorded. *)
Lemma exit_handler_discards host w deadline f rest :
  suspended w = false →
  changes_during_task w = false →
  single_shots w = (deadline, f) :: rest →
  (deadline ≤ time_time host)%Z →
  ∃ w', deliver config host recursion_limit SingleShotTimeout w = Some w'
        ∧ recompute_queue w' = [] ∧ changed_properties w' = ∅
        ∧ recompute_timer w' = recompute_timer w
        ∧ heap w' = heap w ∧ feature_cache w' = feature_cache w
        ∧ suspended w' = false.
Proof.
  intros Hs Hflag Hshots Hdue. cbn. rewrite Hshots.
  unfold due. rewrite bool_decide_eq_true_2 by done.
  apply orb_false_iff in Hs as [Hedit Htask].
  eexists. split; [done|].
  destruct f; [unfold check_edit_completion|unfold check_task_completion]; cbn.
  - rewrite Htask, Hflag. cbn. unfold suspended. cbn. rewrite Hedit, Htask. done.
  - rewrite Hedit, Hflag. cbn. unfold suspended. cbn. rewrite Hedit, Htask. done.
Qed.

End Exit.

(** C8.  Suspension is entered from the normal state, no change is accepted
    while it lasts, and it is left with both flags down: the exit handler,
    once due, returns with [recompute_queue] and [changed_properties] empty,
    and with the recompute timer, the objects and the cache as it found
    them. *)
Theorem C8_exit_without_changes_discards_and_schedules_nothing
    (config : Config) (recursion_limit : nat) (w0 w1 w2 : World)
    (enter : Reading * event) (window : list (Reading * event)) (host : Reading)
    (deadline : Z) (f : callback) (rest : list (Z * callback)) :
  suspended w0 = false →
  deliver config enter.1 recursion_limit enter.2 w0 = Some w1 →
  suspended w1 = true →
  run config recursion_limit window w1 = Some w2 →
  Forall (λ a, a.1 = false) (acceptances config recursion_limit window w1) →
  suspended w2 = false →
  single_shots w2 = (deadline, f) :: rest →
  (deadline ≤ time_time host)%Z →
  ∃ w3,
    deliver config host recursion_limit SingleShotTimeout w2 = Some w3
    ∧ recompute_queue w3 = []
    ∧ changed_properties w3 = ∅
    ∧ recompute_timer w3 = recompute_timer w2
    ∧ heap w3 = heap w2
    ∧ feature_cache w3 = feature_cache w2.
Proof.
  intros Hs0 Henter Hs1 Hrun Hquiet Hs2 Hshots Hdue.
  pose proof (entering_resets_flag config recursion_limit enter.1 enter.2 w0 w1
                Hs0 Henter Hs1) as Hflag1.
  pose proof (run_keeps_flag_down config recursion_limit window w1 w2
                Hrun Hflag1 Hquiet) as Hflag2.
  destruct (exit_handler_discards config recursion_limit host w2 deadline f rest
              Hs2 Hflag2 Hshots Hdue) as (w3 & H1 & H2 & H3 & H4 & H5 & H6 & _).
  by exists w3.
Qed.

Section Edges.

Variable config : Config.
Variable recursion_limit : nat.

(** Only the two observers of the GUI move the busy flags. *)
Lemma deliver_keeps_suspension host e w w' :
  deliver config host recursion_limit e w = Some w' →
  (∀ gui, e ≠ EditCheckTimeout gui) → (∀ q, e ≠ MainWindowEvent q) →
  suspended w' = suspended w.
Proof.
  intros Hd He1 He2. destruct e as [obj|obj prop| | |gui|q|]; cbn in Hd.
  - injection Hd as <-. destruct (suspended w) eqn:Hs.
    + rewrite <- Hs. by apply bookkeeping_suspended, slotCreatedObject_suspended.
    + unfold slotCreatedObject.
      destruct (negb _); [done|]. destruct (throttled config host w); [done|].
      replace (suspended (set_last_change_time (time_time host) w)) with (suspended w) by done.
      rewrite Hs. set (w1 := set_changed_properties _ _).
      by rewrite (flags_kept_suspended _ _ (announce_and_schedule_flags config host w1)).
  - injection Hd as <-. destruct (suspended w) eqn:Hs.
    + rewrite <- Hs. by apply bookkeeping_suspended, slotChangedObject_suspended.
    + unfold slotChangedObject.
      destruct (negb _ || _); [done|]. destruct (throttled config host w); [done|].
      replace (suspended (set_last_change_time (time_time host) w)) with (suspended w) by done.
      rewrite Hs. set (w1 := append_new _ _ _).
      by rewrite (flags_kept_suspended _ _ (announce_and_schedule_flags config host w1)).
  - destruct (throttle_timer w) as [deadline|]; [|by injection Hd as <-].
    destruct (due host deadline); [|by injection Hd as <-].
    injection Hd as <-. destruct (suspended w) eqn:Hs.
    + rewrite <- Hs.
      by rewrite (bookkeeping_suspended _ _
                    (process_throttled_changes_suspended config host
                       (set_throttle_timer None w) Hs)).
    + unfold process_throttled_changes.
      pose proof (foldl_flush_one_unsuspended config host (map snd (throttle_queue w))
                    (set_throttle_timer None w) Hs) as Hk.
      apply flags_kept_suspended in Hk. rewrite <- Hs. exact Hk.
  - destruct (recompute_timer w) as [deadline|]; [|by injection Hd as <-].
    destruct (due host deadline); [|by injection Hd as <-].
    apply on_recompute_timer_flags in Hd as (H1 & _ & H3).
    unfold suspended. by rewrite H1, H3.
  - by destruct (He1 gui).
  - by destruct (He2 q).
  - destruct (single_shots w) as [|[deadline f] rest]; [by injection Hd as <-|].
    destruct (due host deadline); [|by injection Hd as <-].
    injection Hd as <-.
    by rewrite (flags_kept_suspended _ _
                  (completion_flags config host f (set_single_shots rest w))).
Qed.

(** An event that changes the suspension state fingerprints nothing. *)
Lemma edge_unscheduled host e w w' :
  deliver config host recursion_limit e w = Some w' →
  suspended w' ≠ suspended w →
  unscheduled w w'.
Proof.
  intros Hd Hne.
  destruct e as [obj|obj prop| | |gui|q|];
    try (destruct Hne; by apply (deliver_keeps_suspension host _ w w' Hd)).
  - injection Hd as <-. apply check_edit_mode_unscheduled.
  - injection Hd as <-. apply eventFilter_unscheduled.
Qed.

End Edges.

(** An edit session opened at time 1000 and closed at time 1200 with
    nothing changed; the exit handler runs at time 1300. *)
Lemma C8_witness :
  ∃ w3,
    deliver default_config (reading 1300 "2024-05-01 10:00:01") 0 SingleShotTimeout
      (check_edit_mode (reading 1200 "2024-05-01 10:00:01") gui_idle editing) = Some w3
    ∧ recompute_queue w3 = [] ∧ changed_properties w3 = ∅.
Proof.
  destruct (C8_exit_without_changes_discards_and_schedules_nothing
              default_config 0 one_box editing
              (check_edit_mode (reading 1200 "2024-05-01 10:00:01") gui_idle editing)
              (reading 1000 "2024-05-01 10:00:01", EditCheckTimeout gui_editing)
              [(reading 1200 "2024-05-01 10:00:01", EditCheckTimeout gui_idle)]
              (reading 1300 "2024-05-01 10:00:01")
              1300%Z CheckEditCompletion [])
    as (w3 & H1 & H2 & H3 & _).
  - reflexivity.
  - reflexivity.
  - reflexivity.
  - reflexivity.
  - vm_compute. constructor.
  - reflexivity.
  - reflexivity.
  - vm_compute. discriminate.
  - exists w3. split; [exact H1|]. split; [exact H2|exact H3].
Defined.

(** ** The throttle *)

(** What [changed_properties] holds for [label] is kept by later appends. *)
Lemma append_new_mono label prop p w :
  p ∈ defaultdict_get (changed_properties w) label →
  p ∈ defaultdict_get (changed_properties (append_new label prop w)) label.
Proof.
  intros Hp. unfold append_new. cbn. unfold defaultdict_get at 1.
  rewrite lookup_insert_eq. cbn.
  destruct (py.contains prop _); [done|]. apply elem_of_app. by left.
Qed.

Lemma foldl_append_new_elem obj props : ∀ w,
  let w' := foldl (λ w prop, append_new (Label (heap w obj)) prop w) w props in
  heap w' = heap w
  ∧ recompute_queue w' = recompute_queue w
  ∧ throttle_timer w' = throttle_timer w
  ∧ (∀ p, p ∈ defaultdict_get (changed_properties w) (Label (heap w obj)) →
          p ∈ defaultdict_get (changed_properties w') (Label (heap w obj)))
  ∧ (∀ p, p ∈ props →
          p ∈ defaultdict_get (changed_properties w') (Label (heap w obj))).
Proof.
  induction props as [|q props IH]; intros w w'; subst w'.
  { cbn. repeat split; try done. intros p Hp. by apply elem_of_nil in Hp. }
  cbn [foldl].
  destruct (IH (append_new (Label (heap w obj)) q w)) as (H1 & H2 & H3 & H4 & H5).
  change (heap (append_new (Label (heap w obj)) q w)) with (heap w) in *.
  split; [done|]. split; [done|]. split; [done|]. split.
  - intros p Hp. apply H4. by apply append_new_mono.
  - intros p Hp. apply elem_of_cons in Hp as [->|Hp]; [|by apply H5].
    apply H4. apply append_new_elem.
Qed.

Section Throttle.

Variable config : Config.
Variable recursion_limit : nat.

Lemma announce_and_schedule_record host w :
  let w' := announce_and_schedule config host w in
  heap w' = heap w ∧ recompute_queue w' = recompute_queue w
  ∧ throttle_timer w' = throttle_timer w
  ∧ changed_properties w' = changed_properties w.
Proof.
  unfold announce_and_schedule, start_recompute_timer.
  destruct (pending_output w); destruct (suspended _); by repeat split.
Qed.

Lemma flush_one_record host w obj props :
  let w' := flush_one config host w (obj, props) in
  throttle_timer w' = throttle_timer w
  ∧ recompute_queue w' = py.set_add obj (recompute_queue w)
  ∧ ∀ p, p ∈ props →
         p ∈ defaultdict_get (changed_properties w') (Label (heap w obj)).
Proof.
  unfold flush_one.
  set (w1 := set_recompute_queue (py.set_add obj (recompute_queue w)) w).
  destruct (foldl_append_new_elem obj props w1) as (H1 & H2 & H3 & _ & H5).
  set (w2 := foldl _ w1 props) in *.
  change (heap w1) with (heap w) in *.
  destruct (suspended w).
  - cbn. split; [done|]. split; [done|]. done.
  - cbn. destruct (announce_and_schedule_record host w2) as (_ & G2 & G3 & G4).
    rewrite G2, G3, G4. split; [done|]. split; [done|]. done.
Qed.

Variable obj : ref.
Variable w0 : World.

Hypothesis listening : doc_active w0 && observer_active w0 = true.

(** A throttled change only reaches the buffer of the throttle. *)
Lemma slotChangedObject_throttled host prop w :
  doc_active w && observer_active w = true →
  py.contains prop ignored_props = false →
  (time_time host - last_change_time w < throttle_interval config)%Z →
  slotChangedObject config host obj prop w = queue_change config host obj [prop] w
  ∧ accepted config host (ChangedObject obj prop) w = [].
Proof.
  intros Hl Hp Ht. unfold slotChangedObject, accepted, throttled.
  rewrite Hl, Hp. cbn. by rewrite (bool_decide_eq_true_2 _ Ht).
Qed.

Lemma burst_buffered burst : ∀ props deadline,
  Forall (λ hp, py.contains hp.2 ignored_props = false) burst →
  Forall (λ hp, time_time hp.1 - last_change_time w0 < throttle_interval config)%Z burst →
  run config recursion_limit (burst_events obj burst) (buffered obj props deadline w0)
  = Some (buffered obj (foldl (λ s p, py.set_add p s) props (snd <$> burst))
            (rearmed config deadline burst) w0)
  ∧ acceptances config recursion_limit (burst_events obj burst)
      (buffered obj props deadline w0) = [].
Proof.
  induction burst as [|[host prop] burst IH]; intros props deadline Hp Ht; [done|].
  apply Forall_cons in Hp as [Hp Hps]. apply Forall_cons in Ht as [Ht Hts].
  cbn in Hp, Ht. cbn [burst_events fmap list_fmap run acceptances fst snd deliver].
  destruct (slotChangedObject_throttled host prop (buffered obj props deadline w0))
    as [-> ->]; [done..|].
  replace (queue_change config host obj [prop] (buffered obj props deadline w0))
    with (buffered obj (py.set_add prop props)
            (time_time host + throttle_interval config) w0).
  2:{ unfold queue_change, buffered. cbn. by rewrite decide_True. }
  cbn. apply (IH _ _ Hps Hts).
Qed.

Lemma rearmed_last deadline burst host prop :
  rearmed config deadline (burst ++ [(host, prop)])
  = (time_time host + throttle_interval config)%Z.
Proof. unfold rearmed. by rewrite foldl_app. Qed.

End Throttle.

Lemma burst_props_elem burst p : p ∈ burst_props burst ↔ p ∈ burst.*2.
Proof.
  unfold burst_props.
  assert (∀ l s, p ∈ foldl (λ s p, py.set_add p s) s l ↔ p ∈ s ∨ p ∈ l) as H.
  { induction l as [|q l IH]; intros s; cbn.
    - split; [by left|]. intros [H|H]; [done|]. by apply elem_of_nil in H.
    - rewrite IH. unfold py.set_add. destruct (py.contains q s) eqn:E.
      + apply contains_true in E. rewrite elem_of_cons.
        split; [intros [?|?]; auto|]. intros [?|[->|?]]; auto.
      + set_solver. }
  rewrite H. split; [|by right]. intros [Hp|Hp]; [|done]. by apply elem_of_nil in Hp.
Qed.

Lemma burst_props_NoDup burst : NoDup (burst_props burst).
Proof.
  unfold burst_props.
  assert (∀ l (s : list string), NoDup s → NoDup (foldl (λ s p, py.set_add p s) s l)) as H.
  { induction l as [|q l IH]; intros s Hs; [done|]. cbn. apply IH.
    unfold py.set_add. destruct (py.contains q s) eqn:E; [done|].
    apply NoDup_app. split; [done|]. split; [|apply NoDup_singleton].
    intros x Hx Hq. apply list_elem_of_singleton in Hq as ->.
    apply contains_true in Hx. congruence. }
  apply H. constructor.
Qed.

Lemma run_app config rl t1 t2 : ∀ w,
  run config rl (t1 ++ t2) w = run config rl t1 w ≫= run config rl t2.
Proof.
  induction t1 as [|[host e] t1 IH]; intros w; [done|]. cbn.
  destruct (deliver config host rl e w) as [w'|]; [|done]. cbn. apply IH.
Qed.

Lemma acceptances_app config rl t1 t2 : ∀ w,
  acceptances config rl (t1 ++ t2) w
  = acceptances config rl t1 w
    ++ match run config rl t1 w with
       | Some w' => acceptances config rl t2 w'
       | None => []
       end.
Proof.
  induction t1 as [|[host e] t1 IH]; intros w; [done|]. cbn.
  rewrite <- app_assoc. f_equal.
  destruct (deliver config host rl e w) as [w'|]; [|done]. cbn. apply IH.
Qed.

Section Burst.

Variable config : Config.
Variable recursion_limit : nat.
Variable obj : ref.
Variable w0 : World.

Hypothesis listening : doc_active w0 && observer_active w0 = true.
Hypothesis idle : throttle_queue w0 = [].

(** A burst that starts on an empty buffer. *)
Lemma burst_from_idle first rest :
  Forall (λ hp, py.contains hp.2 ignored_props = false) (first :: rest) →
  Forall (λ hp, time_time hp.1 - last_change_time w0 < throttle_interval config)%Z
         (first :: rest) →
  run config recursion_limit (burst_events obj (first :: rest)) w0
  = Some (buffered obj (burst_props (first :: rest))
            (rearmed config 0 (first :: rest)) w0)
  ∧ acceptances config recursion_limit (burst_events obj (first :: rest)) w0 = [].
Proof.
  intros Hp Ht.
  apply Forall_cons in Hp as [Hp Hps]. apply Forall_cons in Ht as [Ht Hts].
  destruct first as [host prop]. cbn in Hp, Ht.
  cbn [burst_events fmap list_fmap run acceptances fst snd deliver].
  destruct (slotChangedObject_throttled config obj host prop w0) as [-> ->]; [done..|].
  replace (queue_change config host obj [prop] w0)
    with (buffered obj [prop] (time_time host + throttle_interval config) w0).
  2:{ unfold queue_change, buffered. by rewrite idle. }
  cbn. apply (burst_buffered config recursion_limit obj w0 listening rest _ _ Hps Hts).
Qed.

End Burst.

(** C6, as amended.  A burst of changes of one object, each arriving less
    than [throttle_interval] after the last accepted change
    ([last_change_time]), on an empty buffer of the throttle.  No event of the
    burst is accepted on arrival; the burst leaves the world as it was but for
    the buffer, which holds the property names of the burst for the object,
    and the throttle timer, which is due one interval after the last event; a
    firing before that time does nothing; the firing at that time or later
    sends exactly one aggregation down the acceptance path, with all the
    property names of the burst, each once, empties the buffer and sets
    [last_change_time]. *)
Theorem C6_burst_inside_the_interval_of_the_last_acceptance_is_flushed_once
    (config : Config) (recursion_limit : nat) (obj : ref) (w0 : World)
    (burst : list (Reading * string)) (last : Reading * string) (fire : Reading) :
  doc_active w0 && observer_active w0 = true →
  throttle_queue w0 = [] →
  Forall (λ hp, py.contains hp.2 ignored_props = false) (burst ++ [last]) →
  Forall (λ hp, time_time hp.1 - last_change_time w0 < throttle_interval config)%Z
         (burst ++ [last]) →
  (time_time last.1 + throttle_interval config ≤ time_time fire)%Z →
  run config recursion_limit (burst_events obj (burst ++ [last])) w0
  = Some (buffered obj (burst_props (burst ++ [last]))
            (time_time last.1 + throttle_interval config) w0)
  ∧ acceptances config recursion_limit (burst_events obj (burst ++ [last])) w0 = []
  ∧ (∀ early,
       (time_time early < time_time last.1 + throttle_interval config)%Z →
       run config recursion_limit
         (burst_events obj (burst ++ [last]) ++ [(early, ThrottleTimeout)]) w0
       = run config recursion_limit (burst_events obj (burst ++ [last])) w0
       ∧ acceptances config recursion_limit
           (burst_events obj (burst ++ [last]) ++ [(early, ThrottleTimeout)]) w0 = [])
  ∧ acceptances config recursion_limit
      (burst_events obj (burst ++ [last]) ++ [(fire, ThrottleTimeout)]) w0
    = [(suspended w0, (obj, burst_props (burst ++ [last])))]
  ∧ (∃ w2,
       run config recursion_limit
         (burst_events obj (burst ++ [last]) ++ [(fire, ThrottleTimeout)]) w0 = Some w2
       ∧ throttle_queue w2 = [] ∧ throttle_timer w2 = None
       ∧ last_change_time w2 = time_time fire
       ∧ recompute_queue w2 = py.set_add obj (recompute_queue w0)
       ∧ ∀ p, p ∈ burst_props (burst ++ [last]) →
              p ∈ defaultdict_get (changed_properties w2) (Label (heap w0 obj)))
  ∧ (∀ p, p ∈ burst_props (burst ++ [last]) ↔ p ∈ (burst ++ [last]).*2)
  ∧ NoDup (burst_props (burst ++ [last])).
Proof.
  intros Hl Hq Hp Ht Hfire.
  assert (run config recursion_limit (burst_events obj (burst ++ [last])) w0
          = Some (buffered obj (burst_props (burst ++ [last]))
                    (time_time last.1 + throttle_interval config) w0)
          ∧ acceptances config recursion_limit (burst_events obj (burst ++ [last])) w0 = [])
    as [Hrun Hacc].
  { destruct last as [hlast plast]. cbn [fst].
    rewrite <- (rearmed_last config 0 burst hlast plast).
    destruct (burst ++ [(hlast, plast)]) as [|first rest] eqn:E.
    { by destruct burst. }
    by apply burst_from_idle. }
  set (props := burst_props (burst ++ [last])) in *.
  set (deadline := (time_time last.1 + throttle_interval config)%Z) in *.
  split; [done|]. split; [done|]. split; [|split; [|split; [|split]]].
  - intros early Hearly. rewrite run_app, acceptances_app, Hrun, Hacc. cbn.
    unfold due. rewrite bool_decide_eq_false_2 by lia. done.
  - rewrite acceptances_app, Hrun, Hacc. cbn.
    unfold due. rewrite bool_decide_eq_true_2 by lia. done.
  - rewrite run_app, Hrun. cbn. unfold due. rewrite bool_decide_eq_true_2 by lia.
    eexists. split; [done|]. unfold process_throttled_changes. cbn.
    destruct (flush_one_record config fire
                (set_throttle_timer None (buffered obj props deadline w0)) obj props)
      as (H1 & H2 & H3).
    split; [done|]. split; [done|]. split; [done|]. split; [done|]. exact H3.
  - intros p. apply burst_props_elem.
  - apply burst_props_NoDup.
Qed.

(** Three changes of the box within 100 ms of the start of the observer. *)
Lemma C6_witness :
  acceptances default_config 0
    (burst_events 0
       [ (reading 1020 "2024-05-01 10:00:01", "Length");
         (reading 1050 "2024-05-01 10:00:01", "Width");
         (reading 1080 "2024-05-01 10:00:01", "Length") ]
     ++ [(reading 1180 "2024-05-01 10:00:01", ThrottleTimeout)])
    (fresh_world (λ _, box "Box" "10.0 mm" (Some 10%Z) []) 1000)
  = [(false, (0, ["Length"; "Width"]))].
Proof.
  apply (C6_burst_inside_the_interval_of_the_last_acceptance_is_flushed_once
           default_config 0 0
           (fresh_world (λ _, box "Box" "10.0 mm" (Some 10%Z) []) 1000)
           [ (reading 1020 "2024-05-01 10:00:01", "Length");
             (reading 1050 "2024-05-01 10:00:01", "Width") ]
           (reading 1080 "2024-05-01 10:00:01", "Length")
           (reading 1180 "2024-05-01 10:00:01")).
  - reflexivity.
  - reflexivity.
  - repeat constructor.
  - repeat constructor.
  - vm_compute. discriminate.
Defined.

(** C6 as stated fails: three changes, each less than 100 ms after the one
    before, the first 50 ms after the last accepted change.  The second
    arrives 110 ms after that change and is accepted at once on its own; the
    flush accepts the other two.  Two aggregations, neither of which is the
    union. *)
Lemma C6_counterexample :
  let burst :=
    [ (reading 1000 "2024-05-01 10:00:01", "Length");
      (reading 1060 "2024-05-01 10:00:01", "Width");
      (reading 1120 "2024-05-01 10:00:01", "Height") ] in
  (1000 - 950 < throttle_interval default_config
   ∧ 1060 - 1000 < throttle_interval default_config
   ∧ 1120 - 1060 < throttle_interval default_config
   ∧ 1120 + throttle_interval default_config ≤ 1220)%Z
  ∧ acceptances default_config 0
      (burst_events 0 burst ++ [(reading 1220 "2024-05-01 10:00:01", ThrottleTimeout)])
      (fresh_world (λ _, box "Box" "10.0 mm" (Some 10%Z) []) 950)
    = [(false, (0, ["Width"])); (false, (0, ["Length"; "Height"]))].
Proof.
  split; [cbn; lia|]. vm_compute. reflexivity.
Qed.

(** ** What reaches the fingerprint engine *)

Lemma unfingerprinted_refl w : unfingerprinted w w.
Proof. by split. Qed.

Lemma unfingerprinted_trans w1 w2 w3 :
  unfingerprinted w1 w2 → unfingerprinted w2 w3 → unfingerprinted w1 w3.
Proof. intros [A1 A2] [B1 B2]. split; congruence. Qed.

Lemma bookkeeping_unfingerprinted w w' : bookkeeping w w' → unfingerprinted w w'.
Proof. intros (H1 & H2 & _). by split. Qed.

Lemma unscheduled_unfingerprinted w w' : unscheduled w w' → unfingerprinted w w'.
Proof. intros (H1 & H2 & _). by split. Qed.

Section Quiet.

Variable config : Config.
Variable recursion_limit : nat.

Lemma announce_and_schedule_unfingerprinted host w :
  unfingerprinted w (announce_and_schedule config host w).
Proof.
  unfold announce_and_schedule, start_recompute_timer.
  destruct (pending_output w); destruct (suspended _); by split.
Qed.

Lemma slotCreatedObject_unfingerprinted host obj w :
  unfingerprinted w (slotCreatedObject config host obj w).
Proof.
  unfold slotCreatedObject.
  destruct (negb _); [by split|]. destruct (throttled config host w); [by split|].
  destruct (suspended _); [by split|].
  set (w1 := set_changed_properties _ _).
  apply (unfingerprinted_trans _ w1); [by split|].
  apply announce_and_schedule_unfingerprinted.
Qed.

Lemma slotChangedObject_unfingerprinted host obj prop w :
  unfingerprinted w (slotChangedObject config host obj prop w).
Proof.
  unfold slotChangedObject.
  destruct (negb _ || _); [by split|]. destruct (throttled config host w); [by split|].
  destruct (suspended _); [by split|].
  set (w1 := append_new _ _ _).
  apply (unfingerprinted_trans _ w1); [by split|].
  apply announce_and_schedule_unfingerprinted.
Qed.

Lemma flush_one_unfingerprinted host w d :
  unfingerprinted w (flush_one config host w d).
Proof.
  destruct d as [obj props]. unfold flush_one.
  set (w1 := set_recompute_queue (py.set_add obj (recompute_queue w)) w).
  set (w2 := foldl _ w1 props).
  assert (unfingerprinted w w2) as H12.
  { apply (unfingerprinted_trans _ w1); [by split|].
    apply bookkeeping_unfingerprinted.
    apply (foldl_append_new_bookkeeping (λ w, Label (heap w obj))). }
  destruct (suspended w).
  - apply (unfingerprinted_trans _ w2); [done|by split].
  - apply (unfingerprinted_trans _ w2); [done|].
    apply announce_and_schedule_unfingerprinted.
Qed.

Lemma foldl_flush_one_unfingerprinted host l : ∀ w,
  unfingerprinted w (foldl (flush_one config host) w l).
Proof.
  induction l as [|d l IH]; intros w; [apply unfingerprinted_refl|]. cbn.
  apply (unfingerprinted_trans _ (flush_one config host w d)); [|apply IH].
  apply flush_one_unfingerprinted.
Qed.

Lemma completion_unfingerprinted host f w :
  unfingerprinted w
    match f with
    | CheckEditCompletion => check_edit_completion config host w
    | CheckTaskCompletion => check_task_completion config host w
    end.
Proof.
  assert (∀ w0, unfingerprinted w0 (start_recompute_timer config host w0)) as Hstart.
  { intros w0. unfold start_recompute_timer. destruct (suspended w0); by split. }
  destruct f; [unfold check_edit_completion|unfold check_task_completion].
  - destruct (task_panel_active w); [by split|].
    destruct (_ && _); [|by split].
    set (w1 := PrintMessage _ (set_pending_output true _)).
    apply (unfingerprinted_trans _ w1); [by split|].
    apply (unfingerprinted_trans _ (print_changes w1)); [|apply Hstart].
    apply bookkeeping_unfingerprinted, print_changes_bookkeeping.
  - destruct (edit_mode_active w); [by split|].
    destruct (_ && _); [|by split].
    set (w1 := PrintMessage _ (set_pending_output true _)).
    apply (unfingerprinted_trans _ w1); [by split|].
    apply (unfingerprinted_trans _ (print_changes w1)); [|apply Hstart].
    apply bookkeeping_unfingerprinted, print_changes_bookkeeping.
Qed.

(** Only the dispatch of the recompute timer reaches the fingerprint engine. *)
Lemma deliver_unfingerprinted host e w w' :
  deliver config host recursion_limit e w = Some w' →
  dispatching host e w = false →
  unfingerprinted w w'.
Proof.
  intros Hd Hq. destruct e as [obj|obj prop| | |gui|q|]; cbn in Hd, Hq.
  - injection Hd as <-. apply slotCreatedObject_unfingerprinted.
  - injection Hd as <-. apply slotChangedObject_unfingerprinted.
  - destruct (throttle_timer w) as [deadline|]; [|by injection Hd as <-].
    destruct (due host deadline); [|by injection Hd as <-].
    injection Hd as <-. unfold process_throttled_changes.
    set (w1 := foldl _ _ _).
    apply (unfingerprinted_trans _ w1); [|by split].
    apply (unfingerprinted_trans _ (set_throttle_timer None w)); [by split|].
    apply foldl_flush_one_unfingerprinted.
  - destruct (recompute_timer w) as [deadline|]; [|by injection Hd as <-].
    destruct (due host deadline); [|by injection Hd as <-].
    unfold on_recompute_timer in Hd.
    change (recompute_queue (set_recompute_timer None w)) with (recompute_queue w) in Hd.
    change (suspended (set_recompute_timer None w)) with (suspended w) in Hd.
    cbn in Hq.
    destruct (bool_decide (recompute_queue w = [])); [by injection Hd as <-|].
    destruct (suspended w); [by injection Hd as <-|]. done.
  - injection Hd as <-. apply unscheduled_unfingerprinted, check_edit_mode_unscheduled.
  - injection Hd as <-. apply unscheduled_unfingerprinted, eventFilter_unscheduled.
  - destruct (single_shots w) as [|[deadline f] rest]; [by injection Hd as <-|].
    destruct (due host deadline); [|by injection Hd as <-].
    injection Hd as <-.
    apply (unfingerprinted_trans _ (set_single_shots rest w)); [by split|].
    apply completion_unfingerprinted.
Qed.

Lemma run_unfingerprinted trace : ∀ w w',
  run config recursion_limit trace w = Some w' →
  dispatches config recursion_limit trace w = [] →
  unfingerprinted w w'.
Proof.
  induction trace as [|[host e] trace IH]; intros w w' Hrun Hq; cbn in *.
  { injection Hrun as <-. apply unfingerprinted_refl. }
  destruct (deliver config host recursion_limit e w) as [w1|] eqn:Hd; [|done].
  cbn in Hrun. apply app_eq_nil in Hq as [Hnow Hlater].
  apply (unfingerprinted_trans _ w1); [|by apply IH].
  apply (deliver_unfingerprinted host e); [done|].
  by destruct (dispatching host e w).
Qed.

End Quiet.

(** C10, as amended.  Changes are pending when suspension is entered, none
    is accepted while it lasts, and the recompute timer does not dispatch
    between the exit from suspension and the exit handler.  After the exit
    handler [recompute_queue] and [changed_properties] are empty, whatever
    they held before the suspension; the objects and the cache are those of
    the moment before the suspension, so nothing was fingerprinted in
    between; and a later firing of the recompute timer finds nothing to
    do. *)
Theorem C10_changes_pending_before_suspension_are_discarded_unfingerprinted
    (config : Config) (recursion_limit : nat) (w0 w1 w2 : World)
    (enter : Reading * event) (window : list (Reading * event))
    (host : Reading) (deadline : Z) (f : callback) (rest : list (Z * callback)) :
  suspended w0 = false →
  deliver config enter.1 recursion_limit enter.2 w0 = Some w1 →
  suspended w1 = true →
  run config recursion_limit window w1 = Some w2 →
  Forall (λ a, a.1 = false) (acceptances config recursion_limit window w1) →
  dispatches config recursion_limit window w1 = [] →
  suspended w2 = false →
  single_shots w2 = (deadline, f) :: rest →
  (deadline ≤ time_time host)%Z →
  ∃ w3,
    deliver config host recursion_limit SingleShotTimeout w2 = Some w3
    ∧ recompute_queue w3 = []
    ∧ changed_properties w3 = ∅
    ∧ heap w3 = heap w0
    ∧ feature_cache w3 = feature_cache w0
    ∧ ∀ host', on_recompute_timer config host' recursion_limit w3 = Some w3.
Proof.
  intros Hs0 Henter Hs1 Hrun Hquiet Hnone Hs2 Hshots Hdue.
  pose proof (entering_resets_flag config recursion_limit enter.1 enter.2 w0 w1
                Hs0 Henter Hs1) as Hflag1.
  pose proof (run_keeps_flag_down config recursion_limit window w1 w2 Hrun Hflag1 Hquiet)
    as Hflag2.
  destruct (edge_unscheduled config recursion_limit enter.1 enter.2 w0 w1 Henter)
    as (Hh01 & Hc01 & _); [congruence|].
  destruct (run_unfingerprinted config recursion_limit window w1 w2 Hrun Hnone)
    as [Hh12 Hc12].
  destruct (exit_handler_discards config recursion_limit host w2 deadline f rest
              Hs2 Hflag2 Hshots Hdue) as (w3 & H1 & H2 & H3 & H4 & H5 & H6 & _).
  exists w3. split; [done|]. split; [done|]. split; [done|].
  split; [congruence|]. split; [congruence|].
  intros host'. unfold on_recompute_timer. by rewrite H2.
Qed.

(** A change of the length of the box waits in the queue when the edit
    session opens at time 600; its timer fires at time 900 into the open
    session, the session closes at time 1200 and the exit handler runs at
    time 1300. *)
Lemma C10_witness :
  recompute_queue pending = [0]
  ∧ ∃ w3,
      deliver default_config (reading 1300 "2024-05-01 10:00:01") 0 SingleShotTimeout
        (check_edit_mode (reading 1200 "2024-05-01 10:00:01") gui_idle
           (set_recompute_timer None
              (check_edit_mode (reading 600 "2024-05-01 10:00:00") gui_editing pending)))
      = Some w3
      ∧ recompute_queue w3 = []
      ∧ changed_properties w3 = ∅
      ∧ heap w3 = heap pending
      ∧ feature_cache w3 = feature_cache pending.
Proof.
  split; [reflexivity|].
  destruct (C10_changes_pending_before_suspension_are_discarded_unfingerprinted
              default_config 0 pending
              (check_edit_mode (reading 600 "2024-05-01 10:00:00") gui_editing pending)
              (check_edit_mode (reading 1200 "2024-05-01 10:00:01") gui_idle
                 (set_recompute_timer None
                    (check_edit_mode (reading 600 "2024-05-01 10:00:00") gui_editing pending)))
              (reading 600 "2024-05-01 10:00:00", EditCheckTimeout gui_editing)
              [ (reading 900 "2024-05-01 10:00:00", RecomputeTimeout);
                (reading 1200 "2024-05-01 10:00:01", EditCheckTimeout gui_idle) ]
              (reading 1300 "2024-05-01 10:00:01")
              1300%Z CheckEditCompletion [])
    as (w3 & H1 & H2 & H3 & H4 & H5 & _).
  - reflexivity.
  - reflexivity.
  - reflexivity.
  - reflexivity.
  - vm_compute. constructor.
  - reflexivity.
  - reflexivity.
  - reflexivity.
  - vm_compute. discriminate.
  - exists w3. split; [exact H1|]. repeat split; assumption.
Defined.

(** C10 as stated fails: the change of the box accepted at time 500 armed
    the recompute timer for time 800.  The edit session is found open at
    time 600 and closed at time 800, with no change accepted; the exit
    handler is due at time 900.  The timer fires at time 850, finds no
    suspension and the box in the queue, and fingerprints it before the exit
    handler runs. *)
Lemma C10_counterexample :
  recompute_queue pending = [0]
  ∧ recompute_timer pending = Some 800%Z
  ∧ FeatureHash (heap pending 0) = None
  ∧ acceptances default_config 0
      [ (reading 600 "2024-05-01 10:00:00", EditCheckTimeout gui_editing);
        (reading 800 "2024-05-01 10:00:00", EditCheckTimeout gui_idle);
        (reading 850 "2024-05-01 10:00:00", RecomputeTimeout);
        (reading 900 "2024-05-01 10:00:00", SingleShotTimeout) ]
      pending = []
  ∧ (λ w, (edit_mode_active w, changes_during_task w, single_shots w))
      <$> run default_config 0
            [ (reading 600 "2024-05-01 10:00:00", EditCheckTimeout gui_editing);
              (reading 800 "2024-05-01 10:00:00", EditCheckTimeout gui_idle) ]
            pending
    = Some (false, false, [(900%Z, CheckEditCompletion)])
  ∧ (λ w, (recompute_queue w, FeatureHash (heap w 0), feature_cache w !! "Box"))
      <$> run default_config 0
            [ (reading 600 "2024-05-01 10:00:00", EditCheckTimeout gui_editing);
              (reading 800 "2024-05-01 10:00:00", EditCheckTimeout gui_idle);
              (reading 850 "2024-05-01 10:00:00", RecomputeTimeout);
              (reading 900 "2024-05-01 10:00:00", SingleShotTimeout) ]
            pending
    = Some ([], Some "a1695146fc4b26447c3e57bfb7a72cd4",
            Some (850%Z, "a1695146fc4b26447c3e57bfb7a72cd4")).
Proof.
  vm_compute. repeat split; reflexivity.
Qed.

(** ** The digest *)

(** The characters of a string. *)
Lemma hexdigit_lower n :
  (0 ≤ n < 16)%Z →
  hashlib.hexdigit n ∈ String.list_ascii_of_string "0123456789abcdef".
Proof.
  intros Hn.
  assert (n ∈ seqZ 0 16) as Hin by (apply elem_of_seqZ; lia).
  revert Hin. generalize n. apply Forall_forall.
  apply (bool_decide_unpack _). vm_compute. exact I.
Qed.

Lemma le_bytes_range n : ∀ x, Forall (λ b, 0 ≤ b < 256)%Z (hashlib.le_bytes n x).
Proof.
  induction n as [|n IH]; intros x; cbn; constructor; [|apply IH].
  change 255%Z with (Z.ones 8). rewrite Z.land_ones by lia.
  apply Z.mod_pos_bound. lia.
Qed.

Lemma hexbyte_lower l :
  Forall (λ b, 0 ≤ b < 256)%Z l →
  Forall (λ c, c ∈ String.list_ascii_of_string "0123456789abcdef")
         (String.list_ascii_of_string (foldr hashlib.hexbyte EmptyString l)).
Proof.
  induction 1 as [|b l Hb _ IH]; [constructor|].
  cbn [foldr]. unfold hashlib.hexbyte at 1. cbn [String.list_ascii_of_string].
  constructor; [|constructor; [|exact IH]].
  - apply hexdigit_lower. rewrite Z.shiftr_div_pow2 by lia.
    split; [apply Z.div_pos; lia|]. apply Z.div_lt_upper_bound; lia.
  - apply hexdigit_lower. change 15%Z with (Z.ones 4). rewrite Z.land_ones by lia.
    apply Z.mod_pos_bound. lia.
Qed.

Lemma digest_range msg : Forall (λ b, 0 ≤ b < 256)%Z (hashlib.digest msg).
Proof.
  unfold hashlib.digest. destruct (foldl _ _ _) as [[[a b] c] d].
  repeat (apply Forall_app; split); apply le_bytes_range.
Qed.

(** X1.  Whatever the data, [calculate_hash] returns 32 characters, each
    one of the digits 0 to 9 and the letters a to f. *)
Theorem X1_calculate_hash_is_32_lowercase_hex_digits (data : FeatureData) :
  String.length (calculate_hash data) = 32
  ∧ Forall (λ c, c ∈ String.list_ascii_of_string "0123456789abcdef")
           (String.list_ascii_of_string (calculate_hash data)).
Proof.
  unfold calculate_hash. split; [apply md5_hexdigest_length|].
  apply hexbyte_lower, digest_range.
Qed.

(** ** The order of the keys *)

(** The order of [sort_keys]: code point by code point. *)
Lemma ascii_compare_eq a b : Ascii.compare a b = Eq → a = b.
Proof. apply Ascii.compare_eq_iff. Qed.

Lemma string_compare_trans_lt : ∀ s1 s2 s3,
  String.compare s1 s2 = Lt → String.compare s2 s3 = Lt → String.compare s1 s3 = Lt.
Proof.
  induction s1 as [|c1 s1 IH]; intros [|c2 s2] [|c3 s3]; cbn; try done.
  unfold Ascii.compare.
  destruct (N.compare_spec (Ascii.N_of_ascii c1) (Ascii.N_of_ascii c2)) as [E12|L12|G12];
    try done;
    destruct (N.compare_spec (Ascii.N_of_ascii c2) (Ascii.N_of_ascii c3)) as [E23|L23|G23];
    try done; intros H12 H23.
  - rewrite E12, E23, N.compare_refl. by apply (IH s2).
  - rewrite E12. by rewrite (proj2 (N.compare_lt_iff _ _) L23).
  - rewrite <- E23. by rewrite (proj2 (N.compare_lt_iff _ _) L12).
  - by rewrite (proj2 (N.compare_lt_iff _ _) (N.lt_trans _ _ _ L12 L23)).
Qed.

Lemma string_compare_refl s : String.compare s s = Eq.
Proof.
  induction s as [|c s IH]; cbn; [done|].
  unfold Ascii.compare. by rewrite N.compare_refl.
Qed.

Lemma string_leb_trans s1 s2 s3 :
  String.leb s1 s2 = true → String.leb s2 s3 = true → String.leb s1 s3 = true.
Proof.
  unfold String.leb.
  destruct (String.compare s1 s2) eqn:E12; try done;
    destruct (String.compare s2 s3) eqn:E23; try done; intros _ _.
  - apply String.compare_eq_iff in E12, E23. subst. by rewrite string_compare_refl.
  - apply String.compare_eq_iff in E12. subst. by rewrite E23.
  - apply String.compare_eq_iff in E23. subst. by rewrite E12.
  - by rewrite (string_compare_trans_lt _ _ _ E12 E23).
Qed.

#[local] Instance key_le_trans : Transitive key_le.
Proof. intros x y z. apply string_leb_trans. Qed.

Lemma insert_member_perm m l : json.insert_member m l ≡ₚ m :: l.
Proof.
  induction l as [|x l IH]; cbn; [done|].
  destruct (String.leb m.1 x.1); [done|]. rewrite IH. apply Permutation_swap.
Qed.

Lemma insert_member_sorted m l :
  StronglySorted key_le l → StronglySorted key_le (json.insert_member m l).
Proof.
  induction 1 as [|x l Hl IH Hx]; cbn; [by repeat constructor|].
  destruct (String.leb m.1 x.1) eqn:E.
  - constructor; [by constructor|]. constructor; [done|].
    eapply Forall_impl; [exact Hx|]. intros y Hy. by transitivity x.
  - constructor; [done|]. rewrite insert_member_perm. constructor; [|done].
    destruct (String.leb_total m.1 x.1) as [H|H]; [congruence|done].
Qed.

Lemma sort_members_perm l : foldr json.insert_member [] l ≡ₚ l.
Proof.
  induction l as [|m l IH]; cbn; [done|]. by rewrite insert_member_perm, IH.
Qed.

Lemma sort_members_sorted l : StronglySorted key_le (foldr json.insert_member [] l).
Proof.
  induction l as [|m l IH]; cbn; [constructor|]. by apply insert_member_sorted.
Qed.

(** Members with distinct keys come out of [sort_keys] in one order only. *)
Lemma sort_members_unique l l' :
  l ≡ₚ l' → NoDup l.*1 →
  foldr json.insert_member [] l = foldr json.insert_member [] l'.
Proof.
  intros Hp Hnd.
  apply (StronglySorted_unique_strong key_le);
    [|apply sort_members_sorted..|by rewrite !sort_members_perm].
  intros x y Hx Hy Hxy Hyx.
  rewrite sort_members_perm in Hx. rewrite sort_members_perm, <- Hp in Hy.
  assert (x.1 = y.1) as Hk by (by apply String.leb_antisym).
  apply list_elem_of_lookup in Hx as [i Hi]. apply list_elem_of_lookup in Hy as [j Hj].
  assert (i = j) as ->.
  { apply (NoDup_lookup _ _ _ x.1 Hnd); rewrite list_lookup_fmap; [by rewrite Hi|].
    by rewrite Hj, Hk. }
  congruence.
Qed.

Lemma dumps_Obj_perm l l' :
  l ≡ₚ l' → NoDup l.*1 → json.dumps (json.Obj l) = json.dumps (json.Obj l').
Proof.
  intros Hp Hnd. cbn.
  rewrite (sort_members_unique (map (λ '(k, x), (k, json.dumps x)) l)
             (map (λ '(k, x), (k, json.dumps x)) l')); [done| |].
  - by apply Permutation_map.
  - rewrite map_map.
    replace (map _ l) with l.*1; [done|]. apply map_ext. by intros [k x].
Qed.

Lemma collect_parameters_bind o props :
  collect_parameters o props = props ≫= parameter_of o.
Proof.
  unfold collect_parameters.
  assert (∀ acc, foldl (λ parameters prop,
                          if bool_decide (prop ∈ ["FeatureHash"; "FeatureHistory"])
                          then parameters
                          else match properties o !! prop with
                               | Some value => parameters ++ [(prop, normalize prop value)]
                               | None => parameters
                               end) acc props
                 = acc ++ (props ≫= parameter_of o)) as H.
  { induction props as [|p props IH]; intros acc; cbn; [by rewrite app_nil_r|].
    rewrite IH. unfold parameter_of at 2.
    destruct (bool_decide _); [done|].
    destruct (properties o !! p); [by rewrite <- app_assoc|done]. }
  apply (H []).
Qed.

Lemma parameter_of_key o p k : k ∈ (parameter_of o p).*1 → k = p.
Proof.
  unfold parameter_of. destruct (bool_decide _); [by intros ?%elem_of_nil|].
  destruct (properties o !! p); [|by intros ?%elem_of_nil].
  cbn. by intros ?%list_elem_of_singleton.
Qed.

Lemma collect_parameters_key o props k :
  k ∈ (collect_parameters o props).*1 → k ∈ props.
Proof.
  rewrite collect_parameters_bind.
  induction props as [|p props IH]; [done|].
  change ((p :: props) ≫= parameter_of o)
    with (parameter_of o p ++ (props ≫= parameter_of o)).
  rewrite fmap_app, elem_of_app. intros [H|H].
  - apply parameter_of_key in H as ->. by left.
  - right. by apply IH.
Qed.

Lemma collect_parameters_NoDup o props :
  NoDup props → NoDup (collect_parameters o props).*1.
Proof.
  induction 1 as [|p props Hp Hnd IH]; [constructor|].
  rewrite collect_parameters_bind.
  change ((p :: props) ≫= parameter_of o)
    with (parameter_of o p ++ (props ≫= parameter_of o)).
  rewrite fmap_app, <- collect_parameters_bind. apply NoDup_app. split; [|split; [|done]].
  - unfold parameter_of. destruct (bool_decide _); [constructor|].
    destruct (properties o !! p); [apply NoDup_singleton|constructor].
  - intros k Hk Hk'. apply parameter_of_key in Hk as ->.
    by apply collect_parameters_key in Hk'.
Qed.

Lemma collect_parameters_perm o props props' :
  props ≡ₚ props' → collect_parameters o props ≡ₚ collect_parameters o props'.
Proof. intros H. rewrite !collect_parameters_bind. by rewrite H. Qed.

(** X2.  The loop of [get_feature_data] runs over a set; in whatever order
    it visits the properties, and whatever the label, [calculate_hash] gives
    the same hash, since [sort_keys] puts the members in one order. *)
Theorem X2_hash_does_not_depend_on_the_order_of_the_properties
    (o : DocumentObject) (type_id label label' : string) (props props' : list string) :
  NoDup props →
  props ≡ₚ props' →
  calculate_hash {| data_Type := type_id; data_Label := label;
                    data_Parameters := collect_parameters o props |}
  = calculate_hash {| data_Type := type_id; data_Label := label';
                      data_Parameters := collect_parameters o props' |}.
Proof.
  intros Hnd Hp. unfold calculate_hash. f_equal. cbn [data_Type data_Parameters].
  change (json.dumps (json.Obj ?l)) with (json.dumps (json.Obj l)).
  assert (json.dumps (json.Obj (collect_parameters o props))
          = json.dumps (json.Obj (collect_parameters o props'))) as H.
  { apply dumps_Obj_perm; [by apply collect_parameters_perm|].
    by apply collect_parameters_NoDup. }
  cbn [json.dumps map foldr]. cbn [json.dumps] in H. by rewrite H.
Qed.

(** The properties of a box, visited forwards and backwards. *)
Lemma X2_witness :
  calculate_hash {| data_Type := "Part::Box"; data_Label := "Box";
                    data_Parameters :=
                      collect_parameters (box "Box" "10.0 mm" None [])
                        ["Length"; "Width"; "Height"; "Placement"; "Label"] |}
  = calculate_hash {| data_Type := "Part::Box"; data_Label := "Lid";
                      data_Parameters :=
                        collect_parameters (box "Box" "10.0 mm" None [])
                          ["Label"; "Placement"; "Height"; "Width"; "Length"] |}.
Proof.
  apply (X2_hash_does_not_depend_on_the_order_of_the_properties
           (box "Box" "10.0 mm" None []) "Part::Box" "Box" "Lid"
           ["Length"; "Width"; "Height"; "Placement"; "Label"]
           ["Label"; "Placement"; "Height"; "Width"; "Length"]).
  - apply (bool_decide_unpack _). vm_compute. exact I.
  - symmetry.
    exact (reverse_Permutation ["Length"; "Width"; "Height"; "Placement"; "Label"]).
Defined.

(** ** What the fingerprint reads *)

(** Two objects that agree on the properties the loop of [get_feature_data]
    reads yield the same parameters. *)
Lemma collect_parameters_agree (o o' : DocumentObject) (table : list string) :
  (∀ p, p ∈ table → p ∉ ["FeatureHash"; "FeatureHistory"] →
        (p ∈ PropertiesList o ↔ p ∈ PropertiesList o')
        ∧ properties o !! p = properties o' !! p) →
  collect_parameters o (filter (λ p, p ∈ PropertiesList o) table)
  = collect_parameters o' (filter (λ p, p ∈ PropertiesList o') table).
Proof.
  rewrite !collect_parameters_bind.
  induction table as [|p table IH]; intros Hagree; [done|].
  assert (filter (λ p, p ∈ PropertiesList o) table ≫= parameter_of o
          = filter (λ p, p ∈ PropertiesList o') table ≫= parameter_of o') as Hrest.
  { apply IH. intros q Hq. apply Hagree. by right. }
  rewrite !filter_cons.
  destruct (decide (p ∈ ["FeatureHash"; "FeatureHistory"])) as [Hskip|Hread].
  - assert (∀ x, parameter_of x p = []) as Hnil.
    { intros x. unfold parameter_of. by rewrite bool_decide_eq_true_2. }
    destruct (decide (p ∈ PropertiesList o)), (decide (p ∈ PropertiesList o'));
      cbn; rewrite ?Hnil; exact Hrest.
  - destruct (Hagree p) as [Hlist Hvalue]; [by left|done|].
    assert (parameter_of o p = parameter_of o' p) as Hp.
    { unfold parameter_of. by rewrite Hvalue. }
    destruct (decide (p ∈ PropertiesList o)) as [Hin|Hout].
    + rewrite decide_True by (by apply Hlist). cbn. by rewrite Hp, Hrest.
    + rewrite decide_False by (by rewrite <- Hlist). exact Hrest.
Qed.

(** X3.  Two objects of one type that agree on the properties the table
    lists for the type, and on the three general ones, have the same
    fingerprint: no other property, no [TimeStamp], name, dependency list or
    property of the macro takes part in it. *)
Theorem X3_fingerprint_reads_only_the_properties_of_the_table
    (o o' : DocumentObject) :
  TypeId o' = TypeId o →
  (∀ p, p ∈ dict_get important_props (TypeId o) [] ++ general_props →
        p ∉ ["FeatureHash"; "FeatureHistory"] →
        (p ∈ PropertiesList o ↔ p ∈ PropertiesList o')
        ∧ properties o !! p = properties o' !! p) →
  fingerprint o' = fingerprint o.
Proof.
  intros Htype Hagree. unfold fingerprint, calculate_hash, snapshot.
  cbn [data_Type data_Parameters]. rewrite Htype.
  rewrite (collect_parameters_agree o o'); [done|].
  intros p Hp. apply Hagree. by apply (proj1 (elem_of_remove_dups _ _)) in Hp.
Qed.

(** Hiding the box leaves its fingerprint as it was. *)
Lemma X3_witness :
  fingerprint (heap touched_box 0) = fingerprint (box "Box" "10.0 mm" (Some 50%Z) []).
Proof.
  apply (X3_fingerprint_reads_only_the_properties_of_the_table
           (box "Box" "10.0 mm" (Some 50%Z) []) (heap touched_box 0)).
  - reflexivity.
  - intros p Hp _.
    assert (p ∈ ["Length"; "Width"; "Height"; "Placement"; "Label"; "Placement"; "Shape"])
      as Hp' by exact Hp.
    clear Hp.
    repeat (apply elem_of_cons in Hp' as [->|Hp']);
      [split; [apply (bool_decide_unpack _); vm_compute; exact I|vm_compute; reflexivity]..|].
    by apply elem_of_nil in Hp'.
Defined.

(** The two properties of the macro are no part of the fingerprint. *)
Lemma fingerprint_own_properties (o o' : DocumentObject) :
  TypeId o' = TypeId o → properties o' = properties o →
  (∀ p, p ∉ ["FeatureHash"; "FeatureHistory"] →
        (p ∈ PropertiesList o ↔ p ∈ PropertiesList o')) →
  fingerprint o' = fingerprint o.
Proof.
  intros Htype Hprops Hlist. unfold fingerprint, calculate_hash, snapshot.
  cbn [data_Type data_Parameters]. rewrite Htype.
  rewrite (collect_parameters_agree o o'); [done|].
  intros p _ Hp. split; [by apply Hlist|by rewrite Hprops].
Qed.

Lemma same_fingerprints_refl w : same_fingerprints w w.
Proof. by intros r. Qed.

Lemma same_fingerprints_trans w1 w2 w3 :
  same_fingerprints w1 w2 → same_fingerprints w2 w3 → same_fingerprints w1 w3.
Proof. intros H12 H23 r. destruct (H12 r) as [<- <-]. apply H23. Qed.

Lemma same_fingerprints_update_object obj f w :
  (∀ o, fingerprint (f o) = fingerprint o ∧ TimeStamp (f o) = TimeStamp o) →
  same_fingerprints w (update_object obj f w).
Proof.
  intros Hf r. destruct (decide (r = obj)) as [->|Hne].
  - rewrite heap_update_same. apply Hf.
  - by rewrite heap_update_other.
Qed.

Lemma same_fingerprints_ensure_history obj w :
  same_fingerprints w (ensure_history obj w).
Proof.
  unfold ensure_history.
  destruct (FeatureHistory (heap w obj)); [apply same_fingerprints_refl|].
  apply same_fingerprints_update_object. intros o. split; [|done].
  apply fingerprint_own_properties; [done..|]. intros p Hp. cbn.
  rewrite elem_of_app, list_elem_of_singleton. split; [by left|].
  intros [H| ->]; [done|]. destruct Hp. set_solver.
Qed.

Lemma same_fingerprints_ensure_hash obj w :
  same_fingerprints w (ensure_hash obj w).
Proof.
  unfold ensure_hash.
  destruct (FeatureHash (heap w obj)); [apply same_fingerprints_refl|].
  apply same_fingerprints_update_object. intros o. split; [|done].
  apply fingerprint_own_properties; [done..|]. intros p Hp. cbn.
  rewrite elem_of_app, list_elem_of_singleton. split; [by left|].
  intros [H| ->]; [done|]. destruct Hp. set_solver.
Qed.

Lemma same_fingerprints_completed config host obj w :
  same_fingerprints w (completed config host obj w).2.
Proof.
  unfold completed, recorded.
  eapply same_fingerprints_trans; [apply same_fingerprints_ensure_history|].
  eapply same_fingerprints_trans; [apply same_fingerprints_ensure_hash|].
  case_bool_decide; cbn [snd].
  - eapply same_fingerprints_trans;
      [apply (same_fingerprints_update_object obj
                (set_FeatureHistory
                   (Some (new_history config host (fingerprint (heap w obj))
                            (history (ensure_hash obj (ensure_history obj w)) obj)))));
       by intros o|].
    eapply same_fingerprints_trans;
      [apply (same_fingerprints_update_object obj
                (set_FeatureHash (Some (fingerprint (heap w obj))))); by intros o|].
    intros r. split; reflexivity.
  - intros r. split; reflexivity.
Qed.

(** [process_feature] changes no fingerprint, that of its own object
    included. *)
Lemma process_feature_same_fingerprints config host obj w :
  same_fingerprints w (process_feature config host obj w).2.
Proof.
  destruct (process_feature_cases config host obj w)
    as [(msg & w1 & _ & Hw1 & ->)|[(_ & _ & ->)|(_ & _ & ->)]]; cbn.
  - apply (same_fingerprints_trans _ w1); [|intros r; split; reflexivity].
    destruct Hw1 as [->| ->];
      [apply same_fingerprints_refl|apply same_fingerprints_ensure_history].
  - apply same_fingerprints_refl.
  - apply same_fingerprints_completed.
Qed.

(** The result and the stored hash, run by run. *)
Lemma process_feature_hash config host obj w :
  let r := process_feature config host obj w in
  (r.1 = false ∧ FeatureHash (heap r.2 obj) = FeatureHash (heap w obj)
   ∧ history r.2 obj = history w obj)
  ∨ (r.1 = true
     ∧ FeatureHash (heap w obj) ≠ Some (fingerprint (heap w obj))
     ∧ FeatureHash (heap r.2 obj) = Some (fingerprint (heap w obj))
     ∧ first_fault host obj w = None ∧ fast_path obj w = false).
Proof.
  cbn zeta.
  destruct (process_feature_cases config host obj w)
    as [(msg & w1 & _ & Hw1 & Hp)|[(_ & _ & Hp)|(Hff & Hfp & Hp)]].
  - left. rewrite Hp. cbn. split; [done|]. unfold warn, history. cbn.
    destruct Hw1 as [->| ->]; [done|].
    fold (history (ensure_history obj w) obj).
    by rewrite history_ensure_history, FeatureHash_ensure_history.
  - left. by rewrite Hp.
  - destruct (process_feature_properties config host obj w)
      as [(H1 & H2 & H3)|(H1 & H2 & H3 & _)]; [left|by right].
    split; [done|]. split; [|done].
    destruct H3 as [H3|Hnone]; [done|]. exfalso.
    rewrite Hp in H1. unfold completed, recorded in H1.
    case_bool_decide as Hne; [done|]. rename Hne into Heq.
    rewrite FeatureHash_ensure_hash, FeatureHash_ensure_history, Hnone in Heq.
    injection Heq as Heq. pose proof (fingerprint_length (heap w obj)) as Hlen.
    by rewrite <- Heq in Hlen.
Qed.

Lemma heap_ensure_history_other obj o w :
  o ≠ obj → heap (ensure_history obj w) o = heap w o.
Proof.
  intros Hne. unfold ensure_history.
  destruct (FeatureHistory (heap w obj)); [done|]. by rewrite heap_update_other.
Qed.

Lemma heap_ensure_hash_other obj o w :
  o ≠ obj → heap (ensure_hash obj w) o = heap w o.
Proof.
  intros Hne. unfold ensure_hash.
  destruct (FeatureHash (heap w obj)); [done|]. by rewrite heap_update_other.
Qed.

(** [process_feature] leaves the other objects as they are. *)
Lemma process_feature_heap_other config host obj o w :
  o ≠ obj → heap (process_feature config host obj w).2 o = heap w o.
Proof.
  intros Hne.
  destruct (process_feature_cases config host obj w)
    as [(msg & w1 & _ & Hw1 & ->)|[(_ & _ & ->)|(_ & _ & ->)]]; cbn.
  - destruct Hw1 as [->| ->]; [done|]. by apply heap_ensure_history_other.
  - done.
  - unfold completed, recorded. case_bool_decide; cbn.
    + rewrite !heap_update_other by done.
      by rewrite heap_ensure_hash_other, heap_ensure_history_other.
    + by rewrite heap_ensure_hash_other, heap_ensure_history_other.
Qed.

(** An object in step with its fingerprint stays so under every call, on
    itself or on another object. *)
Lemma process_feature_in_sync config host obj o w :
  in_sync w o → in_sync (process_feature config host obj w).2 o.
Proof.
  unfold in_sync. intros Hs.
  destruct (process_feature_same_fingerprints config host obj w o) as [-> _].
  destruct (decide (o = obj)) as [->|Hne].
  - destruct (process_feature_hash config host obj w) as [(_ & -> & _)|(_ & H & _)];
      [done|by destruct H].
  - by rewrite process_feature_heap_other.
Qed.

(** X4.  [process_feature] returns [True] exactly when it leaves the object
    with another [FeatureHash] than it found; the new one is then the
    fingerprint of the object, which the call itself does not change; and a
    call that returns [False] leaves the history as it was. *)
Theorem X4_process_feature_returns_True_exactly_when_it_changes_the_hash
    (config : Config) (host : Reading) (obj : ref) (w : World) :
  let r := process_feature config host obj w in
  (r.1 = true ↔ FeatureHash (heap r.2 obj) ≠ FeatureHash (heap w obj))
  ∧ (r.1 = true →
     FeatureHash (heap r.2 obj) = Some (fingerprint (heap w obj))
     ∧ fingerprint (heap r.2 obj) = fingerprint (heap w obj))
  ∧ (r.1 = false → history r.2 obj = history w obj).
Proof.
  cbn zeta.
  destruct (process_feature_same_fingerprints config host obj w obj) as [Hfp _].
  destruct (process_feature_hash config host obj w)
    as [(H1 & H2 & H3)|(H1 & H2 & H3 & _)]; rewrite H1.
  - split; [|split]; [|done..]. split; [done|]. intros H. by destruct H.
  - split; [|split]; [|done..]. split; [|done]. intros _. rewrite H3.
    intros Heq. apply H2. by rewrite <- Heq.
Qed.

(** X5.  After a call that got past the cache check and met no exception,
    the stored hash is the fingerprint of the object, and a further call, at
    any reading, returns [False] and leaves hash and history alone. *)
Theorem X5_a_second_call_reports_no_change
    (config : Config) (host1 host2 : Reading) (obj : ref) (w : World) :
  first_fault host1 obj w = None →
  fast_path obj w = false →
  let w1 := (process_feature config host1 obj w).2 in
  let r := process_feature config host2 obj w1 in
  FeatureHash (heap w1 obj) = Some (fingerprint (heap w1 obj))
  ∧ r.1 = false
  ∧ FeatureHash (heap r.2 obj) = FeatureHash (heap w1 obj)
  ∧ history r.2 obj = history w1 obj.
Proof.
  intros Hff Hfp w1 r.
  assert (in_sync w1 obj) as Hs.
  { unfold in_sync, w1.
    destruct (process_feature_same_fingerprints config host1 obj w obj) as [-> _].
    destruct (process_feature_hash config host1 obj w)
      as [(H1 & H2 & _)|(_ & _ & H3 & _)]; [|done].
    rewrite (process_feature_done config host1 obj w Hfp Hff) in H1, H2 |- *.
    unfold completed, recorded in H1 |- *.
    case_bool_decide as Hne; [done|]. cbn. exact Hne. }
  split; [exact Hs|].
  destruct (process_feature_hash config host2 obj w1)
    as [(H1 & H2 & H3)|(_ & H & _)]; [done|by destruct H].
Qed.

(** Two calls on the box, at time 100 and at time 900. *)
Lemma X5_witness :
  let w1 := (process_feature default_config (reading 100 "2024-05-01 10:00:00") 0 one_box).2 in
  let r := process_feature default_config (reading 900 "2024-05-01 10:00:09") 0 w1 in
  FeatureHash (heap w1 0) = Some (fingerprint (heap w1 0))
  ∧ r.1 = false
  ∧ FeatureHash (heap r.2 0) = FeatureHash (heap w1 0)
  ∧ history r.2 0 = history w1 0.
Proof.
  apply (X5_a_second_call_reports_no_change default_config
           (reading 100 "2024-05-01 10:00:00") (reading 900 "2024-05-01 10:00:09")
           0 one_box); reflexivity.
Defined.

(** ** Sorting any input *)

Section AnyInput.

Variable w : World.
Variable objects : list ref.

Local Abbreviation G := (dependency_graph w objects).
Local Abbreviation N := (list_to_set (name_of w <$> objects) : gset string).
Local Abbreviation names := (fmap (M := list) (name_of w)).

Lemma first_of_its_name_in o : first_of_its_name w objects o → o ∈ objects.
Proof. intros H. by apply find_name_Some in H as [? _]. Qed.

Lemma visit_added fuel : ∀ n V R V' R',
  visit fuel w objects G n (V, R) = Some (V', R') →
  n ∈ N → Kept w objects V R →
  Added w objects n V R V' R'.
Proof.
  induction fuel as [|fuel IH]; intros n V R V' R' Hvisit Hn HK; [done|].
  rewrite visit_unfold in Hvisit.
  destruct (decide (n ∈ V)) as [HV|HV].
  { injection Hvisit as <- <-.
    split; [done|]. split; [done|]. split; [by exists []; rewrite app_nil_r|].
    split; [done|]. split; [done|]. intros o Ho. by left. }
  set (LoopInv := λ (Vk : gset string) (Rk : list ref),
         Kept w objects Vk Rk ∧ {[n]} ∪ V ⊆ Vk ∧ (∃ Δ, Rk = R ++ Δ)
         ∧ (∀ g, gray w Vk Rk g → g = n ∨ gray w V R g)
         ∧ (∀ o, o ∈ Rk → o ∈ R ∨ name_of w o ∉ {[n]} ∪ V)).
  assert (Hloop : ∀ cs Vk Rk V2 R2,
    (∀ c, c ∈ cs → c ∈ N) →
    foldl (λ acc child, acc ≫= visit fuel w objects G child) (Some (Vk, Rk)) cs
      = Some (V2, R2) →
    LoopInv Vk Rk → LoopInv V2 R2).
  { induction cs as [|c cs IHcs]; intros Vk Rk V2 R2 Hcs Hfold HL.
    { by injection Hfold as <- <-. }
    cbn [foldl mbind option_bind] in Hfold.
    destruct (visit fuel w objects G c (Vk, Rk)) as [[Vk' Rk']|] eqn:Hc;
      [|by rewrite foldl_mbind_None in Hfold].
    destruct HL as (HI & Hsub & [Δ HΔ] & Hg & Hnew).
    destruct (IH c Vk Rk Vk' Rk' Hc) as (HI' & Hsub' & [Δ' HΔ'] & Hcin & Hg' & Hnew');
      [apply Hcs; by left|done|].
    apply (IHcs Vk' Rk' V2 R2); [intros c' Hc'; apply Hcs; by right|exact Hfold|].
    split; [done|]. split; [set_solver|]. split.
    { exists (Δ ++ Δ'). by rewrite HΔ', HΔ, app_assoc. }
    split.
    { intros g Hgray. apply Hg. by apply Hg'. }
    intros o Ho. destruct (Hnew' o Ho) as [HoR|HoV]; [by apply Hnew|].
    right. set_solver. }
  destruct (foldl _ _ _) as [[V2 R2]|] eqn:Hfold; [|done].
  cbn in Hvisit. injection Hvisit as <- <-.
  destruct (Hloop (default [] (G !! n)) ({[n]} ∪ V) R V2 R2) as (HL & Hsub & [Δ HΔ] & Hg & Hnew).
  { intros c Hc. destruct (G !! n) as [cs|] eqn:E; [|by apply elem_of_nil in Hc].
    by destruct (graph_children_in w objects n c cs E Hc). }
  { exact Hfold. }
  { split.
    { destruct HK as (H1 & H2). split; [|done].
      intros o Ho. destruct (H1 o Ho). split; [set_solver|done]. }
    split; [done|]. split; [by exists []; rewrite app_nil_r|]. split.
    - intros g [Hg1 Hg2]. apply elem_of_union in Hg1 as [Hg1|Hg1]; [left; set_solver|].
      right. by split.
    - intros o Ho. by left. }
  destruct HL as (H1 & H2).
  destruct (find_in_objects w objects n Hn) as (o_n & Hfind & Ho_n & Hname).
  rewrite Hfind. cbn.
  assert (Hfresh : n ∉ names R2).
  { intros Hin. apply list_elem_of_fmap in Hin as (o & Hno & Ho).
    destruct (Hnew o Ho) as [HoR|HoV].
    - destruct HK as (HR & _). destruct (HR o HoR) as [HoV _]. by rewrite <- Hno in HoV.
    - apply HoV. rewrite <- Hno. set_solver. }
  split; [|split; [set_solver|split; [|split; [set_solver|split]]]].
  - split.
    + intros o Ho. apply elem_of_app in Ho as [Ho|Ho]; [by apply H1|].
      apply list_elem_of_singleton in Ho as ->. split; [rewrite Hname; set_solver|].
      unfold first_of_its_name. unfold name_of in Hname. by rewrite Hname.
    + rewrite fmap_app. apply NoDup_app. split; [done|]. split.
      * intros x Hx Hx'. cbn in Hx'. apply list_elem_of_singleton in Hx'.
        rewrite Hname in Hx'. by subst.
      * cbn. apply NoDup_singleton.
  - exists (Δ ++ [o_n]). by rewrite HΔ, app_assoc.
  - intros g [Hg1 Hg2]. rewrite fmap_app in Hg2.
    destruct (Hg g) as [->|Hgr]; [|exfalso|done].
    + split; [done|]. intros Hin. apply Hg2. apply elem_of_app. by left.
    + apply Hg2. apply elem_of_app. right. cbn. rewrite Hname. by left.
  - intros o Ho. apply elem_of_app in Ho as [Ho|Ho].
    + destruct (Hnew o Ho) as [|HoV]; [by left|]. right. set_solver.
    + apply list_elem_of_singleton in Ho as ->. right. by rewrite Hname.
Qed.

Lemma sort_by_dependencies_any result :
  sort_by_dependencies w objects = Some result →
  NoDup (names result)
  ∧ (∀ o, o ∈ result → first_of_its_name w objects o)
  ∧ (∀ o, o ∈ objects → name_of w o ∈ names result).
Proof.
  unfold sort_by_dependencies. intros Hsort.
  assert (Hloop : ∀ l V R V' R',
    (∀ o, o ∈ l → o ∈ objects) →
    foldl (λ acc obj,
             acc ≫= visit (S (length objects)) w objects G (Name (heap w obj)))
          (Some (V, R)) l = Some (V', R') →
    Kept w objects V R → (∀ g, ¬ gray w V R g) →
    Kept w objects V' R' ∧ (∀ g, ¬ gray w V' R' g)
    ∧ V ⊆ V' ∧ ∀ o, o ∈ l → name_of w o ∈ V').
  { induction l as [|o l IHl]; intros V R V' R' Hl Hfold HI Hg.
    { injection Hfold as <- <-. split; [done|]. split; [done|]. split; [done|].
      intros o Ho. by apply elem_of_nil in Ho. }
    cbn [foldl mbind option_bind] in Hfold.
    destruct (visit _ w objects G _ (V, R)) as [[V1 R1]|] eqn:Hv;
      [|by rewrite foldl_mbind_None in Hfold].
    destruct (visit_added _ _ _ _ _ _ Hv) as (HI1 & Hsub & _ & Hin & Hg1 & _).
    { apply elem_of_list_to_set, list_elem_of_fmap. exists o. split; [done|].
      apply Hl. by left. }
    { done. }
    destruct (IHl V1 R1 V' R') as (HI' & Hg' & Hmono & Hall).
    - intros o' Ho'. apply Hl. by right.
    - exact Hfold.
    - done.
    - intros g Hgray. apply (Hg g). by apply Hg1.
    - split; [done|]. split; [done|]. split; [set_solver|].
      intros o' Ho'. apply elem_of_cons in Ho' as [->|Ho']; [|by apply Hall].
      unfold name_of. set_solver. }
  destruct (foldl _ _ _) as [[V' R']|] eqn:Hfold; [|done].
  cbn in Hsort. injection Hsort as <-.
  destruct (Hloop objects ∅ [] V' R') as ((H1 & H2) & Hg & _ & Hall).
  { done. }
  { exact Hfold. }
  { split; [|cbn; apply NoDup_nil_2]. intros o Ho. by apply elem_of_nil in Ho. }
  { intros g [Hg _]. set_solver. }
  split; [done|]. split; [intros o Ho; by apply H1|].
  intros o Ho. destruct (decide (name_of w o ∈ names R')) as [|Hnot]; [done|].
  destruct (Hg (name_of w o)). split; [by apply Hall|done].
Qed.

End AnyInput.

(** With names of their own, the objects all come back. *)
Lemma sort_by_dependencies_perm (w : World) (objects result : list ref) :
  NoDup (name_of w <$> objects) →
  sort_by_dependencies w objects = Some result →
  result ≡ₚ objects.
Proof.
  intros Hdistinct Hsort.
  destruct (sort_by_dependencies_any w objects result Hsort) as (Hnd & Hfirst & Hall).
  apply NoDup_Permutation.
  - by apply (NoDup_fmap_1 (name_of w)).
  - by apply (NoDup_fmap_1 (name_of w)).
  - intros o. split.
    + intros Ho. by apply (first_of_its_name_in w objects), Hfirst.
    + intros Ho. destruct (proj1 (list_elem_of_fmap _ _ _) (Hall o Ho)) as (o' & Hn & Ho').
      assert (o' ∈ objects) as Ho'obj
        by (by apply (first_of_its_name_in w objects), Hfirst).
      by rewrite (name_inj w objects Hdistinct o o' Ho Ho'obj Hn).
Qed.


(** ** Sequences of calls *)

Lemma first_fault_sound host obj w : sound host obj → first_fault host obj w = None.
Proof.
  intros Hs. unfold first_fault. rewrite !Hs.
  repeat match goal with |- context [if ?b then _ else _] => destruct b end; done.
Qed.

(** [process_feature] writes the cache under the name of its object only. *)
Lemma process_feature_cache_other config host obj k w :
  k ≠ Name (heap w obj) →
  feature_cache (process_feature config host obj w).2 !! k = feature_cache w !! k.
Proof.
  intros Hk.
  destruct (process_feature_cases config host obj w)
    as [(msg & w1 & _ & Hw1 & ->)|[(_ & _ & ->)|(_ & _ & ->)]]; cbn.
  - destruct Hw1 as [->| ->]; [done|]. by rewrite feature_cache_ensure_history.
  - done.
  - rewrite feature_cache_completed. by rewrite lookup_insert_ne.
Qed.

Lemma fast_path_other config host obj o w :
  o ≠ obj → Name (heap w obj) ≠ Name (heap w o) →
  fast_path o (process_feature config host obj w).2 = fast_path o w.
Proof.
  intros Hne Hname. unfold fast_path.
  rewrite process_feature_heap_other by done.
  by rewrite process_feature_cache_other.
Qed.

Lemma ready_other config host obj o w :
  o ≠ obj → Name (heap w obj) ≠ Name (heap w o) →
  ready w o → ready (process_feature config host obj w).2 o.
Proof.
  intros Hne Hname [Hfp|Hs].
  - left. by rewrite fast_path_other.
  - right. by apply process_feature_in_sync.
Qed.

(** A call on an object the cache check lets through. *)
Lemma process_feature_ready config host obj w :
  sound host obj → ready w obj →
  (process_feature config host obj w).1
  = bool_decide (FeatureHash (heap w obj) ≠ Some (fingerprint (heap w obj)))
  ∧ in_sync (process_feature config host obj w).2 obj.
Proof.
  intros Hsound Hready.
  pose proof (first_fault_sound host obj w Hsound) as Hff.
  destruct (fast_path obj w) eqn:Hfp.
  - destruct Hready as [|Hs]; [congruence|].
    rewrite (process_feature_skip config host obj w Hfp Hff). cbn.
    split; [|done]. symmetry. apply bool_decide_eq_false. intros H. by apply H.
  - unfold in_sync.
    destruct (process_feature_same_fingerprints config host obj w obj) as [-> _].
    rewrite (process_feature_done config host obj w Hfp Hff).
    unfold completed, recorded.
    set (w1 := ensure_hash obj (ensure_history obj w)).
    assert (Hs : FeatureHash (heap w1 obj) = Some (default "" (FeatureHash (heap w obj))))
      by (unfold w1; by rewrite FeatureHash_ensure_hash, FeatureHash_ensure_history).
    pose proof (fingerprint_length (heap w obj)) as Hlen.
    case_bool_decide as Hne; cbn.
    + split; [|by rewrite heap_update_same].
      symmetry. apply bool_decide_eq_true. intros Heq. apply Hne. by rewrite Hs, Heq.
    + split; [|done].
      symmetry. apply bool_decide_eq_false. intros H. apply H.
      rewrite Hs in Hne. destruct (FeatureHash (heap w obj)); [done|].
      injection Hne as Hne. by rewrite <- Hne in Hlen.
Qed.

Lemma stale_cons w o l :
  stale w (o :: l)
  = (if bool_decide (FeatureHash (heap w o) ≠ Some (fingerprint (heap w o)))
     then [o] else []) ++ stale w l.
Proof. unfold stale. rewrite filter_cons. by case_bool_decide; case_decide. Qed.

Lemma stale_ext w w' l :
  (∀ o, o ∈ l → heap w' o = heap w o) → stale w' l = stale w l.
Proof.
  induction l as [|o l IH]; intros H; [done|].
  rewrite !stale_cons, (H o) by (by left). f_equal. apply IH.
  intros o' Ho'. apply H. by right.
Qed.

Lemma stale_in_sync w l : (∀ o, o ∈ l → in_sync w o) → stale w l = [].
Proof.
  induction l as [|o l IH]; intros H; [done|].
  rewrite stale_cons, IH by (intros o' Ho'; apply H; by right).
  rewrite bool_decide_eq_false_2; [done|]. intros Hne. apply Hne. apply H. by left.
Qed.

Lemma stale_perm w l l' : l ≡ₚ l' → length (stale w l) = length (stale w l').
Proof. intros H. unfold stale. by rewrite H. Qed.

Lemma engine_frame_refl scope w : engine_frame scope w w.
Proof.
  split; [apply same_shape_refl|]. split; [apply same_fingerprints_refl|]. done.
Qed.

Lemma in_sync_heap w w' o : heap w' o = heap w o → in_sync w o → in_sync w' o.
Proof. unfold in_sync. by intros ->. Qed.

Lemma engine_frame_console scope w w' :
  heap w' = heap w → feature_cache w' = feature_cache w →
  ActiveDocument w' = ActiveDocument w → engine_frame scope w w'.
Proof.
  intros Hh Hc Ha. unfold engine_frame, same_shape, same_fingerprints, in_sync, history.
  rewrite Hh, Hc. done.
Qed.

Lemma engine_frame_trans scope w1 w2 w3 :
  engine_frame scope w1 w2 → engine_frame scope w2 w3 → engine_frame scope w1 w3.
Proof.
  intros (A1 & A2 & A3 & A4 & A5 & A6) (B1 & B2 & B3 & B4 & B5 & B6).
  split; [by apply (same_shape_trans _ w2)|].
  split; [by apply (same_fingerprints_trans _ w2)|].
  split; [intros o Ho; by rewrite B3, A3|].
  split.
  { intros k Hk. rewrite B4, A4; [done..|].
    intros Hin. apply Hk. apply list_elem_of_fmap in Hin as (o & -> & Ho).
    apply list_elem_of_fmap. exists o. split; [|done]. unfold name_of. by destruct (A1 o). }
  split; [|congruence].
  intros o Ho. destruct (A5 o Ho) as [Hs Hh]. destruct (B5 o Hs) as [Hs' Hh'].
  split; [done|congruence].
Qed.

Lemma engine_frame_weaken scope scope' w w' :
  (∀ o, o ∈ scope → o ∈ scope') → engine_frame scope w w' → engine_frame scope' w w'.
Proof.
  intros Hsub (A1 & A2 & A3 & A4 & A5 & A6).
  split; [done|]. split; [done|]. split; [intros o Ho; apply A3; by auto|].
  split; [|done]. intros k Hk. apply A4. intros Hin. apply Hk.
  apply list_elem_of_fmap in Hin as (o & -> & Ho).
  apply list_elem_of_fmap. exists o. by auto.
Qed.

Lemma process_feature_active config host obj w :
  ActiveDocument (process_feature config host obj w).2 = ActiveDocument w.
Proof.
  destruct (process_feature_cases config host obj w)
    as [(msg & w1 & _ & Hw1 & ->)|[(_ & _ & ->)|(_ & _ & ->)]]; cbn.
  - destruct Hw1 as [->| ->]; [done|]. unfold ensure_history.
    by destruct (FeatureHistory _).
  - done.
  - unfold completed, recorded.
    assert (ActiveDocument (ensure_hash obj (ensure_history obj w)) = ActiveDocument w) as He.
    { unfold ensure_hash, ensure_history.
      destruct (FeatureHistory (heap w obj)); by destruct (FeatureHash _). }
    by case_bool_decide.
Qed.

Lemma process_feature_engine_frame config host obj w :
  engine_frame [obj] w (process_feature config host obj w).2.
Proof.
  split; [apply process_feature_same_shape|].
  split; [apply process_feature_same_fingerprints|].
  split.
  { intros o Ho. apply process_feature_heap_other. set_solver. }
  split.
  { intros k Hk. apply process_feature_cache_other. set_solver. }
  split; [|apply process_feature_active].
  intros o Ho. split; [by apply process_feature_in_sync|].
  destruct (decide (o = obj)) as [->|Hne].
  - destruct (process_feature_hash config host obj w) as [(_ & _ & H)|(_ & H & _)];
      [done|by destruct H].
  - unfold history. by rewrite process_feature_heap_other.
Qed.

(** The inner loop of [process_all_features] over objects with names of
    their own. *)
Lemma process_batch_ready config host cs : ∀ n w,
  NoDup (name_of w <$> cs) →
  (∀ o, o ∈ cs → sound host o) →
  (∀ o, o ∈ cs → ready w o) →
  (process_batch config host cs (n, w)).1 = n + length (stale w cs)
  ∧ (∀ o, o ∈ cs → in_sync (process_batch config host cs (n, w)).2 o)
  ∧ engine_frame cs w (process_batch config host cs (n, w)).2.
Proof.
  induction cs as [|x cs IH]; intros n w Hnd Hsound Hready.
  { cbn. split; [lia|]. split; [by intros o ?%elem_of_nil|apply engine_frame_refl]. }
  rewrite process_batch_cons.
  destruct (process_feature_ready config host x w) as [Hflag Hsync];
    [apply Hsound; by left|apply Hready; by left|].
  pose proof (process_feature_engine_frame config host x w) as Hframe.
  set (w1 := (process_feature config host x w).2) in *.
  destruct Hframe as (F1 & F2 & F3 & F4 & F5 & F6).
  cbn in Hnd. apply NoDup_cons in Hnd as [Hx Hnd].
  assert (∀ o, o ∈ cs → o ≠ x ∧ Name (heap w x) ≠ Name (heap w o)) as Hdiff.
  { intros o Ho. assert (Name (heap w x) ≠ Name (heap w o)) as Hn.
    { intros Heq. apply Hx. apply list_elem_of_fmap. by exists o. }
    split; [|done]. by intros ->. }
  assert (name_of w1 <$> cs = name_of w <$> cs) as Hnames.
  { apply list_fmap_ext. intros i o _. unfold name_of. by destruct (F1 o). }
  destruct (IH (if (process_feature config host x w).1 then S n else n) w1)
    as (Hcount & Hall & Hrest).
  { by rewrite Hnames. }
  { intros o Ho. apply Hsound. by right. }
  { intros o Ho. destruct (Hdiff o Ho). apply ready_other; [done..|]. apply Hready. by right. }
  split; [|split].
  - rewrite Hcount, stale_cons, length_app, Hflag.
    rewrite (stale_ext w w1).
    + case_bool_decide; cbn; lia.
    + intros o Ho. apply F3. destruct (Hdiff o Ho). set_solver.
  - intros o Ho. apply elem_of_cons in Ho as [->|Ho]; [|by apply Hall].
    destruct Hrest as (_ & _ & _ & _ & R5 & _). by apply R5.
  - apply (engine_frame_trans _ _ w1).
    + apply (engine_frame_weaken [x]); [set_solver|].
      exact (conj F1 (conj F2 (conj F3 (conj F4 (conj F5 F6))))).
    + apply (engine_frame_weaken cs); [set_solver|done].
Qed.

Lemma batches_concat {A} fuel n : ∀ l : list A,
  0 < n → length l ≤ fuel → concat (batches fuel n l) = l.
Proof.
  induction fuel as [|fuel IH]; intros l Hn Hlen.
  { destruct l; [done|cbn in Hlen; lia]. }
  destruct l as [|a l]; [done|].
  change (batches (S fuel) n (a :: l))
    with (take n (a :: l) :: batches fuel n (drop n (a :: l))).
  cbn [concat]. rewrite IH; [apply take_drop|done|].
  rewrite length_drop. cbn in *. lia.
Qed.

Lemma ready_engine_frame scope w w' o :
  engine_frame scope w w' → o ∉ scope → name_of w o ∉ name_of w <$> scope →
  ready w o → ready w' o.
Proof.
  intros (F1 & F2 & F3 & F4 & F5 & _) Ho Hname [Hfp|Hs]; [left|right; by apply F5].
  unfold fast_path in *. rewrite F3 by done.
  pose proof (F4 _ Hname) as Hc. unfold name_of in Hc. by rewrite Hc.
Qed.

Lemma ready_empty_cache w o : feature_cache w = ∅ → ready w o.
Proof. intros H. left. unfold fast_path. by rewrite H, lookup_empty. Qed.

Lemma ready_console w w' o :
  heap w' = heap w → feature_cache w' = feature_cache w → ready w o → ready w' o.
Proof. unfold ready, fast_path, in_sync. intros -> ->. done. Qed.

Section Rounds.

Variable config : Config.
Variable host : Reading.
Variable total : nat.

(** The loop of [process_all_features] over the batches. *)
Lemma analysis_rounds bs : ∀ i p w,
  NoDup (name_of w <$> concat bs) →
  (∀ o, o ∈ concat bs → sound host o) →
  (∀ o, o ∈ concat bs → ready w o) →
  (foldl (analysis_round config host total) (i, p, w) bs).1.2
  = p + length (stale w (concat bs))
  ∧ (∀ o, o ∈ concat bs →
          in_sync (foldl (analysis_round config host total) (i, p, w) bs).2 o)
  ∧ engine_frame (concat bs) w (foldl (analysis_round config host total) (i, p, w) bs).2.
Proof.
  induction bs as [|b bs IH]; intros i p w Hnd Hsound Hready.
  { cbn. split; [lia|]. split; [by intros o ?%elem_of_nil|apply engine_frame_refl]. }
  cbn [foldl concat] in *. rewrite fmap_app in Hnd.
  apply NoDup_app in Hnd as (Hb & Hdisj & Hbs).
  destruct (process_batch_ready config host b 0 w Hb) as (Hcount & Hall & Hframe).
  { intros o Ho. apply Hsound, elem_of_app. by left. }
  { intros o Ho. apply Hready, elem_of_app. by left. }
  unfold analysis_round at 2 4 6.
  destruct (process_batch config host b (0, w)) as [bp w1] eqn:Hbatch. cbn in Hcount, Hall, Hframe.
  set (w2 := PrintMessage _ w1).
  assert (engine_frame b w w2) as Hframe2.
  { apply (engine_frame_trans _ _ w1); [done|]. by apply engine_frame_console. }
  assert (∀ o, o ∈ concat bs → (o ∉ b) ∧ (name_of w o ∉ name_of w <$> b)) as Hout.
  { intros o Ho.
    assert (name_of w o ∉ name_of w <$> b) as Hn.
    { intros Hin. apply (Hdisj _ Hin). apply list_elem_of_fmap. by exists o. }
    split; [|done]. intros Hin. apply Hn. apply list_elem_of_fmap. by exists o. }
  assert (name_of w2 <$> concat bs = name_of w <$> concat bs) as Hnames.
  { apply list_fmap_ext. intros j o _. unfold name_of.
    destruct Hframe2 as (F1 & _). by destruct (F1 o). }
  destruct (IH (i + Z.to_nat (batch_size config)) (p + bp) w2)
    as (Hcount2 & Hall2 & Hframe3).
  { by rewrite Hnames. }
  { intros o Ho. apply Hsound, elem_of_app. by right. }
  { intros o Ho. destruct (Hout o Ho).
    apply (ready_engine_frame b w); [done..|]. apply Hready, elem_of_app. by right. }
  split; [|split].
  - rewrite Hcount2. unfold stale at 2. rewrite filter_app, length_app. fold (stale w b).
    fold (stale w (concat bs)). rewrite (stale_ext w w2).
    + lia.
    + intros o Ho. destruct Hframe2 as (_ & _ & F3 & _). apply F3. by destruct (Hout o Ho).
  - intros o Ho. apply elem_of_app in Ho as [Ho|Ho]; [|by apply Hall2].
    destruct Hframe3 as (_ & _ & _ & _ & R5 & _). apply R5. cbn.
    unfold w2, in_sync. cbn. by apply Hall.
  - apply (engine_frame_trans _ _ w2).
    + apply (engine_frame_weaken b); [set_solver|done].
    + apply (engine_frame_weaken (concat bs)); [set_solver|done].
Qed.

End Rounds.

(** [process_all_features] on a document whose objects have names of their
    own, at a reading at which no call raises. *)
Lemma process_all_features_spec config host doc_objects elapsed w :
  ActiveDocument w = true →
  (0 < batch_size config)%Z →
  NoDup (name_of w <$> doc_objects) →
  (∀ o, o ∈ doc_objects → sound host o) →
  (∀ o, o ∈ doc_objects → ready w o) →
  ∃ w',
    process_all_features config host doc_objects elapsed w = Some w'
    ∧ (∀ o, o ∈ doc_objects → in_sync w' o)
    ∧ engine_frame doc_objects w w'
    ∧ last (console w')
      = Some (nl +:+ "Fertig! " +:+ pretty (length (stale w doc_objects))
                 +:+ " Objekte verarbeitet in " +:+ elapsed +:+ "s" +:+ nl).
Proof.
  intros Hdoc Hsize Hnd Hsound Hready.
  unfold process_all_features. rewrite Hdoc. cbn [negb].
  set (w0 := PrintMessage _ w).
  destruct (sort_by_dependencies_total w0 doc_objects) as [sorted Hsort].
  rewrite Hsort. cbn [mbind option_bind].
  assert (sorted ≡ₚ doc_objects) as Hperm
    by (by apply (sort_by_dependencies_perm w0)).
  unfold range_batches. rewrite decide_False by lia. rewrite decide_False by lia.
  cbn [mbind option_bind].
  set (bs := batches (length sorted) (Z.to_nat (batch_size config)) sorted).
  assert (concat bs = sorted) as Hconcat by (apply batches_concat; lia).
  destruct (analysis_rounds config host (length sorted) bs 0 0 w0) as (Hcount & Hall & Hframe).
  { rewrite Hconcat. change (name_of w0) with (name_of w). by rewrite Hperm. }
  { intros o Ho. apply Hsound. by rewrite <- Hperm, <- Hconcat. }
  { intros o Ho. apply (ready_console w); [done..|]. apply Hready.
    by rewrite <- Hperm, <- Hconcat. }
  destruct (foldl _ _ bs) as [[i processed] w1]. cbn in Hcount, Hall, Hframe.
  eexists. split; [done|]. split; [|split].
  - intros o Ho. unfold in_sync. cbn. apply Hall. by rewrite Hconcat, Hperm.
  - apply (engine_frame_trans _ _ w0); [by apply engine_frame_console|].
    apply (engine_frame_trans _ _ w1).
    + apply (engine_frame_weaken (concat bs)); [|done].
      intros o Ho. by rewrite <- Hperm, <- Hconcat.
    + by apply engine_frame_console.
  - cbn. rewrite last_snoc. do 4 f_equal. rewrite Hcount, Hconcat. cbn.
    rewrite (stale_ext w w0) by done. f_equal. by apply stale_perm.
Qed.





(** ** The dispatch *)

Section Calls.

Variable config : Config.
Variable host : Reading.

Lemma steps_engine_frame calls : ∀ w,
  engine_frame calls w (foldl (step config host) w calls).
Proof.
  induction calls as [|x calls IH]; intros w; [apply engine_frame_refl|].
  cbn [foldl]. apply (engine_frame_trans _ _ (step config host w x)).
  - apply (engine_frame_weaken [x]); [set_solver|apply process_feature_engine_frame].
  - apply (engine_frame_weaken calls); [set_solver|apply IH].
Qed.

(** An object with a name of its own along any sequence of calls. *)
Lemma steps_ready calls : ∀ w o,
  named_alone w o → sound host o → ready w o →
  ready (foldl (step config host) w calls) o
  ∧ (o ∈ calls → in_sync (foldl (step config host) w calls) o).
Proof.
  induction calls as [|x calls IH]; intros w o Halone Hsound Hready.
  { cbn. split; [done|]. by intros ?%elem_of_nil. }
  cbn [foldl]. unfold step at 2 4.
  pose proof (process_feature_engine_frame config host x w) as Hframe.
  set (w1 := (process_feature config host x w).2) in *.
  assert (named_alone w1 o) as Halone1.
  { intros y Hy. apply Halone. destruct Hframe as (F1 & _).
    destruct (F1 y) as [Hy1 _], (F1 o) as [Ho1 _]. congruence. }
  assert (ready w1 o ∧ (x = o → in_sync w1 o)) as [Hready1 Hx].
  { destruct (decide (x = o)) as [->|Hne].
    - destruct (process_feature_ready config host o w Hsound Hready) as [_ Hs].
      split; [by right|done].
    - split; [|done]. apply ready_other; [done| |done].
      intros Heq. apply Hne. by apply Halone. }
  destruct (IH w1 o Halone1 Hsound Hready1) as (Hr & Hin).
  split; [done|].
  intros Ho. apply elem_of_cons in Ho as [->|Ho]; [|by apply Hin].
  destruct (steps_engine_frame calls w1) as (_ & _ & _ & _ & F5 & _). by apply F5, Hx.
Qed.

Variable recursion_limit : nat.
Hypothesis depth_positive : (1 ≤ dependency_depth config)%Z.

(** One dispatch is a sequence of calls that holds the dispatched object. *)
Lemma process_affected_features_calls obj w :
  ActiveDocument w = true →
  ∃ calls,
    process_affected_features config host recursion_limit obj w
    = Some (foldl (step config host) w calls)
    ∧ obj ∈ calls.
Proof.
  intros Hdoc. unfold process_affected_features. rewrite Hdoc.
  rewrite decide_True by lia.
  destruct (process_with_depth_limit_total config host w
              (Z.to_nat (dependency_depth config)) obj (dependency_depth config) ∅ w)
    as (P' & calls & Hfp & ->); [lia|lia|apply same_shape_refl|].
  destruct (fingerprinted_spec w _ _ _ _ _ _ _ Hfp depth_positive)
    as (new & Hcalls & _ & _ & _ & _ & Hhead & _).
  cbn in Hcalls. subst calls. exists new. split; [done|].
  destruct Hhead as [rest ->]; [set_solver|]. by left.
Qed.

Lemma steps_active calls w :
  ActiveDocument (foldl (step config host) w calls) = ActiveDocument w.
Proof. by destruct (foldl_step_engine_only config host calls w) as (H & _). Qed.

Lemma dispatch_calls objs : ∀ w,
  ActiveDocument w = true →
  ∃ calls,
    foldl (λ acc obj, acc ≫= process_affected_features config host recursion_limit obj)
          (Some w) objs
    = Some (foldl (step config host) w calls)
    ∧ ∀ o, o ∈ objs → o ∈ calls.
Proof.
  induction objs as [|x objs IH]; intros w Hdoc.
  { exists []. split; [done|]. by intros o ?%elem_of_nil. }
  cbn [foldl mbind option_bind].
  destruct (process_affected_features_calls x w Hdoc) as (calls1 & -> & Hx).
  destruct (IH (foldl (step config host) w calls1)) as (calls2 & -> & Hrest).
  { by rewrite steps_active. }
  exists (calls1 ++ calls2). rewrite foldl_app. split; [done|].
  intros o Ho. apply elem_of_app. apply elem_of_cons in Ho as [->|Ho]; [by left|].
  right. by apply Hrest.
Qed.

Lemma batches_calls bs : ∀ w,
  ActiveDocument w = true →
  ∃ calls,
    foldl (λ acc batch,
             foldl (λ acc obj,
                      acc ≫= process_affected_features config host recursion_limit obj)
                   acc batch)
          (Some w) bs
    = Some (foldl (step config host) w calls)
    ∧ ∀ o, o ∈ concat bs → o ∈ calls.
Proof.
  induction bs as [|b bs IH]; intros w Hdoc.
  { exists []. split; [done|]. by intros o ?%elem_of_nil. }
  cbn [foldl concat].
  destruct (dispatch_calls b w Hdoc) as (calls1 & -> & Hb).
  destruct (IH (foldl (step config host) w calls1)) as (calls2 & -> & Hrest).
  { by rewrite steps_active. }
  exists (calls1 ++ calls2). rewrite foldl_app. split; [done|].
  intros o Ho. apply elem_of_app. apply elem_of_app in Ho as [Ho|Ho]; [left|right]; auto.
Qed.

End Calls.



(** ** Switching on and off *)

(** Both slots return at once while one of the two switches is off. *)
Lemma slots_switched_off config host w :
  doc_active w && observer_active w = false →
  (∀ obj prop, slotChangedObject config host obj prop w = w)
  ∧ (∀ obj, slotCreatedObject config host obj w = w).
Proof.
  intros Hoff. split.
  - intros obj prop. unfold slotChangedObject. by rewrite Hoff.
  - intros obj. unfold slotCreatedObject. by rewrite Hoff.
Qed.

Lemma remove_observers_world shell i w :
  let w' := (remove_observers shell (i, w)).2 in
  observer_active w' = false
  ∧ (document_observer i = true → doc_active w' = false)
  ∧ recompute_queue w' = recompute_queue w
  ∧ changed_properties w' = changed_properties w
  ∧ recompute_timer w' = recompute_timer w
  ∧ throttle_queue w' = throttle_queue w
  ∧ throttle_timer w' = throttle_timer w
  ∧ single_shots w' = single_shots w
  ∧ heap w' = heap w ∧ feature_cache w' = feature_cache w.
Proof.
  unfold remove_observers.
  destruct (document_observer i), (remove_document_observer shell),
    (task_panel_observer i), (edit_mode_observer i); cbn; by repeat split.
Qed.

(** X10.  After [remove_observers] both slots return at once, whatever
    they are told; the queue, the change record, both timers and the buffer
    of the throttle are as they were, so that what is pending still runs.
    When [removeDocumentObserver] does not raise, the two GUI observers are
    switched off as well and the polling stops; when it raises, they stay as
    they were. *)
Theorem X10_remove_observers_stops_the_slots_and_keeps_what_is_pending
    (shell : Shell) (i : Instances) (w : World) :
  let st := remove_observers shell (i, w) in
  observer_active st.2 = false
  ∧ (∀ config host obj prop, slotChangedObject config host obj prop st.2 = st.2)
  ∧ (∀ config host obj, slotCreatedObject config host obj st.2 = st.2)
  ∧ recompute_queue st.2 = recompute_queue w
  ∧ changed_properties st.2 = changed_properties w
  ∧ recompute_timer st.2 = recompute_timer w
  ∧ throttle_queue st.2 = throttle_queue w
  ∧ throttle_timer st.2 = throttle_timer w
  ∧ ((if document_observer i then remove_document_observer shell else None) = None →
     (edit_mode_observer i = true →
      edit_timer st.1 = false ∧ ∀ host gui, check_edit_mode host gui st.2 = st.2)
     ∧ (task_panel_observer i = true → ∀ host e, eventFilter host e st.2 = st.2))
  ∧ (∀ msg, document_observer i = true → remove_document_observer shell = Some msg →
            edit_active st.2 = edit_active w ∧ task_active st.2 = task_active w
            ∧ edit_timer st.1 = edit_timer i).
Proof.
  cbn zeta.
  destruct (remove_observers_world shell i w)
    as (Hoff & _ & Hq & Hc & Ht & Htq & Htt & _).
  split; [done|]. split.
  { intros config host obj prop.
    apply (slots_switched_off config host). by rewrite Hoff, andb_false_r. }
  split.
  { intros config host obj.
    apply (slots_switched_off config host). by rewrite Hoff, andb_false_r. }
  split; [done|]. split; [done|]. split; [done|]. split; [done|]. split; [done|].
  split.
  - intros Hfine. unfold remove_observers. rewrite Hfine. split.
    + intros He. rewrite He. cbn. split; [done|]. intros host gui.
      unfold check_edit_mode. cbn.
      by destruct (document_observer i), (task_panel_observer i).
    + intros Ht'. rewrite Ht'. intros host e. unfold eventFilter.
      by destruct (document_observer i), (edit_mode_observer i).
  - intros msg Hd Hr. unfold remove_observers. rewrite Hd, Hr. done.
Qed.

(** X11.  Switching the tracking off and on again: [setup_observers]
    creates no observer that exists already, so the three instances keep the
    [active = False] that [remove_observers] gave them.  [observer_active] is
    set again, and yet both slots, the poll of the edit mode and the event
    filter return at once on every input. *)
Theorem X11_switching_off_and_on_again_leaves_the_observers_off
    (host : Reading) (off on : Shell) (i : Instances) (w : World) :
  document_observer i = true →
  task_panel_observer i = true →
  edit_mode_observer i = true →
  remove_document_observer off = None →
  let st := toggle_toponaming host on true (toggle_toponaming host off false (i, w)) in
  (add_document_observer on = None → observer_active st.2 = true)
  ∧ doc_active st.2 = false
  ∧ task_active st.2 = false
  ∧ edit_active st.2 = false
  ∧ edit_timer st.1 = false
  ∧ (∀ config h obj prop, slotChangedObject config h obj prop st.2 = st.2)
  ∧ (∀ config h obj, slotCreatedObject config h obj st.2 = st.2)
  ∧ (∀ h gui, check_edit_mode h gui st.2 = st.2)
  ∧ (∀ h e, eventFilter h e st.2 = st.2).
Proof.
  intros Hd Ht He Hr. cbn zeta.
  unfold toggle_toponaming, remove_observers. rewrite Hd, Ht, He, Hr.
  unfold setup_observers. cbn [document_observer task_panel_observer edit_mode_observer].
  assert (∀ w' : World,
            doc_active w' = false → task_active w' = false → edit_active w' = false →
            (∀ config h obj prop, slotChangedObject config h obj prop w' = w')
            ∧ (∀ config h obj, slotCreatedObject config h obj w' = w')
            ∧ (∀ h gui, check_edit_mode h gui w' = w')
            ∧ (∀ h e, eventFilter h e w' = w')) as Hdead.
  { intros w' H1 H2 H3. split; [|split; [|split]].
    - intros config h obj prop. by apply (slots_switched_off config h); rewrite H1.
    - intros config h obj. by apply (slots_switched_off config h); rewrite H1.
    - intros h gui. unfold check_edit_mode. by rewrite H3.
    - intros h e. unfold eventFilter. by rewrite H2. }
  destruct (add_document_observer on) as [msg|]; cbn [fst snd];
    match goal with |- context [doc_active ?W = false] => set (w' := W) end;
    (split; [done|]); do 4 (split; [done|]); by apply (Hdead w').
Qed.

(** The tracker of one box, switched off at time 1000 and on at time 2000,
    ignores a change of the length at time 3000. *)
Lemma X11_witness :
  let st := toggle_toponaming (reading 2000 "2024-05-01 10:00:02") willing_shell true
              (toggle_toponaming (reading 1000 "2024-05-01 10:00:01") willing_shell false
                 (all_instances, one_box)) in
  observer_active st.2 = true
  ∧ doc_active st.2 = false
  ∧ slotChangedObject default_config (reading 3000 "2024-05-01 10:00:03") 0 "Length" st.2
    = st.2.
Proof.
  destruct (X11_switching_off_and_on_again_leaves_the_observers_off
              (reading 2000 "2024-05-01 10:00:02") willing_shell willing_shell
              all_instances one_box)
    as (H1 & H2 & _ & _ & _ & H3 & _); try reflexivity.
  split; [by apply H1|]. split; [exact H2|]. apply H3.
Defined.

(** ** The history and the stored hash *)

Lemma last_drop_snoc {A} k (l : list A) x e :
  last (drop k (l ++ [x])) = Some e → e = x.
Proof.
  destruct (decide (k ≤ length l)) as [Hle|Hgt].
  - rewrite drop_app_le by done. rewrite last_snoc. by intros [= ->].
  - rewrite drop_ge by (rewrite length_app; cbn; lia). done.
Qed.

Lemma slice_from_drop {A} i (l : list A) : ∃ k, py.slice_from i l = drop k l.
Proof. unfold py.slice_from. destruct (i <? 0)%Z; by eexists. Qed.

(** The newest entry of the history written for [h] records [h], whatever
    [history_length] is. *)
Lemma new_history_records config host h H e :
  String.length h = 32 →
  last (new_history config host h H) = Some e → recorded_hash e = h.
Proof.
  intros Hlen. unfold new_history.
  assert (∀ i, last (py.slice_from i (H ++ [time_strftime host +:+ ": " +:+ h])) = Some e →
               recorded_hash e = h) as Hslice.
  { intros i. destruct (slice_from_drop i (H ++ [time_strftime host +:+ ": " +:+ h]))
      as [k ->]. intros ->%last_drop_snoc. by apply recorded_hash_entry. }
  destruct (last H) as [newest|] eqn:Hlast; [|apply Hslice].
  destruct (py.endswith newest h); [|apply Hslice].
  destruct (last_Some H newest) as [[l' ->] _]; [done|].
  rewrite set_last_snoc, last_snoc. intros [= <-]. by apply recorded_hash_entry.
Qed.

(** X12.  When [FeatureHash] is the hash the newest entry of the history
    records, it is so again after [process_feature], whatever
    [history_length] is and however the call ends. *)
Theorem X12_the_stored_hash_is_the_one_the_newest_entry_records
    (config : Config) (host : Reading) (obj : ref) (w : World) :
  synced w obj →
  synced (process_feature config host obj w).2 obj.
Proof.
  intros Hs.
  destruct (process_feature_hash config host obj w)
    as [(_ & H2 & H3)|(H1 & _ & H3 & _)].
  - unfold synced. rewrite H2, H3. exact Hs.
  - destruct (process_feature_properties config host obj w)
      as [(H1' & _)|(_ & _ & _ & H4)]; [congruence|].
    intros e He. rewrite H3. f_equal. symmetry.
    rewrite H4 in He.
    apply (new_history_records config host _ _ _ (fingerprint_length _) He).
Qed.

(** The first call on a box without history. *)
Lemma X12_witness :
  synced (process_feature default_config (reading 100 "2024-05-01 10:00:00") 0 one_box).2 0.
Proof.
  apply (X12_the_stored_hash_is_the_one_the_newest_entry_records default_config
           (reading 100 "2024-05-01 10:00:00") 0 one_box).
  intros e He. discriminate He.
Defined.

(** X13.  With a [history_length] of 0 the slice [history[-0:]] is the whole
    list: a change appends its entry and nothing is dropped.  With a negative
    [history_length] the slice drops that many of the oldest entries
    instead. *)
Theorem X13_a_history_length_of_zero_or_less_does_not_cap_the_history
    (config : Config) (host : Reading) (obj : ref) (w : World) :
  (history_length config ≤ 0)%Z →
  synced w obj →
  (process_feature config host obj w).1 = true →
  history (process_feature config host obj w).2 obj
  = drop (Z.to_nat (- history_length config))
         (history w obj ++ [time_strftime host +:+ ": " +:+ fingerprint (heap w obj)]).
Proof.
  intros Hcap Hs Htrue.
  destruct (process_feature_properties config host obj w)
    as [(Hfalse & _)|(_ & Hne & _ & ->)]; [congruence|].
  unfold new_history.
  assert (py.slice_from (- history_length config)
            (history w obj ++ [time_strftime host +:+ ": " +:+ fingerprint (heap w obj)])
          = drop (Z.to_nat (- history_length config))
              (history w obj ++ [time_strftime host +:+ ": " +:+ fingerprint (heap w obj)]))
    as Hslice.
  { unfold py.slice_from. destruct (Z.ltb_spec (- history_length config) 0); [lia|done]. }
  destruct (last (history w obj)) as [newest|] eqn:Hlast; [|exact Hslice].
  destruct (py.endswith newest (fingerprint (heap w obj))) eqn:Hends; [|exact Hslice].
  apply endswith_recorded_hash in Hends; [|apply fingerprint_length].
  destruct Hne. rewrite (Hs newest Hlast). by rewrite Hends.
Qed.

(** The first entry of a box under a [history_length] of 0. *)
Lemma X13_witness :
  history (process_feature uncapped_config (reading 100 "2024-05-01 10:00:00") 0 one_box).2 0
  = drop (Z.to_nat (- history_length uncapped_config))
         (history one_box 0
            ++ [time_strftime (reading 100 "2024-05-01 10:00:00") +:+ ": "
                  +:+ fingerprint (heap one_box 0)]).
Proof.
  refine (X13_a_history_length_of_zero_or_less_does_not_cap_the_history uncapped_config
            (reading 100 "2024-05-01 10:00:00") 0 one_box _ _ _).
  - discriminate.
  - intros e He. discriminate He.
  - vm_compute. reflexivity.
Defined.

(** ** Frames of the events *)

(** [print_changes] writes to the console and nowhere else. *)
Lemma print_changes_console w : ∃ c, print_changes w = set_console c w.
Proof.
  unfold print_changes.
  generalize (py.sorted (map fst (map_to_list (changed_properties w)))). intros l.
  assert (∀ c, ∃ c',
    foldl (λ w obj_label,
             PrintMessage ("-->" +:+ obj_label +:+ ": "
                             +:+ py.join ", " (defaultdict_get (changed_properties w) obj_label)
                             +:+ nl) w) (set_console c w) l
    = set_console c' w) as H.
  { induction l as [|x l IH]; intros c; [by exists c|]. cbn [foldl].
    unfold PrintMessage at 2. cbn.
    apply (IH (c ++ ["-->" +:+ x +:+ ": "
                       +:+ py.join ", " (defaultdict_get (changed_properties w) x) +:+ nl])). }
  destruct (H (console w)) as [c' Hc']. exists c'. rewrite <- Hc'. by destruct w.
Qed.

(** X14.  No event but a firing of the recompute timer that reaches the
    dispatch changes an object or the cache; no event but a poll of the edit
    mode or an event of the main window changes the suspension; and
    [changes_during_task] is raised by nothing but a change accepted under
    suspension. *)
Theorem X14_what_the_delivery_of_an_event_leaves_alone
    (config : Config) (host : Reading) (recursion_limit : nat) (e : event)
    (w w' : World) :
  deliver config host recursion_limit e w = Some w' →
  (dispatching host e w = false →
   heap w' = heap w ∧ feature_cache w' = feature_cache w)
  ∧ ((∀ gui, e ≠ EditCheckTimeout gui) → (∀ q, e ≠ MainWindowEvent q) →
     suspended w' = suspended w)
  ∧ (changes_during_task w' = true →
     changes_during_task w = true
     ∨ (suspended w = true ∧ accepted config host e w ≠ [])).
Proof.
  intros Hd. split; [|split].
  - intros Hq. by destruct (deliver_unfingerprinted config recursion_limit host e w w' Hd Hq).
  - intros H1 H2.
    by apply (deliver_keeps_suspension config recursion_limit host e w w' Hd).
  - intros Hflag.
    destruct (deliver_flag_cases config host recursion_limit e w w' Hd)
      as [H|[[H _]|H]]; [congruence|left; congruence|by right].
Qed.

(** The change of the length that leads from [one_box] to [pending]. *)
Lemma X14_witness :
  heap pending = heap one_box
  ∧ suspended pending = suspended one_box
  ∧ changes_during_task pending = false.
Proof.
  destruct (X14_what_the_delivery_of_an_event_leaves_alone default_config
              (reading 500 "2024-05-01 10:00:00") 0 (ChangedObject 0 "Length")
              one_box pending eq_refl) as (H1 & H2 & _).
  split; [by apply H1|]. split; [by apply H2|reflexivity].
Defined.

(** The exit handlers in a world that recorded changes. *)
Lemma completion_with_changes config host f w :
  suspended w = false → changes_during_task w = true → recompute_queue w ≠ [] →
  let w' := match f with
            | CheckEditCompletion => check_edit_completion config host w
            | CheckTaskCompletion => check_task_completion config host w
            end in
  recompute_queue w' = recompute_queue w
  ∧ changed_properties w' = changed_properties w
  ∧ recompute_timer w' = Some (time_time host + recompute_delay config)%Z
  ∧ pending_output w' = true
  ∧ heap w' = heap w ∧ feature_cache w' = feature_cache w
  ∧ suspended w' = false.
Proof.
  intros Hs Hflag Hqueue. cbn zeta.
  apply orb_false_iff in Hs as [Hedit Htask].
  assert (∀ w1 : World,
            edit_mode_active w1 = false → task_panel_active w1 = false →
            let w' := start_recompute_timer config host (print_changes w1) in
            recompute_queue w' = recompute_queue w1
            ∧ changed_properties w' = changed_properties w1
            ∧ recompute_timer w' = Some (time_time host + recompute_delay config)%Z
            ∧ pending_output w' = pending_output w1
            ∧ heap w' = heap w1 ∧ feature_cache w' = feature_cache w1
            ∧ suspended w' = false) as Hstart.
  { intros w1 He Ht. cbn zeta. destruct (print_changes_console w1) as [c ->].
    unfold start_recompute_timer, suspended. cbn. rewrite He, Ht. cbn.
    by rewrite He, Ht. }
  destruct f; [unfold check_edit_completion|unfold check_task_completion].
  - rewrite Htask, Hflag. rewrite bool_decide_eq_false_2 by done. cbn [andb negb].
    set (w1 := PrintMessage _ (set_pending_output true _)).
    destruct (Hstart w1) as (H1 & H2 & H3 & H4 & H5 & H6 & H7); [done..|].
    by rewrite H1, H2, H3, H4, H5, H6, H7.
  - rewrite Hedit, Hflag. rewrite bool_decide_eq_false_2 by done. cbn [andb negb].
    set (w1 := PrintMessage _ (set_pending_output true _)).
    destruct (Hstart w1) as (H1 & H2 & H3 & H4 & H5 & H6 & H7); [done..|].
    by rewrite H1, H2, H3, H4, H5, H6, H7.
Qed.

(** X15.  The exit handler in a world that is no longer suspended, has
    recorded changes and holds a queue: it keeps the queue and the change
    record, arms the recompute timer for [recompute_delay] from now and
    fingerprints nothing; the firing of that timer, at its deadline or later,
    reaches the dispatch. *)
Theorem X15_an_exit_with_changes_arms_the_recompute_timer
    (config : Config) (recursion_limit : nat) (host : Reading) (w : World)
    (deadline : Z) (f : callback) (rest : list (Z * callback)) :
  suspended w = false →
  changes_during_task w = true →
  recompute_queue w ≠ [] →
  single_shots w = (deadline, f) :: rest →
  (deadline ≤ time_time host)%Z →
  ∃ w',
    deliver config host recursion_limit SingleShotTimeout w = Some w'
    ∧ recompute_queue w' = recompute_queue w
    ∧ changed_properties w' = changed_properties w
    ∧ recompute_timer w' = Some (time_time host + recompute_delay config)%Z
    ∧ pending_output w' = true
    ∧ heap w' = heap w ∧ feature_cache w' = feature_cache w
    ∧ ∀ host', (time_time host + recompute_delay config ≤ time_time host')%Z →
               dispatching host' RecomputeTimeout w' = true.
Proof.
  intros Hs Hflag Hqueue Hshots Hdue.
  destruct (completion_with_changes config host f (set_single_shots rest w))
    as (H1 & H2 & H3 & H4 & H5 & H6 & H7); [done..|].
  eexists. split.
  { cbn. rewrite Hshots. unfold due. by rewrite bool_decide_eq_true_2. }
  do 6 (split; [done|]).
  intros host' Hlate. unfold dispatching. rewrite H3, H7, H1. unfold due.
  rewrite bool_decide_eq_true_2 by done. by rewrite bool_decide_eq_false_2.
Qed.

(** The edit session with one change, at the exit handler at time 1300. *)
Lemma X15_witness :
  ∃ w',
    deliver default_config (reading 1300 "2024-05-01 10:00:01") 0 SingleShotTimeout edited
    = Some w'
    ∧ recompute_queue w' = recompute_queue edited
    ∧ recompute_timer w' = Some (1300 + 300)%Z.
Proof.
  destruct (X15_an_exit_with_changes_arms_the_recompute_timer default_config 0
              (reading 1300 "2024-05-01 10:00:01") edited 1300%Z CheckEditCompletion [])
    as (w' & H1 & H2 & _ & H3 & _).
  - reflexivity.
  - reflexivity.
  - discriminate.
  - reflexivity.
  - vm_compute. discriminate.
  - exists w'. split; [exact H1|]. split; [exact H2|exact H3].
Defined.
